(** * xbee_lib: a shallow embedding of src/xbee.c

    The driver frames API payloads for an XBee radio (start delimiter,
    big-endian length, byte-stuffed payload, checksum), scans a circular
    receive buffer for the next frame and parses response payloads.

    Conventions of the embedding.
    - A byte ([uint8_t], [char]) is a [Z] in [0, 256); arithmetic on it is
      reduced with [to_uint8].  [uint16_t] is reduced with [to_uint16],
      [uint64_t] with [to_uint64], [size_t] (64 bits) with [to_size_t],
      [int] (32 bits) with [to_int].
    - A (size, pointer) pair of the C interface that is only read is a
      [list Z]; the size is the length of the list.
    - The caller's output buffer of [xbee_decode_frame] is a memory
      [Z -> Z] indexed by offset, so that a store at any offset is visible.
    - The transport (xbee->uart) is a state [U] with its [write] and [read]
      functions, taken as parameters.
    - [assert] lines do not change control flow in a release build, and
      the functions below are the code of that build.  With assertions
      enabled the code stops where one fails, so a statement speaks for
      both builds on the states where the assertions hold: a ring that
      satisfies [xbee_check] (the predicate [ring_ok] below, which adds
      that the capacity fits an int), whose storage has recv_max_size
      cells, and for xbee_fill_buffer a ring that is not full
      ([fill_first_asserts]). *)

From Stdlib Require Import String Ascii ZArith List Lia Bool.
Import ListNotations.
Open Scope Z_scope.

(** ** Machine integers *)

Definition to_uint8 (z : Z) : Z := z mod 256.
Definition to_uint16 (z : Z) : Z := z mod 65536.
Definition to_uint64 (z : Z) : Z := z mod 2 ^ 64.
Definition SIZE_MOD : Z := 2 ^ 64.
Definition to_size_t (z : Z) : Z := z mod SIZE_MOD.
Definition INT_MAX : Z := 2 ^ 31 - 1.
Definition to_int (z : Z) : Z :=
  let w := z mod 2 ^ 32 in if w <=? INT_MAX then w else w - 2 ^ 32.

(** buf[i] for a buffer held as a list; bytes outside the list read as 0. *)
Definition byte_at (buf : list Z) (i : Z) : Z := nth (Z.to_nat i) buf 0.

(** The [n] bytes at buf+off. *)
Definition sub_buf (buf : list Z) (off n : Z) : list Z :=
  firstn (Z.to_nat n) (skipn (Z.to_nat off) buf).

(** buf[i] = v for a local array. *)
Fixpoint set_at (buf : list Z) (i : nat) (v : Z) : list Z :=
  match buf, i with
  | [], _ => []
  | _ :: t, O => v :: t
  | h :: t, S j => h :: set_at t j v
  end.

(** The character at_command[i] of a C string, as a byte. *)
Definition char_at (s : string) (i : nat) : Z :=
  match String.get i s with
  | Some c => Z.of_nat (nat_of_ascii c)
  | None => 0
  end.

Definition sum_bytes (l : list Z) : Z := fold_right Z.add 0 l.

(** ** Protocol constants (defined in xbee.c) *)

Definition XBEE_FRAME_DELIM : Z := 0x7E.
Definition XBEE_FRAME_ESCAPE : Z := 0x7D.
Definition XBEE_XON : Z := 0x11.
Definition XBEE_XOFF : Z := 0x13.

Definition XBEE_ERR_FOUND_START : Z := -1.
Definition XBEE_NOT_ENOUGH_DATA : Z := -2.

(** Modelled from the spec: the request API identifiers of xbee.h, which is
    not part of the sources; section 4.6 gives AT command = 0x08 and
    remote AT command = 0x17. *)
Definition XBEE_AT_COMMAND : Z := 0x08.
Definition XBEE_REMOTE_AT_COMMAND : Z := 0x17.

(** The test of xbee_write_bytes: does this byte need to be escaped? *)
Definition needs_escape (b : Z) : bool :=
  (b =? XBEE_FRAME_DELIM) || (b =? XBEE_FRAME_ESCAPE) ||
  (b =? XBEE_XON) || (b =? XBEE_XOFF).

(** ** Driver state *)

Record xbee_interface_t {U : Type} : Type := mk_xbee {
  uart : U;
  recv_max_size : Z;
  recv : list Z;
  recv_idx : Z;
  recv_size : Z
}.
Arguments xbee_interface_t U : clear implicits.
Arguments mk_xbee {U} _ _ _ _ _.

Definition set_uart {U} (x : xbee_interface_t U) (u : U) : xbee_interface_t U :=
  mk_xbee u (recv_max_size x) (recv x) (recv_idx x) (recv_size x).

(** ** Frame emitter *)

Section Emitter.
Context {U : Type}.
(** xbee->uart->write(ptr, buf, nbyte): the count written and the new
    transport state. *)
Variable uart_write : U -> list Z -> Z * U.

Local Abbreviation xbee_t := (xbee_interface_t U).

(** The macro [write(buf, nbyte)]. *)
Definition write (xbee : xbee_t) (buf : list Z) : Z * xbee_t :=
  let (n, u) := uart_write (uart xbee) buf in (n, set_uart xbee u).

(** The [for] loop of xbee_write_bytes; [n] iterations remain, [i] is the
    loop index and [off] the start of the bytes not yet written.  The
    result is the early return code if any, then the transport, *accum
    and [off]. *)
Fixpoint xbee_write_bytes_loop (n : nat) (i off : Z) (bytes : list Z)
    (xbee : xbee_t) (accum : Z) : option Z * xbee_t * Z * Z :=
  match n with
  | O => (None, xbee, accum, off)
  | S n' =>
    let b := byte_at bytes i in
    let accum := to_uint8 (accum + b) in
    if needs_escape b then
      let to_write := to_size_t (i - off) in
      let (ret, xbee) := write xbee (sub_buf bytes off to_write) in
      if negb (to_size_t ret =? to_write) then (Some (-11), xbee, accum, off)
      else
        let escape_buf := [XBEE_FRAME_ESCAPE; Z.lxor b 0x20] in
        let (ret, xbee) := write xbee escape_buf in
        if negb (to_size_t ret =? 2) then (Some (-12), xbee, accum, off)
        else xbee_write_bytes_loop n' (i + 1) (i + 1) bytes xbee accum
    else xbee_write_bytes_loop n' (i + 1) off bytes xbee accum
  end.

(** xbee_write_bytes(xbee, nbytes, buf, accum): return code, transport
    and the final *accum. *)
Definition xbee_write_bytes (xbee : xbee_t) (buf : list Z) (accum : Z)
    : Z * xbee_t * Z :=
  let nbytes := Z.of_nat (length buf) in
  match xbee_write_bytes_loop (length buf) 0 0 buf xbee accum with
  | (Some ret, xbee, accum, _) => (ret, xbee, accum)
  | (None, xbee, accum, off) =>
    let to_write := to_size_t (nbytes - off) in
    let (ret, xbee) := write xbee (sub_buf buf off to_write) in
    if negb (to_size_t ret =? to_write) then (-13, xbee, accum)
    else (0, xbee, accum)
  end.

(** xbee_start_frame; the argument is converted to uint16_t by the call.
    The third component is the value of *accum.  When the delimiter could
    not be written the C function returns -14 before it stores to *accum;
    the 0 given here stands for a value that no caller reads on that
    path: each returns at once when the result is not 0. *)
Definition xbee_start_frame (xbee : xbee_t) (total_frame_length : Z)
    : Z * xbee_t * Z :=
  let total_frame_length := to_uint16 total_frame_length in
  let (ret, xbee) := write xbee [XBEE_FRAME_DELIM] in
  if negb (ret =? 1) then (-14, xbee, 0)
  else
    let accum := 0 in
    let buf := [to_uint8 (Z.shiftr total_frame_length 8);
                Z.land total_frame_length 0xFF] in
    let '(ret, xbee, _) := xbee_write_bytes xbee buf accum in
    (ret, xbee, 0).

Definition xbee_finish_frame (xbee : xbee_t) (accum : Z) : Z * xbee_t :=
  let dummy := 0 in
  let accum := to_uint8 (0xFF - accum) in
  let '(ret, xbee, _) := xbee_write_bytes xbee [accum] dummy in
  (ret, xbee).

Definition xbee_send_frame (xbee : xbee_t) (frame_data : list Z)
    : Z * xbee_t :=
  let frame_size := Z.of_nat (length frame_data) in
  let '(ret, xbee, accum) := xbee_start_frame xbee frame_size in
  if negb (ret =? 0) then (ret, xbee)
  else
    let '(ret, xbee, accum) := xbee_write_bytes xbee frame_data accum in
    if negb (ret =? 0) then (ret, xbee)
    else xbee_finish_frame xbee accum.

Definition xbee_at_command (xbee : xbee_t) (frame_id : Z)
    (at_command : string) (param : list Z) : Z * xbee_t :=
  let param_size := Z.of_nat (length param) in
  let '(ret, xbee, accum) := xbee_start_frame xbee (to_size_t (4 + param_size)) in
  if negb (ret =? 0) then (ret, xbee)
  else
    let buf := [XBEE_AT_COMMAND; frame_id;
                char_at at_command 0; char_at at_command 1] in
    let '(ret, xbee, accum) := xbee_write_bytes xbee buf accum in
    if negb (ret =? 0) then (ret, xbee)
    else
      let '(ret, xbee, accum) := xbee_write_bytes xbee param accum in
      if negb (ret =? 0) then (ret, xbee)
      else xbee_finish_frame xbee accum.

End Emitter.

(** ** A transport that records the wire

    [tx] is every byte accepted by write, in order; [rx] is the pending
    input; read delivers as much of it as fits. *)
Record wire : Type := mk_wire { tx : list Z; rx : list Z }.

Definition wire_write (w : wire) (buf : list Z) : Z * wire :=
  (Z.of_nat (length buf), mk_wire (tx w ++ buf) (rx w)).

Definition wire_read (w : wire) (nbyte : Z) : Z * list Z * wire :=
  let data := firstn (Z.to_nat nbyte) (rx w) in
  (Z.of_nat (length data), data,
   mk_wire (tx w) (skipn (Z.to_nat nbyte) (rx w))).

Definition idle_wire : wire := mk_wire [] [].

(** A driver whose ring of [cap] bytes is empty, as xbee_open leaves it. *)
Definition xbee_fresh {U} (u : U) (cap : Z) : xbee_interface_t U :=
  mk_xbee u cap (repeat 0 (Z.to_nat cap)) 0 0.

(** The bytes a call put on the wire. *)
Definition emitted (r : Z * xbee_interface_t wire) : list Z := tx (uart (snd r)).

(** ** Receive ring *)

(** A store through the pointer bytes_out + i. *)
Definition mem_write (m : Z -> Z) (i v : Z) : Z -> Z :=
  fun j => if j =? i then v else m j.

(** The first [n] bytes of a memory. *)
Definition mem_read (m : Z -> Z) (n : nat) : list Z :=
  map (fun k => m (Z.of_nat k)) (seq 0 n).

Section Ring.
Context {U : Type}.
Local Abbreviation xbee_t := (xbee_interface_t U).

(** The two ring assertions of xbee_check. *)
Definition xbee_check (xbee : xbee_t) : bool :=
  (recv_idx xbee <? recv_max_size xbee) &&
  (recv_size xbee <=? recv_max_size xbee).

Definition xbee_drop_byte (xbee : xbee_t) : xbee_t :=
  let idx := to_size_t (recv_idx xbee + 1) in
  let idx := if idx >=? recv_max_size xbee then 0 else idx in
  mk_xbee (uart xbee) (recv_max_size xbee) (recv xbee) idx
          (to_size_t (recv_size xbee - 1)).

Definition xbee_get_byte (xbee : xbee_t) (i : Z) : Z :=
  let idx := to_size_t (i + recv_idx xbee) in
  let idx := if idx >=? recv_max_size xbee
             then to_size_t (idx - recv_max_size xbee) else idx in
  byte_at (recv xbee) idx.

(** xbee_get_next_byte(xbee, &idx, &byte_out): the return code, the new
    *idx and the new *byte_out ([byte_out] when nothing was stored). *)
Definition xbee_get_next_byte (xbee : xbee_t) (idx byte_out : Z)
    : Z * Z * Z :=
  if idx >=? recv_size xbee then (XBEE_NOT_ENOUGH_DATA, idx, byte_out)
  else
    let byte_out := xbee_get_byte xbee idx in
    if byte_out =? XBEE_FRAME_DELIM then (XBEE_ERR_FOUND_START, idx, byte_out)
    else if byte_out =? XBEE_FRAME_ESCAPE then
      if to_size_t (idx + 1) >=? recv_size xbee
      then (XBEE_NOT_ENOUGH_DATA, idx, byte_out)
      else
        let byte_out := xbee_get_byte xbee (to_size_t (idx + 1)) in
        if byte_out =? XBEE_FRAME_DELIM
        then (XBEE_ERR_FOUND_START, idx, byte_out)
        else (0, to_size_t (idx + 2), Z.lxor byte_out 0x20)
    else (0, to_size_t (idx + 1), byte_out).

(** The loop of xbee_find_if_have_next_delim, at most [n] iterations. *)
Fixpoint find_delim_loop (n : nat) (i : Z) (xbee : xbee_t) : bool :=
  match n with
  | O => false
  | S n' =>
    if i <? recv_size xbee then
      if xbee_get_byte xbee i =? XBEE_FRAME_DELIM then true
      else find_delim_loop n' (to_size_t (i + 1)) xbee
    else false
  end.

(** The index runs from 1 up to recv_size, so recv_size iterations are
    more than the loop can make. *)
Definition xbee_find_if_have_next_delim (xbee : xbee_t) : bool :=
  find_delim_loop (Z.to_nat (recv_size xbee)) 1 xbee.

(** The inner [for] loop of xbee_decode_frame, [n] iterations left.
    Every [continue] of the body is a continue of this loop.  The first
    component is [Some 0] when the body returned 0. *)
Fixpoint decode_for (n : nat) (i : Z) (xbee : xbee_t) (idx : Z)
    (bytes_out : Z -> Z) (accum : Z)
    : option Z * xbee_t * Z * (Z -> Z) * Z :=
  match n with
  | O => (None, xbee, idx, bytes_out, accum)
  | S n' =>
    let '(ret, idx, b) := xbee_get_next_byte xbee idx (bytes_out i) in
    let bytes_out := mem_write bytes_out i b in
    if ret =? XBEE_NOT_ENOUGH_DATA then
      if recv_size xbee =? recv_max_size xbee then
        decode_for n' (to_size_t (i + 1)) (xbee_drop_byte xbee) idx bytes_out accum
      else if xbee_find_if_have_next_delim xbee then
        decode_for n' (to_size_t (i + 1)) (xbee_drop_byte xbee) idx bytes_out accum
      else (Some 0, xbee, idx, bytes_out, accum)
    else if negb (ret =? 0) then
      decode_for n' (to_size_t (i + 1)) (xbee_drop_byte xbee) idx bytes_out accum
    else
      decode_for n' (to_size_t (i + 1)) xbee idx bytes_out
                 (to_uint8 (accum + bytes_out i))
  end.

(** The [while] loop of xbee_decode_frame; [None] when [fuel] iterations
    were not enough. *)
Fixpoint decode_while (fuel : nat) (xbee : xbee_t) (frame_out_size : Z)
    (bytes_out : Z -> Z) : option (Z * xbee_t * (Z -> Z)) :=
  if recv_size xbee >=? 6 then
    match fuel with
    | O => None
    | S fuel' =>
      if negb (xbee_get_byte xbee 0 =? XBEE_FRAME_DELIM) then
        decode_while fuel' (xbee_drop_byte xbee) frame_out_size bytes_out
      else
        let idx := 1 in
        let '(ret, idx, len1) := xbee_get_next_byte xbee idx 0 in
        if negb (ret =? 0) then
          decode_while fuel' (xbee_drop_byte xbee) frame_out_size bytes_out
        else
        let '(ret, idx, len2) := xbee_get_next_byte xbee idx 0 in
        if negb (ret =? 0) then
          decode_while fuel' (xbee_drop_byte xbee) frame_out_size bytes_out
        else
        let length := to_uint16 (Z.lor (Z.shiftl len1 8) len2) in
        let required_bytes := to_size_t (length + 4) in
        if (required_bytes >? recv_max_size xbee) ||
           (to_size_t (length + 1) >? frame_out_size) then
          decode_while fuel' (xbee_drop_byte xbee) frame_out_size bytes_out
        else
        let '(early, xbee, idx, bytes_out, accum) :=
          decode_for (Z.to_nat (length + 1)) 0 xbee idx bytes_out 0 in
        match early with
        | Some ret => Some (ret, xbee, bytes_out)
        | None =>
          if accum =? 0xFF then
            let ridx := to_size_t (recv_idx xbee + idx) in
            let ridx := if ridx >=? recv_max_size xbee
                        then to_size_t (ridx - recv_max_size xbee) else ridx in
            Some (length,
                  mk_xbee (uart xbee) (recv_max_size xbee) (recv xbee) ridx
                          (to_size_t (recv_size xbee - idx)),
                  bytes_out)
          else
            decode_while fuel' (xbee_drop_byte xbee) frame_out_size bytes_out
        end
    end
  else Some (0, xbee, bytes_out).

(** xbee_decode_frame(xbee, frame_out_size, frame_out): the return value,
    the driver and the output buffer.  Every iteration of the while loop
    that does not return drops a byte, so on a ring that satisfies its
    invariant recv_size iterations suffice and the default is not used
    ([decode_while_inv]). *)
Definition xbee_decode_frame (xbee : xbee_t) (frame_out_size : Z)
    (frame_out : Z -> Z) : Z * xbee_t * (Z -> Z) :=
  match decode_while (Z.to_nat (recv_size xbee)) xbee frame_out_size frame_out with
  | Some r => r
  | None => (0, xbee, frame_out)
  end.

End Ring.

(** ** Byte stuffing as the protocol states it

    A byte of the escape set goes out as 0x7D followed by the byte XOR
    0x20, any other byte goes out as it is. *)
Definition escape_set : list Z := [0x7E; 0x7D; 0x11; 0x13].

Definition stuff_byte (b : Z) : list Z :=
  if in_dec Z.eq_dec b escape_set then [0x7D; Z.lxor b 0x20] else [b].

Definition stuff (l : list Z) : list Z := flat_map stuff_byte l.

(** The checksum of a payload and the frame that carries it. *)
Definition checksum (payload : list Z) : Z := 0xFF - (sum_bytes payload) mod 256.

Definition wire_frame (payload : list Z) : list Z :=
  let len := Z.of_nat (length payload) in
  XBEE_FRAME_DELIM ::
    stuff ([len / 256; len mod 256] ++ payload ++ [checksum payload]).

(** The driver after [bytes] more went out on the recording transport. *)
Definition sent (x : xbee_interface_t wire) (bytes : list Z)
    : xbee_interface_t wire :=
  set_uart x (mk_wire (tx (uart x) ++ bytes) (rx (uart x))).

(** The logical contents of the ring: the byte at every offset below
    recv_size, as xbee_get_byte reads it. *)
Definition ring_bytes {U} (x : xbee_interface_t U) : list Z :=
  map (fun k => xbee_get_byte x (Z.of_nat k)) (seq 0 (Z.to_nat (recv_size x))).

(** ** Filling the ring and receiving *)

(** [data] stored from recv[start] on. *)
Definition store_at (recv : list Z) (start : Z) (data : list Z) : list Z :=
  firstn (Z.to_nat start) recv ++ data
    ++ skipn (Z.to_nat start + length data) recv.

Section Receiver.
Context {U : Type}.
(** xbee->uart->read(ptr, buf, nbyte): the return value, the bytes put
    into buf and the new transport state. *)
Variable uart_read : U -> Z -> Z * list Z * U.

Local Abbreviation xbee_t := (xbee_interface_t U).

(** The macro [read(xbee->recv + read_start, read_len)]; the buffer handed
    out is [read_len] bytes of the ring storage. *)
Definition read (xbee : xbee_t) (read_start read_len : Z) : Z * xbee_t :=
  let '(ret, data, u) := uart_read (uart xbee) read_len in
  let data := firstn (Z.to_nat read_len) data in
  (ret, mk_xbee u (recv_max_size xbee) (store_at (recv xbee) read_start data)
                (recv_idx xbee) (recv_size xbee)).

(** xbee->recv_size += ret *)
Definition grow (xbee : xbee_t) (ret : Z) : xbee_t :=
  mk_xbee (uart xbee) (recv_max_size xbee) (recv xbee) (recv_idx xbee)
          (to_size_t (recv_size xbee + to_size_t ret)).

Definition xbee_fill_buffer (xbee : xbee_t) : Z * xbee_t :=
  let read_start := to_size_t (recv_idx xbee + recv_size xbee) in
  let '(read_start, read_end) :=
    if read_start <? recv_max_size xbee
    then (read_start, recv_max_size xbee)
    else (to_size_t (read_start - recv_max_size xbee), recv_idx xbee) in
  let read_len := to_size_t (read_end - read_start) in
  let '(ret, xbee) := read xbee read_start read_len in
  let xbee := if ret >? 0 then grow xbee ret else xbee in
  if (to_size_t ret =? read_len) && negb (read_end =? recv_idx xbee) &&
     (recv_size xbee <? recv_max_size xbee)
  then
    let rd := to_size_t ret in
    let read_start := 0 in
    let read_end := recv_idx xbee in
    let read_len := to_size_t (read_end - read_start) in
    let '(ret, xbee) := read xbee read_start read_len in
    let '(xbee, rd) :=
      if ret >? 0 then (grow xbee ret, to_size_t (rd + to_size_t ret))
      else (xbee, rd) in
    (to_int rd, xbee)
  else (ret, xbee).

Definition xbee_recv_frame (xbee : xbee_t) (frame_out_size : Z)
    (frame_out : Z -> Z) : Z * xbee_t * (Z -> Z) :=
  let '(ret, xbee, frame_out) :=
    xbee_decode_frame xbee frame_out_size frame_out in
  if ret >? 0 then (ret, xbee, frame_out)
  else
    let '(ret, xbee) := xbee_fill_buffer xbee in
    if ret <? 0 then (ret, xbee, frame_out)
    else xbee_decode_frame xbee frame_out_size frame_out.

End Receiver.



(** ** Remote AT command *)

(** The tagged address of xbee.h, which is not part of the sources: the
    four tags used in xbee.c with the member of the union each one reads. *)
Inductive xbee_address_t : Type :=
| XBEE_64_BIT (address : Z)
| XBEE_16_BIT (network_address : Z)
| XBEE_64_BIT_BROADCAST
| XBEE_16_BIT_BROADCAST.

(** [n] iterations, from index [i] on, of a loop whose body is
    buf[base + i] = f(i). *)
Fixpoint fill_loop (n : nat) (i : nat) (base : nat) (f : Z -> Z) (buf : list Z)
    : list Z :=
  match n with
  | O => buf
  | S n' => fill_loop n' (S i) base f (set_at buf (base + i) (f (Z.of_nat i)))
  end.

Section RemoteAt.
Context {U : Type}.
Variable uart_write : U -> list Z -> Z * U.

(** [buf0] is the content of the automatic array [uint8_t buf[15]] at its
    declaration, which C leaves indeterminate. *)
Definition xbee_remote_at_command (xbee : xbee_interface_t U)
    (buf0 : list Z) (address : xbee_address_t) (options frame_id : Z)
    (at_command : string) (param : list Z) : Z * xbee_interface_t U :=
  let param_size := Z.of_nat (length param) in
  let '(ret, xbee, accum) :=
    xbee_start_frame uart_write xbee (to_size_t (15 + param_size)) in
  if negb (ret =? 0) then (ret, xbee)
  else
    let buf := buf0 in
    let buf := set_at buf 0 XBEE_REMOTE_AT_COMMAND in
    let buf := set_at buf (5 - 4) frame_id in
    let buf :=
      match address with
      | XBEE_64_BIT address =>
        let buf := fill_loop 8 0 (6 - 4)
                     (fun i => Z.land (Z.shiftr address (64 - 8 * (i + 1))) 0xFF)
                     buf in
        let buf := set_at buf (14 - 4) 0xFF in
        set_at buf (15 - 4) 0xFE
      | XBEE_16_BIT network_address =>
        let buf := set_at buf (14 - 4) (to_uint8 (Z.shiftr network_address 8)) in
        set_at buf (15 - 4) (Z.land network_address 0xFF)
      | _ =>
        let buf := fill_loop 6 0 (6 - 4) (fun _ => 0) buf in
        let buf := set_at buf (12 - 4) 0xFF in
        let buf := set_at buf (13 - 4) 0xFF in
        let buf := set_at buf (14 - 4) 0xFF in
        set_at buf (15 - 4) 0xFE
      end in
    let buf := set_at buf (16 - 4) options in
    let buf := set_at buf (17 - 4) (char_at at_command 0) in
    let buf := set_at buf (18 - 4) (char_at at_command 1) in
    let '(ret, xbee, accum) := xbee_write_bytes uart_write xbee buf accum in
    if negb (ret =? 0) then (ret, xbee)
    else
      let '(ret, xbee, accum) := xbee_write_bytes uart_write xbee param accum in
      if negb (ret =? 0) then (ret, xbee)
      else xbee_finish_frame uart_write xbee accum.
End RemoteAt.

(** ** Response parser *)

(** The return value of xbee_parse_frame: 0 or one of the two error codes
    of xbee.h, whose values are not part of the sources. *)
Inductive parse_code : Type :=
| PARSE_OK
| XBEE_WRONG_LENGTH_FOR_API
| XBEE_UNKNOWN_API_ID.

(** frame.at_command_response *)
Record at_command_response_t : Type := mk_atr {
  atr_at_command : list Z;
  atr_status : Z;
  atr_data_size : Z;
  atr_data : list Z;
  atr_responder_address : Z;
  atr_responder_network_address : Z
}.

(** frame.receive *)
Record receive_t : Type := mk_rx {
  rx_responder_address : Z;
  rx_responder_network_address : Z;
  rx_rssi : Z;
  rx_options : Z;
  rx_packet_size : Z;
  rx_packet_data : list Z
}.

(** xbee_parsed_frame_t; the members of the union [frame] are kept apart.
    A data pointer &b[k] with its size is the slice of the payload. *)
Record xbee_parsed_frame_t : Type := mk_parsed {
  api_id : Z;
  frame_id : Z;
  frame_status : Z;
  frame_at_command_response : at_command_response_t;
  frame_receive : receive_t
}.

(** memset(parsed_frame, 0, sizeof( *parsed_frame)) *)
Definition zero_frame : xbee_parsed_frame_t :=
  mk_parsed 0 0 0 (mk_atr [0; 0; 0] 0 0 [] 0 0) (mk_rx 0 0 0 0 0 []).

(** The bytes b[k .. frame_size). *)
Definition slice_from (b : list Z) (k : nat) : list Z := skipn k b.

Section Parser.
(** The response API identifiers of xbee.h; the labels of a C switch are
    pairwise different. *)
Variables XBEE_MODEM_STATUS XBEE_TRANSMIT_STATUS XBEE_AT_RESPONSE
          XBEE_REMOTE_AT_RESPONSE XBEE_RECEIVE XBEE_RECEIVE_16_BIT : Z.

(** The value of the C expression [v << n] for an [int] v (here a promoted
    byte) and a count n; C defines it only for n < 32. *)
Variable shl_int : Z -> Z -> Z.

(** for(i = 0; i < 8; ++i) addr |= b[base+i] << (64-8*(i-1)); the count is
    computed in size_t, so it is 72 for i = 0 and goes down to 16; the int
    that results is converted to uint64_t. *)
Fixpoint addr_loop (n : nat) (i : Z) (base : Z) (b : list Z) (addr : Z) : Z :=
  match n with
  | O => addr
  | S n' =>
    let count := to_size_t (64 - to_size_t (8 * to_size_t (i - 1))) in
    let addr := Z.lor addr (to_uint64 (shl_int (byte_at b (base + i)) count)) in
    addr_loop n' (i + 1) base b addr
  end.

Definition xbee_parse_frame (parsed_frame : xbee_parsed_frame_t)
    (b : list Z) : parse_code * xbee_parsed_frame_t :=
  let frame_size := Z.of_nat (length b) in
  if frame_size <? 2 then (XBEE_WRONG_LENGTH_FOR_API, parsed_frame)
  else
    let pf := mk_parsed (byte_at b 0) 0 0 (frame_at_command_response zero_frame)
                        (frame_receive zero_frame) in
    let atr := frame_at_command_response pf in
    let rx := frame_receive pf in
    if api_id pf =? XBEE_MODEM_STATUS then
      if negb (frame_size =? 2) then (XBEE_WRONG_LENGTH_FOR_API, pf)
      else (PARSE_OK, mk_parsed (api_id pf) (frame_id pf) (byte_at b 1) atr rx)
    else if api_id pf =? XBEE_TRANSMIT_STATUS then
      if negb (frame_size =? 3) then (XBEE_WRONG_LENGTH_FOR_API, pf)
      else (PARSE_OK, mk_parsed (api_id pf) (byte_at b 1) (byte_at b 2) atr rx)
    else if api_id pf =? XBEE_AT_RESPONSE then
      if frame_size <? 5 then (XBEE_WRONG_LENGTH_FOR_API, pf)
      else
        (PARSE_OK,
         mk_parsed (api_id pf) (byte_at b 1) (frame_status pf)
           (mk_atr [byte_at b 2; byte_at b 3; 0] (byte_at b 4)
                   (to_size_t (frame_size - 5)) (slice_from b 5)
                   (atr_responder_address atr)
                   (atr_responder_network_address atr))
           rx)
    else if api_id pf =? XBEE_REMOTE_AT_RESPONSE then
      if frame_size <? 15 then (XBEE_WRONG_LENGTH_FOR_API, pf)
      else
        let addr := addr_loop 8 0 2 b 0 in
        let na := atr_responder_network_address atr in
        let na := to_uint16 (Z.lor na (Z.shiftl (byte_at b 10) 8)) in
        let na := to_uint16 (Z.lor na (byte_at b 11)) in
        (PARSE_OK,
         mk_parsed (api_id pf) (byte_at b 1) (frame_status pf)
           (mk_atr [byte_at b 12; byte_at b 13; 0] (byte_at b 14)
                   (to_size_t (frame_size - 15)) (slice_from b 15) addr na)
           rx)
    else if api_id pf =? XBEE_RECEIVE then
      if frame_size <? 11 then (XBEE_WRONG_LENGTH_FOR_API, pf)
      else
        let addr := addr_loop 8 0 1 b 0 in
        (PARSE_OK,
         mk_parsed (api_id pf) (frame_id pf) (frame_status pf) atr
           (mk_rx addr (rx_responder_network_address rx)
                  (byte_at b 9) (byte_at b 10)
                  (to_size_t (frame_size - 11)) (slice_from b 11)))
    else if api_id pf =? XBEE_RECEIVE_16_BIT then
      if frame_size <? 5 then (XBEE_WRONG_LENGTH_FOR_API, pf)
      else
        let na := to_uint16 (Z.shiftl (byte_at b 1) 8) in
        let na := to_uint16 (byte_at b 2) in
        (PARSE_OK,
         mk_parsed (api_id pf) (frame_id pf) (frame_status pf) atr
           (mk_rx (rx_responder_address rx) na
                  (byte_at b 3) (byte_at b 4)
                  (to_size_t (frame_size - 5)) (slice_from b 5)))
    else (XBEE_UNKNOWN_API_ID, pf).
End Parser.

(** ** The scanner as the specification words it

    Section 4.5, step 5: when the un-escape routine signals a start
    delimiter, or not enough data with a full ring or with a later
    delimiter, one byte is dropped and the scan restarts at step 1. *)
Inductive scan_step : Type := ScanDone | ScanRestart | ScanWait.

Section RestartingScanner.
Context {U : Type}.
Local Abbreviation xbee_t := (xbee_interface_t U).

Fixpoint scan_unescape (n : nat) (i : Z) (xbee : xbee_t) (idx : Z)
    (bytes_out : Z -> Z) (accum : Z) : scan_step * Z * (Z -> Z) * Z :=
  match n with
  | O => (ScanDone, idx, bytes_out, accum)
  | S n' =>
    let '(ret, idx, b) := xbee_get_next_byte xbee idx (bytes_out i) in
    let bytes_out := mem_write bytes_out i b in
    if ret =? XBEE_ERR_FOUND_START then (ScanRestart, idx, bytes_out, accum)
    else if ret =? XBEE_NOT_ENOUGH_DATA then
      if recv_size xbee =? recv_max_size xbee
      then (ScanRestart, idx, bytes_out, accum)
      else if xbee_find_if_have_next_delim xbee
      then (ScanRestart, idx, bytes_out, accum)
      else (ScanWait, idx, bytes_out, accum)
    else scan_unescape n' (i + 1) xbee idx bytes_out
                       (to_uint8 (accum + bytes_out i))
  end.

Fixpoint scan_while (fuel : nat) (xbee : xbee_t) (frame_out_size : Z)
    (bytes_out : Z -> Z) : option (Z * xbee_t * (Z -> Z)) :=
  if recv_size xbee >=? 6 then
    match fuel with
    | O => None
    | S fuel' =>
      let restart := scan_while fuel' (xbee_drop_byte xbee) frame_out_size in
      if negb (xbee_get_byte xbee 0 =? XBEE_FRAME_DELIM) then restart bytes_out
      else
        let '(ret, idx, len1) := xbee_get_next_byte xbee 1 0 in
        if negb (ret =? 0) then restart bytes_out
        else
        let '(ret, idx, len2) := xbee_get_next_byte xbee idx 0 in
        if negb (ret =? 0) then restart bytes_out
        else
        let length := to_uint16 (Z.lor (Z.shiftl len1 8) len2) in
        if (length + 4 >? recv_max_size xbee) || (length + 1 >? frame_out_size)
        then restart bytes_out
        else
          match scan_unescape (Z.to_nat (length + 1)) 0 xbee idx bytes_out 0 with
          | (ScanRestart, _, bytes_out, _) => restart bytes_out
          | (ScanWait, _, bytes_out, _) => Some (0, xbee, bytes_out)
          | (ScanDone, idx, bytes_out, accum) =>
            if accum =? 0xFF then
              let ridx := (recv_idx xbee + idx) mod recv_max_size xbee in
              Some (length,
                    mk_xbee (uart xbee) (recv_max_size xbee) (recv xbee) ridx
                            (recv_size xbee - idx),
                    bytes_out)
            else restart bytes_out
          end
    end
  else Some (0, xbee, bytes_out).

Definition scan_frame (xbee : xbee_t) (frame_out_size : Z)
    (frame_out : Z -> Z) : Z * xbee_t * (Z -> Z) :=
  match scan_while (Z.to_nat (recv_size xbee)) xbee frame_out_size frame_out with
  | Some r => r
  | None => (0, xbee, frame_out)
  end.
End RestartingScanner.

(** ** Observations used in the statements *)

(** The frame xbee_send_frame puts on an idle recording transport. *)
Definition frame_on_wire (payload : list Z) : list Z :=
  emitted (xbee_send_frame wire_write (xbee_fresh idle_wire 0) payload).

(** A fresh driver with a ring of [cap] bytes after one xbee_fill_buffer
    from a transport whose pending input is [bytes]. *)
Definition xbee_filled (cap : Z) (bytes : list Z) : xbee_interface_t wire :=
  snd (xbee_fill_buffer wire_read (xbee_fresh (mk_wire [] bytes) cap)).

(** A driver without transport whose ring storage is [storage]. *)
Definition xbee_ring (storage : list Z) (idx size : Z) : xbee_interface_t unit :=
  mk_xbee tt (Z.of_nat (length storage)) storage idx size.

(** The state left by [k] calls of xbee_drop_byte. *)
Definition dropped {U} (k : nat) (x : xbee_interface_t U) : xbee_interface_t U :=
  Nat.iter k xbee_drop_byte x.

(** Steps 2 and 3 of the scan on the current head of the ring: the length
    field of the frame header there, if there is one. *)
Definition frame_header {U} (x : xbee_interface_t U) : option Z :=
  if negb (xbee_get_byte x 0 =? XBEE_FRAME_DELIM) then None
  else
    let '(ret, idx, len1) := xbee_get_next_byte x 1 0 in
    if negb (ret =? 0) then None
    else
      let '(ret, idx, len2) := xbee_get_next_byte x idx 0 in
      if negb (ret =? 0) then None
      else Some (to_uint16 (Z.lor (Z.shiftl len1 8) len2)).

(** The ring invariant with the fields in the range of size_t. *)
Definition ring_ok {U} (x : xbee_interface_t U) : Prop :=
  0 <= recv_idx x < recv_max_size x /\
  0 <= recv_size x <= recv_max_size x /\
  recv_max_size x <= INT_MAX.

Definition zeros (_ : Z) : Z := 0.


(** The payloads that a case of the switch of xbee_parse_frame rejects for
    their length, given the six response identifiers. *)
Definition wrong_length_for (MODEM_STATUS TRANSMIT_STATUS AT_RESPONSE
    REMOTE_AT_RESPONSE RECEIVE RECEIVE_16_BIT : Z) (b : list Z) : Prop :=
  let n := Z.of_nat (length b) in
  let id := byte_at b 0 in
  n < 2 \/
  (id = MODEM_STATUS /\ n <> 2) \/
  (id = TRANSMIT_STATUS /\ n <> 3) \/
  (id = AT_RESPONSE /\ n < 5) \/
  (id = REMOTE_AT_RESPONSE /\ n < 15) \/
  (id = RECEIVE /\ n < 11) \/
  (id = RECEIVE_16_BIT /\ n < 5).

(** The identifiers of the XBee API for the six responses, to run the parser
    on examples. *)
Definition parse_xbee : xbee_parsed_frame_t -> list Z -> parse_code * xbee_parsed_frame_t :=
  xbee_parse_frame 0x8A 0x89 0x88 0x97 0x80 0x81
                   (fun v n => to_int (Z.shiftl v (Z.land n 31))).




(** ** The other request builders *)

(** Modelled from the spec: the remaining request API identifiers of xbee.h,
    which is not part of the sources; section 4.6 gives queued AT
    parameter = 0x09, transmit 16-bit = 0x01 and transmit 64-bit = 0x00. *)
Definition XBEE_AT_QUEUE_PARAMETER : Z := 0x09.
Definition XBEE_TRANSMIT_16_BIT : Z := 0x01.
Definition XBEE_TRANSMIT : Z := 0x00.

Section Builders.
Context {U : Type}.
Variable uart_write : U -> list Z -> Z * U.

Local Abbreviation xbee_t := (xbee_interface_t U).

Definition xbee_at_queue_parameter (xbee : xbee_t) (frame_id : Z)
    (at_command : string) (param : list Z) : Z * xbee_t :=
  let param_size := Z.of_nat (length param) in
  let '(ret, xbee, accum) :=
    xbee_start_frame uart_write xbee (to_size_t (4 + param_size)) in
  if negb (ret =? 0) then (ret, xbee)
  else
    let buf := [XBEE_AT_QUEUE_PARAMETER; frame_id;
                char_at at_command 0; char_at at_command 1] in
    let '(ret, xbee, accum) := xbee_write_bytes uart_write xbee buf accum in
    if negb (ret =? 0) then (ret, xbee)
    else
      let '(ret, xbee, accum) := xbee_write_bytes uart_write xbee param accum in
      if negb (ret =? 0) then (ret, xbee)
      else xbee_finish_frame uart_write xbee accum.

(** The tail of xbee_transmit, after the header went out. *)
Definition transmit_data (r : Z * xbee_t * Z) (data : list Z) : Z * xbee_t :=
  let '(ret, xbee, accum) := r in
  if negb (ret =? 0) then (ret, xbee)
  else
    let '(ret, xbee, accum) := xbee_write_bytes uart_write xbee data accum in
    if negb (ret =? 0) then (ret, xbee)
    else xbee_finish_frame uart_write xbee accum.

(** The two header writes of a branch of xbee_transmit: xbee_start_frame
    with sizeof(buf) + data_size, then the header itself. *)
Definition transmit_header (xbee : xbee_t) (buf : list Z) (data_size : Z)
    : Z * xbee_t * Z :=
  let '(ret, xbee, accum) :=
    xbee_start_frame uart_write xbee
                     (to_size_t (Z.of_nat (length buf) + data_size)) in
  if negb (ret =? 0) then (ret, xbee, accum)
  else xbee_write_bytes uart_write xbee buf accum.

(** xbee_transmit; [buf5] and [buf11] are the contents of the two automatic
    header arrays at their declaration, which C leaves indeterminate. *)
Definition xbee_transmit (xbee : xbee_t) (buf5 buf11 : list Z) (frame_id : Z)
    (address : xbee_address_t) (option : Z) (data : list Z) : Z * xbee_t :=
  let data_size := Z.of_nat (length data) in
  match address with
  | XBEE_16_BIT _ | XBEE_16_BIT_BROADCAST =>
    let buf := buf5 in
    let buf := set_at buf 0 XBEE_TRANSMIT_16_BIT in
    let buf := set_at buf 1 frame_id in
    let buf :=
      match address with
      | XBEE_16_BIT network_address =>
        let buf := set_at buf 2 (to_uint8 (Z.shiftr network_address 8)) in
        set_at buf 3 (Z.land network_address 0xFF)
      | _ =>
        let buf := set_at buf 2 0xFF in
        set_at buf 3 0xFF
      end in
    let buf := set_at buf 4 option in
    transmit_data (transmit_header xbee buf data_size) data
  | XBEE_64_BIT _ | XBEE_64_BIT_BROADCAST =>
    let buf := buf11 in
    let buf := set_at buf 0 XBEE_TRANSMIT in
    let buf := set_at buf 1 frame_id in
    let buf :=
      match address with
      | XBEE_64_BIT address =>
        fill_loop 8 0 2
          (fun i => Z.land (Z.shiftr address (64 - 8 * (i + 1))) 0xFF) buf
      | _ =>
        let buf := fill_loop 6 0 2 (fun _ => 0) buf in
        let buf := set_at buf 8 0xFF in
        set_at buf 9 0xFF
      end in
    let buf := set_at buf 10 option in
    transmit_data (transmit_header xbee buf data_size) data
  end.
End Builders.

(** A transport that records, in order, every buffer handed to its write
    function, whatever count the function then reports. *)
Definition logged_write {U} (wr : U -> list Z -> Z * U)
    (c : U * list Z) (buf : list Z) : Z * (U * list Z) :=
  let (n, u) := wr (fst c) buf in (n, (u, snd c ++ buf)).

Definition handed {U} (x : xbee_interface_t (U * list Z)) : list Z :=
  snd (uart x).

(** The big-endian value of a byte string. *)
Definition be_value (bytes : list Z) : Z :=
  fold_left (fun acc b => acc * 256 + b) bytes 0.

(** The ring after [k] bytes were taken from its front, as xbee_decode_frame
    leaves it when it returns a frame. *)
Definition consumed {U} (x : xbee_interface_t U) (k : Z) : xbee_interface_t U :=
  let ridx := to_size_t (recv_idx x + k) in
  let ridx := if ridx >=? recv_max_size x
              then to_size_t (ridx - recv_max_size x) else ridx in
  mk_xbee (uart x) (recv_max_size x) (recv x) ridx (to_size_t (recv_size x - k)).

(** The eight bytes that the 64-bit branches store for an address, in the
    order of the loop. *)
Definition addr64_bytes (address : Z) : list Z :=
  map (fun i => Z.land (Z.shiftr address (64 - 8 * (i + 1))) 0xFF)
      [0; 1; 2; 3; 4; 5; 6; 7].

(** The span of the first read of xbee_fill_buffer and the three
    assertions the function makes on it before it reads. *)
Definition fill_first_span {U} (xbee : xbee_interface_t U) : Z * Z :=
  let read_start := to_size_t (recv_idx xbee + recv_size xbee) in
  if read_start <? recv_max_size xbee
  then (read_start, recv_max_size xbee)
  else (to_size_t (read_start - recv_max_size xbee), recv_idx xbee).

Definition fill_first_asserts {U} (xbee : xbee_interface_t U) : bool :=
  let '(read_start, read_end) := fill_first_span xbee in
  let a1 := (read_start >=? 0) && (read_start <? recv_max_size xbee) in
  let a2 := (read_end >? read_start) && (read_end <=? recv_max_size xbee) in
  let read_len := to_size_t (read_end - read_start) in
  let a3 := to_size_t (read_start + read_len) <=? recv_max_size xbee in
  a1 && a2 && a3.

(** ** Opening the driver: xbee_open and xbee_init *)

(** The bytes of a C string literal, without its terminator. *)
Definition bytes_of (s : string) : list Z :=
  map (fun c => Z.of_nat (nat_of_ascii c)) (list_ascii_of_string s).

Definition CR : Z := 0x0D.

(** "OK\r" *)
Definition ok_cr : list Z := bytes_of "OK" ++ [CR].

(** char api_seq[] = "ATAP 2\rATD7 1\rATD6 1\rATCN\r", without the
    terminator, which is not written. *)
Definition api_seq : list Z :=
  bytes_of "ATAP 2" ++ [CR] ++ bytes_of "ATD7 1" ++ [CR]
    ++ bytes_of "ATD6 1" ++ [CR] ++ bytes_of "ATCN" ++ [CR].

(** char expected_return[][5] *)
Definition expected_return : list (list Z) :=
  [1 :: bytes_of "AP" ++ [2]; 2 :: bytes_of "D7" ++ [1];
   3 :: bytes_of "D6" ++ [1]].

(** memcmp("OK\r", buf, 3) == 0 *)
Definition is_ok_cr (buf : list Z) : bool :=
  (byte_at buf 0 =? byte_at ok_cr 0) && (byte_at buf 1 =? byte_at ok_cr 1)
  && (byte_at buf 2 =? byte_at ok_cr 2).

Section Init.
Context {U : Type}.
Variable uart_write : U -> list Z -> Z * U.
Variable uart_read : U -> Z -> Z * list Z * U.
(** xbee->uart->sleep(t): time passes for the transport. *)
Variable uart_sleep : U -> Z -> U.
(** XBEE_GUARD_TIME and the response identifiers are those of xbee.h, which
    is not part of the sources. *)
Variable XBEE_GUARD_TIME : Z.
Variables XBEE_MODEM_STATUS XBEE_TRANSMIT_STATUS XBEE_AT_RESPONSE
          XBEE_REMOTE_AT_RESPONSE XBEE_RECEIVE XBEE_RECEIVE_16_BIT : Z.
Variable shl_int : Z -> Z -> Z.

Local Abbreviation xbee_t := (xbee_interface_t U).

Definition sleep (xbee : xbee_t) (t : Z) : xbee_t :=
  set_uart xbee (uart_sleep (uart xbee) t).

(** [read(buf, nbyte)] into a local array that holds [buf]. *)
Definition read_into (xbee : xbee_t) (buf : list Z) (nbyte : Z)
    : Z * list Z * xbee_t :=
  let '(ret, data, u) := uart_read (uart xbee) nbyte in
  (ret, store_at buf 0 (firstn (Z.to_nat nbyte) data), set_uart xbee u).

(** while(read(&c, 1) > 0) {}; [None] when [fuel] reads were all
    positive. *)
Fixpoint drain_loop (fuel : nat) (xbee : xbee_t) (c : list Z)
    : option xbee_t :=
  match fuel with
  | O => None
  | S fuel' =>
    let '(ret, c, xbee) := read_into xbee c 1 in
    if ret >? 0 then drain_loop fuel' xbee c else Some xbee
  end.

(** for(i = 0; i < 3; ++i) { ret = write(&c, 1); if(ret != 1) return -1; }
    with [n] iterations left; the result is the early return code. *)
Fixpoint plus_loop (n : nat) (xbee : xbee_t) : option Z * xbee_t :=
  match n with
  | O => (None, xbee)
  | S n' =>
    let (ret, xbee) := write uart_write xbee (bytes_of "+") in
    if negb (ret =? 1) then (Some (-1), xbee) else plus_loop n' xbee
  end.

(** The loop that reads the four "OK\r" answers. *)
Fixpoint ok_loop (n : nat) (xbee : xbee_t) (check : list Z)
    : option Z * xbee_t :=
  match n with
  | O => (None, xbee)
  | S n' =>
    let '(ret, check, xbee) := read_into xbee check 3 in
    if negb (to_size_t ret =? 3) then (Some (-4), xbee)
    else if negb (is_ok_cr check) then (Some (-5), xbee)
    else ok_loop n' xbee check
  end.

(** The loop that receives and checks the three AT responses; [frame] is
    the local array [uint8_t frame[9]] and [f0] what the local
    [xbee_parsed_frame_t f] holds at its declaration. *)
Fixpoint verify_loop (expected : list (list Z)) (xbee : xbee_t)
    (frame : Z -> Z) (f0 : xbee_parsed_frame_t) : Z * xbee_t :=
  match expected with
  | [] => (0, xbee)
  | e :: expected' =>
    let '(ret, xbee, frame) := xbee_recv_frame uart_read xbee 9 frame in
    if ret <? 1 then (-6, xbee)
    else
      let '(code, f) :=
        xbee_parse_frame XBEE_MODEM_STATUS XBEE_TRANSMIT_STATUS XBEE_AT_RESPONSE
          XBEE_REMOTE_AT_RESPONSE XBEE_RECEIVE XBEE_RECEIVE_16_BIT shl_int
          f0 (mem_read frame (Z.to_nat ret)) in
      match code with
      | PARSE_OK =>
        let r := frame_at_command_response f in
        if negb (api_id f =? XBEE_AT_RESPONSE) then (-8, xbee)
        else if negb (frame_id f =? byte_at e 0)
                || negb (byte_at (atr_at_command r) 0 =? byte_at e 1)
                || negb (byte_at (atr_at_command r) 1 =? byte_at e 2)
        then (-9, xbee)
        else if negb (atr_data_size r =? 1) then (-10, xbee)
        else if negb (byte_at (atr_data r) 0 =? byte_at e 3) then (-10, xbee)
        else verify_loop expected' xbee frame f0
      | _ => (-7, xbee)
      end
  end.

(** xbee_init; [c], [buf], [check], [frame] and [f0] are the contents of
    its automatic variables at their declarations, [fuel] bounds the
    number of reads of the drain loop. *)
Definition xbee_init (fuel : nat) (xbee : xbee_t) (c buf check : list Z)
    (frame : Z -> Z) (f0 : xbee_parsed_frame_t) : option (Z * xbee_t) :=
  match drain_loop fuel xbee c with
  | None => None
  | Some xbee =>
    Some
      (let xbee := sleep xbee XBEE_GUARD_TIME in
       let (early, xbee) := plus_loop 3 xbee in
       match early with
       | Some ret => (ret, xbee)
       | None =>
         let xbee := sleep xbee XBEE_GUARD_TIME in
         let '(ret, buf, xbee) := read_into xbee buf 3 in
         if negb (to_size_t ret =? 3) || negb (is_ok_cr buf) then (-2, xbee)
         else
           let (ret, xbee) := write uart_write xbee api_seq in
           if negb (to_size_t ret =? 26) then (-3, xbee)
           else
             let (ret, xbee) :=
               xbee_at_command uart_write xbee 1 "AP" [] in
             if negb (ret =? 0) then (ret, xbee)
             else
               let (ret, xbee) :=
                 xbee_at_command uart_write xbee 2 "D7" [] in
               if negb (ret =? 0) then (ret, xbee)
               else
                 let (ret, xbee) :=
                   xbee_at_command uart_write xbee 3 "D6" [] in
                 if negb (ret =? 0) then (ret, xbee)
                 else
                   let xbee := sleep xbee 1 in
                   let (early, xbee) := ok_loop 4 xbee check in
                   match early with
                   | Some ret => (ret, xbee)
                   | None => verify_loop expected_return xbee frame f0
                   end
       end)
  end.

(** xbee_open: the driver is reset around the caller's buffer, then
    initialised. *)
Definition xbee_open (fuel : nat) (uart : U) (recv_buffer_size : Z)
    (recv_buffer c buf check : list Z) (frame : Z -> Z)
    (f0 : xbee_parsed_frame_t) : option (Z * xbee_t) :=
  xbee_init fuel (mk_xbee uart recv_buffer_size recv_buffer 0 0)
            c buf check frame f0.

End Init.

(** A modem at the other end of the recording transport: while the host
    sleeps it answers what it has been sent so far. *)
Definition modem_sleep (respond : list Z -> list Z) (w : wire) (t : Z) : wire :=
  mk_wire (tx w) (rx w ++ respond (tx w)).

(** Reads and sleeps of a transport whose writes are logged. *)
Definition logged_read {U} (rd : U -> Z -> Z * list Z * U)
    (c : U * list Z) (nbyte : Z) : Z * list Z * (U * list Z) :=
  let '(ret, data, u) := rd (fst c) nbyte in (ret, data, (u, snd c)).

Definition logged_sleep {U} (sl : U -> Z -> U) (c : U * list Z) (t : Z)
    : U * list Z :=
  (sl (fst c) t, snd c).

(** Everything xbee_init writes when nothing goes wrong. *)
Definition init_script : list Z :=
  bytes_of "+++" ++ api_seq
    ++ wire_frame (XBEE_AT_COMMAND :: 1 :: bytes_of "AP")
    ++ wire_frame (XBEE_AT_COMMAND :: 2 :: bytes_of "D7")
    ++ wire_frame (XBEE_AT_COMMAND :: 3 :: bytes_of "D6").

(** A modem that conforms to what xbee_init expects, for the response
    identifier [at_response]: silent until it has received "+++", then
    "OK\r"; after the whole handshake four times "OK\r" and the three
    AT responses with status 0. *)
Definition conforming_modem (at_response : Z) (received : list Z) : list Z :=
  if list_eq_dec Z.eq_dec received (bytes_of "+++") then ok_cr
  else if list_eq_dec Z.eq_dec received init_script then
    ok_cr ++ ok_cr ++ ok_cr ++ ok_cr
      ++ wire_frame (at_response :: 1 :: bytes_of "AP" ++ [0; 2])
      ++ wire_frame (at_response :: 2 :: bytes_of "D7" ++ [0; 1])
      ++ wire_frame (at_response :: 3 :: bytes_of "D6" ++ [0; 1])
  else [].
(** * Properties of the emitter *)

Lemma needs_escape_spec b :
  needs_escape b = if in_dec Z.eq_dec b escape_set then true else false.
Proof.
  unfold needs_escape, escape_set, XBEE_FRAME_DELIM, XBEE_FRAME_ESCAPE,
    XBEE_XON, XBEE_XOFF.
  destruct (in_dec Z.eq_dec b [126; 125; 17; 19]) as [Hin | Hout].
  - simpl in Hin. destruct Hin as [<- | [<- | [<- | [<- | []]]]]; reflexivity.
  - repeat (apply orb_false_intro); apply Z.eqb_neq; intros ->;
      apply Hout; simpl; tauto.
Qed.

Lemma stuff_byte_escape b :
  needs_escape b = true -> stuff_byte b = [XBEE_FRAME_ESCAPE; Z.lxor b 0x20].
Proof.
  rewrite needs_escape_spec. unfold stuff_byte.
  destruct (in_dec Z.eq_dec b escape_set); [reflexivity | discriminate].
Qed.

Lemma stuff_byte_plain b : needs_escape b = false -> stuff_byte b = [b].
Proof.
  rewrite needs_escape_spec. unfold stuff_byte.
  destruct (in_dec Z.eq_dec b escape_set); [discriminate | reflexivity].
Qed.

Lemma stuff_app l1 l2 : stuff (l1 ++ l2) = stuff l1 ++ stuff l2.
Proof. apply flat_map_app. Qed.

Lemma to_size_t_small z : 0 <= z < SIZE_MOD -> to_size_t z = z.
Proof. intros H. unfold to_size_t. apply Z.mod_small. exact H. Qed.

Lemma to_uint8_add_l a b : to_uint8 (to_uint8 a + b) = to_uint8 (a + b).
Proof. unfold to_uint8. apply Zplus_mod_idemp_l. Qed.

Lemma to_uint8_range z : 0 <= to_uint8 z < 256.
Proof. unfold to_uint8. apply Z.mod_pos_bound. lia. Qed.

Lemma sum_bytes_app l1 l2 : sum_bytes (l1 ++ l2) = sum_bytes l1 + sum_bytes l2.
Proof.
  unfold sum_bytes. induction l1 as [| a l1 IH]; simpl; [reflexivity | lia].
Qed.

(** buf[i] is the head of what follows offset i. *)
Lemma skipn_byte_at (buf : list Z) (i : nat) :
  (i < length buf)%nat ->
  skipn i buf = byte_at buf (Z.of_nat i) :: skipn (S i) buf.
Proof.
  unfold byte_at. rewrite Nat2Z.id. revert i.
  induction buf as [| a buf IH]; intros [| i] Hi; simpl in *; try lia.
  - reflexivity.
  - apply IH. lia.
Qed.

(** The bytes from [off] on are the run up to [i] and the rest. *)
Lemma skipn_run (buf : list Z) (off i : nat) :
  (off <= i <= length buf)%nat ->
  skipn off buf = firstn (i - off) (skipn off buf) ++ skipn i buf.
Proof.
  intros H. rewrite <- (firstn_skipn (i - off) (skipn off buf)) at 1.
  f_equal. rewrite skipn_skipn. f_equal. lia.
Qed.

Lemma stuff_plain_run (l : list Z) :
  Forall (fun b => needs_escape b = false) l -> stuff l = l.
Proof.
  induction 1 as [| b l Hb _ IH]; [reflexivity |].
  unfold stuff in *. simpl. rewrite (stuff_byte_plain b Hb), IH. reflexivity.
Qed.

Section WireEmitter.
Local Abbreviation xw := (xbee_interface_t wire).

Lemma write_wire (x : xw) buf :
  write wire_write x buf = (Z.of_nat (length buf), sent x buf).
Proof. reflexivity. Qed.

Lemma sent_sent (x : xw) a b : sent (sent x a) b = sent x (a ++ b).
Proof. unfold sent, set_uart. simpl. rewrite app_assoc. reflexivity. Qed.

Lemma sent_nil (x : xw) : sent x [] = x.
Proof. destruct x as [[t r] m rv ri rs]. unfold sent, set_uart. simpl.
  rewrite app_nil_r. reflexivity. Qed.

(** Loop invariant of xbee_write_bytes on the recording transport: the
    pending run [off, i) holds no byte to escape; when the loop ends the
    wire plus the run still pending is the stuffed buffer. *)
Lemma xbee_write_bytes_loop_wire (bytes : list Z) :
  Z.of_nat (length bytes) < SIZE_MOD ->
  forall (n i off : nat) (x : xw) (accum : Z),
    0 <= accum < 256 ->
    (off <= i)%nat -> (i + n = length bytes)%nat ->
    Forall (fun b => needs_escape b = false)
           (firstn (i - off) (skipn off bytes)) ->
    exists (off' : nat) (pre : list Z),
      xbee_write_bytes_loop wire_write n (Z.of_nat i) (Z.of_nat off) bytes x accum
      = (None, sent x pre,
         to_uint8 (accum + sum_bytes (skipn i bytes)), Z.of_nat off')
      /\ (off' <= length bytes)%nat
      /\ pre ++ skipn off' bytes = stuff (skipn off bytes).
Proof.
  intros Hlen n. induction n as [| n IH]; intros i off x accum Hacc Hoi Hin Hrun.
  - exists off, []. simpl. rewrite sent_nil.
    assert (i = length bytes) by lia. subst i.
    rewrite skipn_all. simpl. rewrite Z.add_0_r.
    unfold to_uint8. rewrite Z.mod_small by lia.
    split; [reflexivity | split; [lia |]].
    rewrite firstn_all2 in Hrun by (rewrite length_skipn; lia).
    symmetry. apply stuff_plain_run, Hrun.
  - assert (Hi : (i < length bytes)%nat) by lia.
    pose proof (skipn_byte_at bytes i Hi) as Hsk.
    pose proof (skipn_run bytes off i ltac:(lia)) as Hsplit.
    cbn [xbee_write_bytes_loop].
    set (b := byte_at bytes (Z.of_nat i)) in *.
    replace (Z.of_nat i + 1) with (Z.of_nat (S i)) by lia.
    assert (Hsum : to_uint8 (to_uint8 (accum + b) + sum_bytes (skipn (S i) bytes))
                   = to_uint8 (accum + sum_bytes (skipn i bytes))).
    { rewrite to_uint8_add_l, Hsk. f_equal. unfold sum_bytes. simpl. lia. }
    destruct (needs_escape b) eqn:Hb.
    + rewrite to_size_t_small by lia.
      rewrite write_wire.
      unfold sub_buf. rewrite !Nat2Z.id.
      replace (Z.to_nat (Z.of_nat i - Z.of_nat off)) with (i - off)%nat by lia.
      set (run := firstn (i - off) (skipn off bytes)) in *.
      assert (Hrl : length run = (i - off)%nat).
      { unfold run. rewrite length_firstn, length_skipn. lia. }
      rewrite Hrl, to_size_t_small by lia.
      replace (Z.of_nat (i - off) =? Z.of_nat i - Z.of_nat off) with true
        by (symmetry; apply Z.eqb_eq; lia).
      cbn [negb]. rewrite write_wire. cbn [length negb].
      change (to_size_t (Z.of_nat 2) =? 2) with true. cbn [negb].
      destruct (IH (S i) (S i) (sent (sent x run) [XBEE_FRAME_ESCAPE; Z.lxor b 32])
                   (to_uint8 (accum + b)) (to_uint8_range _) ltac:(lia) ltac:(lia))
        as (off' & pre & Heq & Hoff & Hpre).
      { rewrite Nat.sub_diag. constructor. }
      exists off', (run ++ [XBEE_FRAME_ESCAPE; Z.lxor b 32] ++ pre).
      rewrite Heq, Hsum, !sent_sent, <- !app_assoc.
      split; [reflexivity | split; [exact Hoff |]].
      rewrite Hsplit, stuff_app, (stuff_plain_run run Hrun), Hsk.
      f_equal.
      change (stuff (b :: skipn (S i) bytes))
        with (stuff_byte b ++ stuff (skipn (S i) bytes)).
      rewrite (stuff_byte_escape b Hb), <- Hpre. reflexivity.
    + destruct (IH (S i) off x (to_uint8 (accum + b)) (to_uint8_range _)
                   ltac:(lia) ltac:(lia)) as (off' & pre & Heq & Hoff & Hpre).
      { assert (Hrl : length (firstn (i - off) (skipn off bytes)) = (i - off)%nat).
        { rewrite length_firstn, length_skipn. lia. }
        rewrite Hsplit at 1. rewrite Hsk, firstn_app, Hrl.
        rewrite firstn_firstn.
        replace (Nat.min (S i - off) (i - off)) with (i - off)%nat by lia.
        replace (S i - off - (i - off))%nat with 1%nat by lia.
        apply Forall_app. split; [exact Hrun |].
        constructor; [exact Hb | constructor]. }
      exists off', pre. rewrite Heq, Hsum. auto.
Qed.

(** xbee_write_bytes on the recording transport: it succeeds, puts the
    stuffed buffer on the wire and folds every byte into the accumulator. *)
Lemma xbee_write_bytes_wire (x : xw) (buf : list Z) (accum : Z) :
  Z.of_nat (length buf) < SIZE_MOD -> 0 <= accum < 256 ->
  xbee_write_bytes wire_write x buf accum
  = (0, sent x (stuff buf), to_uint8 (accum + sum_bytes buf)).
Proof.
  intros Hlen Hacc. unfold xbee_write_bytes.
  destruct (xbee_write_bytes_loop_wire buf Hlen (length buf) 0 0 x accum Hacc)
    as (off' & pre & Heq & Hoff & Hpre); try reflexivity; [constructor |].
  change (Z.of_nat 0) with 0 in Heq. rewrite Heq. simpl skipn in *.
  rewrite to_size_t_small by lia. rewrite write_wire.
  unfold sub_buf. rewrite Nat2Z.id.
  replace (Z.to_nat (Z.of_nat (length buf) - Z.of_nat off'))
    with (length buf - off')%nat by lia.
  rewrite firstn_all2 by (rewrite length_skipn; lia).
  rewrite length_skipn, to_size_t_small by lia.
  replace (Z.of_nat (length buf - off') =? Z.of_nat (length buf) - Z.of_nat off')
    with true by (symmetry; apply Z.eqb_eq; lia).
  cbn [negb]. rewrite sent_sent, Hpre. reflexivity.
Qed.


Lemma length_bytes_split len :
  0 <= len <= 65535 ->
  to_uint8 (Z.shiftr (to_uint16 len) 8) = len / 256 /\
  Z.land (to_uint16 len) 0xFF = len mod 256.
Proof.
  intros H. unfold to_uint16, to_uint8. rewrite (Z.mod_small len) by lia.
  rewrite Z.shiftr_div_pow2 by lia. change (2 ^ 8) with 256.
  split.
  - apply Z.mod_small. split; [apply Z.div_pos; lia |].
    apply Z.div_lt_upper_bound; lia.
  - change 255 with (Z.ones 8). rewrite Z.land_ones by lia. reflexivity.
Qed.

Lemma xbee_start_frame_wire (x : xw) (len : Z) :
  0 <= len <= 65535 ->
  xbee_start_frame wire_write x len
  = (0, sent x (XBEE_FRAME_DELIM :: stuff [len / 256; len mod 256]), 0).
Proof.
  intros H. unfold xbee_start_frame.
  destruct (length_bytes_split len H) as [-> ->].
  rewrite write_wire. cbn [length negb Z.of_nat Pos.of_succ_nat Z.eqb Pos.eqb].
  rewrite xbee_write_bytes_wire by (cbn; unfold SIZE_MOD; lia).
  rewrite sent_sent. reflexivity.
Qed.

Lemma xbee_finish_frame_wire (x : xw) (accum : Z) :
  xbee_finish_frame wire_write x accum
  = (0, sent x (stuff [to_uint8 (0xFF - accum)])).
Proof.
  unfold xbee_finish_frame.
  rewrite xbee_write_bytes_wire by (cbn; unfold SIZE_MOD; lia). reflexivity.
Qed.

Lemma checksum_code (payload : list Z) :
  to_uint8 (0xFF - to_uint8 (0 + sum_bytes payload)) = checksum payload.
Proof.
  unfold checksum. rewrite Z.add_0_l.
  pose proof (to_uint8_range (sum_bytes payload)) as Hr.
  unfold to_uint8 in *. apply Z.mod_small. lia.
Qed.

(** xbee_send_frame on the recording transport puts exactly the frame of
    the payload on the wire. *)
Lemma xbee_send_frame_wire (x : xw) (payload : list Z) :
  Z.of_nat (length payload) <= 65535 ->
  xbee_send_frame wire_write x payload = (0, sent x (wire_frame payload)).
Proof.
  intros H. unfold xbee_send_frame.
  rewrite xbee_start_frame_wire by lia. cbn [Z.eqb negb].
  rewrite xbee_write_bytes_wire by (unfold SIZE_MOD; lia). cbn [Z.eqb negb].
  rewrite xbee_finish_frame_wire, checksum_code, !sent_sent.
  unfold wire_frame. rewrite !stuff_app. reflexivity.
Qed.

Lemma xbee_at_command_wire (x : xw) frame_id cmd (param : list Z) :
  4 + Z.of_nat (length param) <= 65535 ->
  xbee_at_command wire_write x frame_id cmd param
  = (0, sent x (wire_frame ([XBEE_AT_COMMAND; frame_id;
                             char_at cmd 0; char_at cmd 1] ++ param))).
Proof.
  intros H. unfold xbee_at_command.
  rewrite (to_size_t_small (4 + _)) by (unfold SIZE_MOD; lia).
  rewrite xbee_start_frame_wire by lia. cbn [Z.eqb negb].
  rewrite xbee_write_bytes_wire by (cbn; unfold SIZE_MOD; lia). cbn [Z.eqb negb].
  rewrite xbee_write_bytes_wire by (unfold SIZE_MOD; try apply to_uint8_range; lia).
  cbn [Z.eqb negb].
  rewrite to_uint8_add_l, <- Z.add_assoc, <- sum_bytes_app.
  rewrite xbee_finish_frame_wire, checksum_code, !sent_sent.
  unfold wire_frame. rewrite !stuff_app, length_app.
  replace (Z.of_nat (length [XBEE_AT_COMMAND; frame_id; char_at cmd 0; char_at cmd 1]
                     + length param)) with (4 + Z.of_nat (length param))
    by (cbn [length]; lia).
  rewrite <- !app_assoc. reflexivity.
Qed.
End WireEmitter.

(** * Properties of the scanner *)

Lemma geb_false a b : a < b -> (a >=? b) = false.
Proof. intros H. rewrite Z.geb_leb. apply Z.leb_gt. exact H. Qed.

Lemma geb_true a b : b <= a -> (a >=? b) = true.
Proof. intros H. rewrite Z.geb_leb. apply Z.leb_le. exact H. Qed.

Lemma gtb_false a b : a <= b -> (a >? b) = false.
Proof. intros H. rewrite Z.gtb_ltb. apply Z.ltb_ge. exact H. Qed.

Lemma ring_bytes_length {U} (x : xbee_interface_t U) :
  length (ring_bytes x) = Z.to_nat (recv_size x).
Proof. unfold ring_bytes. rewrite length_map, length_seq. reflexivity. Qed.

Lemma ring_bytes_nth {U} (x : xbee_interface_t U) (k : nat) :
  (k < Z.to_nat (recv_size x))%nat ->
  xbee_get_byte x (Z.of_nat k) = nth k (ring_bytes x) 0.
Proof.
  intros Hk. unfold ring_bytes.
  rewrite (nth_indep _ 0 ((fun k => xbee_get_byte x (Z.of_nat k)) O))
    by (rewrite length_map, length_seq; exact Hk).
  rewrite (map_nth (fun k => xbee_get_byte x (Z.of_nat k))), seq_nth by exact Hk.
  reflexivity.
Qed.

(** Reading past a known prefix of the ring. *)
Lemma ring_bytes_at {U} (x : xbee_interface_t U) (pre post : list Z) (b : Z) :
  ring_bytes x = pre ++ b :: post ->
  xbee_get_byte x (Z.of_nat (length pre)) = b.
Proof.
  intros H. rewrite ring_bytes_nth.
  - rewrite H, app_nth2, Nat.sub_diag by lia. reflexivity.
  - rewrite <- ring_bytes_length, H, length_app. simpl. lia.
Qed.

Lemma ring_bytes_size {U} (x : xbee_interface_t U) (l : list Z) :
  0 <= recv_size x -> ring_bytes x = l -> recv_size x = Z.of_nat (length l).
Proof. intros H0 <-. rewrite ring_bytes_length. lia. Qed.

Lemma lxor_escape_involutive b :
  In b escape_set ->
  Z.lxor b 0x20 <> XBEE_FRAME_DELIM /\ Z.lxor (Z.lxor b 0x20) 0x20 = b.
Proof.
  unfold escape_set. simpl.
  intros [<- | [<- | [<- | [<- | []]]]]; split; (discriminate || reflexivity).
Qed.

(** Un-escaping one stuffed byte: xbee_get_next_byte succeeds, yields the
    original byte and steps over its encoding. *)
Lemma xbee_get_next_byte_stuffed {U} (x : xbee_interface_t U)
    (pre post : list Z) (b old : Z) :
  0 <= recv_size x < SIZE_MOD ->
  ring_bytes x = pre ++ stuff_byte b ++ post ->
  xbee_get_next_byte x (Z.of_nat (length pre)) old
  = (0, Z.of_nat (length (pre ++ stuff_byte b)), b).
Proof.
  intros Hsz Hring.
  pose proof (ring_bytes_size x _ (proj1 Hsz) Hring) as Hlen.
  rewrite !length_app in Hlen. rewrite length_app.
  unfold xbee_get_next_byte, stuff_byte in *.
  destruct (in_dec Z.eq_dec b escape_set) as [Hin | Hout].
  - cbn [app length] in *.
    replace (Z.of_nat (length pre) >=? recv_size x) with false
      by (symmetry; apply geb_false; lia).
    rewrite (ring_bytes_at x pre _ _ Hring).
    change (XBEE_FRAME_ESCAPE =? XBEE_FRAME_DELIM) with false.
    unfold XBEE_FRAME_ESCAPE at 1. rewrite Z.eqb_refl.
    rewrite (to_size_t_small (_ + 1)), (to_size_t_small (_ + 2)) by lia.
    replace (Z.of_nat (length pre) + 1 >=? recv_size x) with false
      by (symmetry; apply geb_false; lia).
    replace (Z.of_nat (length pre) + 1) with (Z.of_nat (length (pre ++ [125])))
      by (rewrite length_app; simpl; lia).
    rewrite (ring_bytes_at x (pre ++ [125]) post (Z.lxor b 32))
      by (rewrite <- app_assoc; exact Hring).
    destruct (lxor_escape_involutive b Hin) as [Hne ->].
    apply Z.eqb_neq in Hne. rewrite Hne.
    change (125 =? XBEE_FRAME_DELIM) with false. cbn iota.
    repeat f_equal. lia.
  - cbn [app length] in *.
    replace (Z.of_nat (length pre) >=? recv_size x) with false
      by (symmetry; apply geb_false; lia).
    rewrite (ring_bytes_at x pre _ _ Hring).
    assert (Hd : (b =? XBEE_FRAME_DELIM) = false).
    { apply Z.eqb_neq. intros ->. apply Hout. simpl. tauto. }
    assert (He : (b =? XBEE_FRAME_ESCAPE) = false).
    { apply Z.eqb_neq. intros ->. apply Hout. simpl. tauto. }
    rewrite Hd, He, to_size_t_small by lia.
    repeat f_equal. lia.
Qed.

Lemma mem_write_same m i v : mem_write m i v i = v.
Proof. unfold mem_write. rewrite Z.eqb_refl. reflexivity. Qed.

Lemma mem_write_other m i v j : j <> i -> mem_write m i v j = m j.
Proof. intros H. unfold mem_write. apply Z.eqb_neq in H. rewrite H. reflexivity. Qed.

(** Un-escaping a stuffed run: the inner loop of the decoder reads the
    original bytes into the output buffer, drops nothing and sums them. *)
Lemma decode_for_stuffed {U} (x : xbee_interface_t U) (L : list Z) :
  0 <= recv_size x < SIZE_MOD ->
  forall (pre post : list Z) (i : Z) (out : Z -> Z) (accum : Z),
    0 <= i -> i + Z.of_nat (length L) < SIZE_MOD -> 0 <= accum < 256 ->
    ring_bytes x = pre ++ stuff L ++ post ->
    exists out',
      decode_for (length L) i x (Z.of_nat (length pre)) out accum
      = (None, x, Z.of_nat (length (pre ++ stuff L)), out',
         to_uint8 (accum + sum_bytes L))
      /\ (forall k, (k < length L)%nat -> out' (i + Z.of_nat k) = nth k L 0)
      /\ (forall j, j < i \/ i + Z.of_nat (length L) <= j -> out' j = out j).
Proof.
  intros Hsz. induction L as [| b L IH]; intros pre post i out accum Hi Hil Hacc Hring.
  - exists out. cbn [decode_for length stuff flat_map sum_bytes fold_right].
    rewrite app_nil_r, Z.add_0_r. unfold to_uint8. rewrite Z.mod_small by lia.
    split; [reflexivity | split; [intros k Hk; inversion Hk | reflexivity]].
  - change (stuff (b :: L)) with (stuff_byte b ++ stuff L) in *.
    rewrite <- app_assoc in Hring.
    cbn [decode_for length].
    rewrite (xbee_get_next_byte_stuffed x pre _ b _ Hsz Hring).
    change (0 =? XBEE_NOT_ENOUGH_DATA) with false. cbn [Z.eqb negb].
    rewrite mem_write_same.
    cbn [length] in Hil.
    rewrite to_size_t_small by lia.
    destruct (IH (pre ++ stuff_byte b) post (i + 1) (mem_write out i b)
                 (to_uint8 (accum + b))) as (out' & Heq & Hrd & Hfr);
      try lia; [apply to_uint8_range | rewrite <- app_assoc; exact Hring |].
    exists out'. rewrite Heq, to_uint8_add_l, <- !app_assoc.
    split; [| split].
    + do 2 f_equal. unfold sum_bytes. simpl. lia.
    + intros [| k] Hk.
      * rewrite Z.add_0_r, Hfr by lia. apply mem_write_same.
      * cbn [nth]. rewrite <- Hrd by (cbn [length] in Hk; lia). f_equal. lia.
    + intros j Hj. rewrite Hfr by (cbn [length] in Hj; lia).
      apply mem_write_other. cbn [length] in Hj. lia.
Qed.

Lemma lor_shiftl_8 h l :
  0 <= h -> 0 <= l < 256 -> Z.lor (Z.shiftl h 8) l = h * 256 + l.
Proof.
  intros Hh Hl.
  assert (Hland : Z.land (Z.shiftl h 8) l = 0).
  { apply Z.bits_inj'. intros n Hn. rewrite Z.land_spec, Z.bits_0.
    destruct (Z.ltb_spec n 8) as [Hlt | Hge].
    - rewrite Z.shiftl_spec_low by lia. reflexivity.
    - rewrite (Z.bits_above_log2 l n), andb_false_r; [reflexivity | lia |].
      destruct (Z.eq_dec l 0) as [-> | Hnz]; [simpl; lia |].
      apply Z.log2_lt_pow2; [lia |].
      apply Z.lt_le_trans with (2 ^ 8); [simpl; lia |].
      apply Z.pow_le_mono_r; lia. }
  rewrite <- Z.lxor_lor, <- Z.add_nocarry_lxor by exact Hland.
  rewrite Z.shiftl_mul_pow2 by lia. reflexivity.
Qed.

Lemma checksum_closes (P : list Z) :
  to_uint8 (0 + sum_bytes (P ++ [checksum P])) = 0xFF.
Proof.
  rewrite sum_bytes_app.
  change (sum_bytes [checksum P]) with (checksum P + 0).
  unfold checksum, to_uint8. generalize (sum_bytes P). intros s.
  Z.div_mod_to_equations. lia.
Qed.

Lemma mem_read_nth (m : Z -> Z) (l : list Z) :
  (forall k, (k < length l)%nat -> m (0 + Z.of_nat k) = nth k l 0) ->
  mem_read m (length l) = l.
Proof.
  intros H. unfold mem_read. apply nth_ext with (d := 0) (d' := 0).
  - rewrite length_map, length_seq. reflexivity.
  - intros k Hk. rewrite length_map, length_seq in Hk.
    rewrite (nth_indep _ 0 ((fun k => m (Z.of_nat k)) O))
      by (rewrite length_map, length_seq; exact Hk).
    rewrite (map_nth (fun k => m (Z.of_nat k))), seq_nth by exact Hk.
    rewrite <- H by exact Hk. reflexivity.
Qed.

Lemma wire_frame_split (P post : list Z) :
  let len := Z.of_nat (length P) in
  wire_frame P ++ post
  = [XBEE_FRAME_DELIM] ++ stuff_byte (len / 256) ++ stuff_byte (len mod 256)
      ++ stuff (P ++ [checksum P]) ++ post.
Proof.
  intros len. unfold wire_frame. fold len.
  change ([len / 256; len mod 256] ++ P ++ [checksum P])
    with ([len / 256] ++ [len mod 256] ++ P ++ [checksum P]).
  rewrite !stuff_app.
  change (stuff [len / 256]) with (stuff_byte (len / 256) ++ []).
  change (stuff [len mod 256]) with (stuff_byte (len mod 256) ++ []).
  rewrite !app_nil_r, <- stuff_app. cbn [app]. rewrite <- !app_assoc.
  reflexivity.
Qed.

(** A ring that starts with the frame of [P] decodes to [P]: the scanner
    returns the payload length, has stored the payload in the output buffer
    and has consumed exactly the frame. *)
Lemma decode_wire_frame {U} (x : xbee_interface_t U) (P post : list Z)
    (frame_out_size : Z) (out : Z -> Z) :
  6 <= recv_size x < SIZE_MOD ->
  Z.of_nat (length P) <= 65535 ->
  ring_bytes x = wire_frame P ++ post ->
  Z.of_nat (length P) + 4 <= recv_max_size x ->
  Z.of_nat (length P) + 1 <= frame_out_size ->
  exists x' out',
    xbee_decode_frame x frame_out_size out = (Z.of_nat (length P), x', out')
    /\ mem_read out' (length P) = P
    /\ recv_size x' = Z.of_nat (length post).
Proof.
  intros Hsz HP Hring Hcap Hout.
  assert (Hsz' : 0 <= recv_size x < SIZE_MOD) by lia.
  pose proof (ring_bytes_size x _ (proj1 Hsz') Hring) as Hrs.
  rewrite wire_frame_split in Hring, Hrs. cbv zeta in Hring, Hrs.
  set (len := Z.of_nat (length P)) in *.
  set (hi := stuff_byte (len / 256)) in *.
  set (lo := stuff_byte (len mod 256)) in *.
  set (body := stuff (P ++ [checksum P])) in *.
  unfold xbee_decode_frame.
  destruct (Z.to_nat (recv_size x)) as [| fuel] eqn:Hfuel; [lia |].
  cbn [decode_while]. rewrite geb_true by lia.
  pose proof (ring_bytes_at x [] _ XBEE_FRAME_DELIM Hring) as Hhead.
  cbn [length Z.of_nat] in Hhead. rewrite Hhead, Z.eqb_refl. cbn [negb].
  pose proof (xbee_get_next_byte_stuffed x [XBEE_FRAME_DELIM] _ (len / 256) 0
                Hsz' Hring) as Hlen1.
  change (Z.of_nat (length [XBEE_FRAME_DELIM])) with 1 in Hlen1.
  rewrite Hlen1. cbn [Z.eqb negb]. fold hi.
  rewrite app_assoc in Hring.
  rewrite (xbee_get_next_byte_stuffed x ([XBEE_FRAME_DELIM] ++ hi)
             _ (len mod 256) 0 Hsz' Hring).
  cbn [Z.eqb negb]. fold lo.
  assert (Hlen : to_uint16 (Z.lor (Z.shiftl (len / 256) 8) (len mod 256)) = len).
  { rewrite lor_shiftl_8.
    - rewrite Z.mul_comm, <- Z.div_mod by lia. unfold to_uint16.
      apply Z.mod_small. lia.
    - apply Z.div_pos; lia.
    - apply Z.mod_pos_bound. lia. }
  rewrite Hlen.
  rewrite !to_size_t_small by (unfold SIZE_MOD; lia).
  rewrite !gtb_false by lia. cbn [orb].
  replace (Z.to_nat (len + 1)) with (length (P ++ [checksum P]))
    by (rewrite length_app; simpl; lia).
  rewrite app_assoc in Hring.
  destruct (decode_for_stuffed x (P ++ [checksum P]) Hsz'
              (([XBEE_FRAME_DELIM] ++ hi) ++ lo) post 0 out 0)
    as (out' & Heq & Hrd & _); try lia; try exact Hring.
  { rewrite length_app. simpl. unfold SIZE_MOD. lia. }
  rewrite Heq, checksum_closes. cbn [Z.eqb Pos.eqb].
  eexists _, out'. split; [reflexivity | split].
  - apply mem_read_nth. intros k Hk. rewrite Hrd.
    + apply app_nth1. exact Hk.
    + rewrite length_app. lia.
  - cbn [recv_size]. fold body. rewrite Hrs in Hsz' |- *.
    rewrite !length_app in *. rewrite to_size_t_small; lia.
Qed.

(** ** Stores into the output buffer *)

Lemma to_size_t_le z : 0 <= z -> 0 <= to_size_t z <= z.
Proof.
  intros H. unfold to_size_t, SIZE_MOD. split.
  - apply Z.mod_pos_bound. lia.
  - apply Z.mod_le; lia.
Qed.

Lemma to_uint16_range z : 0 <= to_uint16 z <= 65535.
Proof.
  unfold to_uint16. pose proof (Z.mod_pos_bound z 65536 ltac:(lia)). lia.
Qed.

(** The inner loop stores only at the offsets it runs over. *)
Lemma decode_for_stores {U} (n : nat) :
  forall (i : Z) (x : xbee_interface_t U) (idx : Z) (out : Z -> Z) (accum bound : Z),
    0 <= i -> i + Z.of_nat n <= bound ->
    forall j, j < 0 \/ bound <= j ->
      snd (fst (decode_for n i x idx out accum)) j = out j.
Proof.
  induction n as [| n IH]; intros i x idx out accum bound Hi Hb j Hj.
  - reflexivity.
  - cbn [decode_for].
    destruct (xbee_get_next_byte x idx (out i)) as [[ret idx'] b].
    pose proof (to_size_t_le (i + 1) ltac:(lia)) as Hw.
    assert (Hstep : forall (x' : xbee_interface_t U) acc',
               snd (fst (decode_for n (to_size_t (i + 1)) x' idx'
                                    (mem_write out i b) acc')) j = out j).
    { intros x' acc'. rewrite (IH _ _ _ _ _ bound) by lia.
      apply mem_write_other. lia. }
    destruct (ret =? XBEE_NOT_ENOUGH_DATA).
    + destruct (recv_size x =? recv_max_size x); [apply Hstep |].
      destruct (xbee_find_if_have_next_delim x); [apply Hstep |].
      cbn [fst snd]. apply mem_write_other. lia.
    + destruct (negb (ret =? 0)); apply Hstep.
Qed.

Lemma decode_while_stores {U} (fuel : nat) :
  forall (x : xbee_interface_t U) (frame_out_size : Z) (out : Z -> Z) r,
    decode_while fuel x frame_out_size out = Some r ->
    forall j, j < 0 \/ frame_out_size <= j -> snd r j = out j.
Proof.
  induction fuel as [| fuel IH]; intros x fos out r Hr j Hj.
  - cbn [decode_while] in Hr.
    destruct (recv_size x >=? 6); [discriminate |].
    injection Hr as <-. reflexivity.
  - cbn [decode_while] in Hr.
    destruct (recv_size x >=? 6); [| injection Hr as <-; reflexivity].
    destruct (negb (xbee_get_byte x 0 =? XBEE_FRAME_DELIM));
      [apply (IH _ _ _ _ Hr j Hj) |].
    destruct (xbee_get_next_byte x 1 0) as [[ret1 idx1] len1].
    destruct (negb (ret1 =? 0)); [apply (IH _ _ _ _ Hr j Hj) |].
    destruct (xbee_get_next_byte x idx1 0) as [[ret2 idx2] len2].
    destruct (negb (ret2 =? 0)); [apply (IH _ _ _ _ Hr j Hj) |].
    set (len := to_uint16 (Z.lor (Z.shiftl len1 8) len2)) in *.
    pose proof (to_uint16_range (Z.lor (Z.shiftl len1 8) len2)) as Hlen.
    fold len in Hlen.
    destruct (to_size_t (len + 4) >? recv_max_size x);
      [apply (IH _ _ _ _ Hr j Hj) |].
    destruct (to_size_t (len + 1) >? fos) eqn:Hfit;
      [apply (IH _ _ _ _ Hr j Hj) |].
    cbn [orb] in Hr.
    assert (Hfit' : len + 1 <= fos).
    { rewrite to_size_t_small in Hfit by (unfold SIZE_MOD; lia).
      rewrite Z.gtb_ltb in Hfit. apply Z.ltb_ge in Hfit. exact Hfit. }
    pose proof (decode_for_stores (Z.to_nat (len + 1)) 0 x idx2 out 0 fos
                  ltac:(lia) ltac:(lia) j Hj) as Hfor.
    destruct (decode_for (Z.to_nat (len + 1)) 0 x idx2 out 0)
      as [[[[early x'] idx'] out'] accum'].
    cbn [fst snd] in Hfor.
    destruct early as [ret |].
    + injection Hr as <-. exact Hfor.
    + destruct (accum' =? 255).
      * injection Hr as <-. exact Hfor.
      * rewrite (IH _ _ _ _ Hr j Hj). exact Hfor.
Qed.

(** ** The ring invariant along the scan *)

Lemma dropped_S {U} k (x : xbee_interface_t U) :
  dropped (S k) x = xbee_drop_byte (dropped k x).
Proof. reflexivity. Qed.

Lemma dropped_drop {U} k (x : xbee_interface_t U) :
  dropped k (xbee_drop_byte x) = dropped (S k) x.
Proof.
  unfold dropped. symmetry. apply Nat.iter_succ_r.
Qed.

Lemma dropped_dropped {U} a b (x : xbee_interface_t U) :
  dropped a (dropped b x) = dropped (a + b) x.
Proof.
  induction b as [| b IH] in x |- *.
  - rewrite Nat.add_0_r. reflexivity.
  - rewrite <- dropped_drop, IH, dropped_drop.
    replace (a + S b)%nat with (S (a + b)) by lia. reflexivity.
Qed.

Lemma drop_fields {U} (x : xbee_interface_t U) :
  uart (xbee_drop_byte x) = uart x /\
  recv_max_size (xbee_drop_byte x) = recv_max_size x /\
  recv (xbee_drop_byte x) = recv x.
Proof. repeat split. Qed.

Lemma dropped_fields {U} k (x : xbee_interface_t U) :
  uart (dropped k x) = uart x /\
  recv_max_size (dropped k x) = recv_max_size x.
Proof.
  induction k as [| k [IHu IHm]]; [split; reflexivity |].
  rewrite dropped_S. split; [exact IHu | exact IHm].
Qed.

Lemma int_max_lt_size_mod : 0 < INT_MAX /\ 2 * INT_MAX + 2 < SIZE_MOD.
Proof. split; reflexivity. Qed.

(** Dropping a byte of a non-empty ring keeps the invariant. *)
Lemma drop_ok {U} (x : xbee_interface_t U) :
  ring_ok x -> 1 <= recv_size x ->
  ring_ok (xbee_drop_byte x) /\
  recv_size (xbee_drop_byte x) = recv_size x - 1.
Proof.
  intros (Hi & Hs & Hm) H1. pose proof int_max_lt_size_mod as HM.
  unfold ring_ok, xbee_drop_byte. cbn [recv_idx recv_size recv_max_size].
  rewrite !to_size_t_small by lia.
  destruct (Z.geb_spec (recv_idx x + 1) (recv_max_size x)); lia.
Qed.

(** The three outcomes of xbee_get_next_byte. *)
Lemma xbee_get_next_byte_cases {U} (x : xbee_interface_t U) (idx old : Z) :
  0 <= idx -> recv_size x < SIZE_MOD ->
  let r := xbee_get_next_byte x idx old in
  let ret := fst (fst r) in
  let idx' := snd (fst r) in
  (ret = 0 /\ idx < idx' <= recv_size x) \/
  (ret = XBEE_ERR_FOUND_START /\ idx' = idx /\ idx < recv_size x) \/
  (ret = XBEE_NOT_ENOUGH_DATA /\ idx' = idx).
Proof.
  intros H0 Hs. unfold xbee_get_next_byte.
  destruct (Z.geb_spec idx (recv_size x)) as [Hge | Hlt]; [right; right; auto |].
  destruct (xbee_get_byte x idx =? XBEE_FRAME_DELIM);
    [right; left; cbn; auto |].
  destruct (xbee_get_byte x idx =? XBEE_FRAME_ESCAPE).
  - rewrite (to_size_t_small (idx + 1)) by lia.
    destruct (Z.geb_spec (idx + 1) (recv_size x)) as [Hge | Hlt1];
      [right; right; auto |].
    destruct (xbee_get_byte x (idx + 1) =? XBEE_FRAME_DELIM);
      [right; left; cbn; auto |].
    left. cbn. rewrite to_size_t_small by lia. lia.
  - left. cbn. rewrite to_size_t_small by lia. lia.
Qed.

Lemma find_delim_loop_true {U} (x : xbee_interface_t U) (n : nat) :
  forall i, 1 <= i -> find_delim_loop n i x = true -> 2 <= recv_size x.
Proof.
  induction n as [| n IH]; intros i Hi H; [discriminate |].
  cbn [find_delim_loop] in H.
  destruct (Z.ltb_spec i (recv_size x)) as [Hlt | Hge]; [lia | discriminate].
Qed.

(** The inner loop only drops bytes, never the last one, and so keeps the
    invariant; it leaves by falling through or by returning 0. *)
Lemma decode_for_inv {U} (n : nat) :
  forall (i : Z) (x : xbee_interface_t U) (idx : Z) (out : Z -> Z) (accum : Z),
    ring_ok x -> 4 <= recv_max_size x -> 1 <= recv_size x -> 1 <= idx ->
    exists early k idx' out' accum',
      decode_for n i x idx out accum = (early, dropped k x, idx', out', accum')
      /\ ring_ok (dropped k x)
      /\ 1 <= recv_size (dropped k x) <= recv_size x
      /\ (early = None \/ early = Some 0).
Proof.
  induction n as [| n IH]; intros i x idx out accum Hok Hmax Hrs Hidx.
  - exists None, O, idx, out, accum. change (dropped 0 x) with x.
    split; [reflexivity | split; [exact Hok | split; [lia | auto]]].
  - cbn [decode_for].
    pose proof (xbee_get_next_byte_cases x idx (out i) ltac:(lia)) as Hc.
    assert (HsM : recv_size x < SIZE_MOD).
    { destruct Hok as (_ & ? & ?). pose proof int_max_lt_size_mod. lia. }
    specialize (Hc HsM).
    destruct (xbee_get_next_byte x idx (out i)) as [[ret idx1] b].
    cbn [fst snd] in Hc.
    assert (Hdrop : 2 <= recv_size x ->
      forall acc',
      exists early k idx' out' accum',
        decode_for n (to_size_t (i + 1)) (xbee_drop_byte x) idx1
                   (mem_write out i b) acc'
        = (early, dropped k x, idx', out', accum')
        /\ ring_ok (dropped k x)
        /\ 1 <= recv_size (dropped k x) <= recv_size x
        /\ (early = None \/ early = Some 0)).
    { intros H2 acc'.
      destruct (drop_ok x Hok ltac:(lia)) as [Hok' Hrs'].
      destruct (IH (to_size_t (i + 1)) (xbee_drop_byte x) idx1
                   (mem_write out i b) acc' Hok' Hmax ltac:(lia) ltac:(lia))
        as (early & k & idx' & out' & accum' & Heq & Hk & Hsz & He).
      rewrite dropped_drop in *.
      exists early, (S k), idx', out', accum'.
      split; [exact Heq | split; [exact Hk | split; [lia | exact He]]]. }
    destruct Hc as [(-> & Hi1) | [(-> & -> & Hlt) | (-> & ->)]].
    + cbn [Z.eqb negb XBEE_NOT_ENOUGH_DATA].
      change (0 =? XBEE_NOT_ENOUGH_DATA) with false. cbn iota.
      destruct (IH (to_size_t (i + 1)) x idx1 (mem_write out i b)
                   (to_uint8 (accum + mem_write out i b i))
                   Hok Hmax Hrs ltac:(lia))
        as (early & k & idx' & out' & accum' & Heq & Hk & Hsz & He).
      exists early, k, idx', out', accum'. auto.
    + change (XBEE_ERR_FOUND_START =? XBEE_NOT_ENOUGH_DATA) with false.
      change (negb (XBEE_ERR_FOUND_START =? 0)) with true. cbn iota.
      apply Hdrop. lia.
    + rewrite Z.eqb_refl.
      destruct (Z.eqb_spec (recv_size x) (recv_max_size x)) as [Hfull | _];
        [apply Hdrop; lia |].
      destruct (xbee_find_if_have_next_delim x) eqn:Hfind.
      * apply Hdrop. apply (find_delim_loop_true x _ 1 ltac:(lia) Hfind).
      * exists (Some 0), O, idx, (mem_write out i b), accum.
        change (dropped 0 x) with x.
        split; [reflexivity | split; [exact Hok | split; [lia | auto]]].
Qed.

(** A single pass of the inner loop that ends with a full accumulator has
    read one byte and dropped none. *)
Lemma decode_for_one {U} (x x' : xbee_interface_t U) (i idx idx' : Z)
    (out out' : Z -> Z) :
  0 <= idx -> recv_size x < SIZE_MOD ->
  decode_for 1 i x idx out 0 = (None, x', idx', out', 255) ->
  x' = x /\ idx < idx' <= recv_size x.
Proof.
  intros H0 Hs. cbn [decode_for].
  pose proof (xbee_get_next_byte_cases x idx (out i) H0 Hs) as Hc.
  destruct (xbee_get_next_byte x idx (out i)) as [[ret idx1] b].
  cbn [fst snd] in Hc.
  destruct Hc as [(-> & Hi1) | [(-> & -> & Hlt) | (-> & ->)]].
  - change (0 =? XBEE_NOT_ENOUGH_DATA) with false. cbn [Z.eqb negb].
    intros H. injection H as <- <- _ _. auto.
  - change (XBEE_ERR_FOUND_START =? XBEE_NOT_ENOUGH_DATA) with false.
    change (negb (XBEE_ERR_FOUND_START =? 0)) with true. cbn iota.
    intros H. discriminate H.
  - rewrite Z.eqb_refl.
    destruct (recv_size x =? recv_max_size x); [intros H; discriminate H |].
    destruct (xbee_find_if_have_next_delim x); intros H; discriminate H.
Qed.

(** xbee_decode_frame terminates within recv_size iterations of its outer
    loop.  It returns 0 or a length that stands in a frame header found in
    the ring after some bytes were dropped; it leaves the transport alone,
    and a call that returns 0 keeps the ring invariant. *)
Lemma decode_while_inv {U} (fuel : nat) :
  forall (x : xbee_interface_t U) (frame_out_size : Z) (out : Z -> Z),
    ring_ok x -> (Z.to_nat (recv_size x) <= fuel)%nat ->
    exists ret x' out',
      decode_while fuel x frame_out_size out = Some (ret, x', out')
      /\ 0 <= ret <= 65535
      /\ uart x' = uart x
      /\ recv_max_size x' = recv_max_size x
      /\ (ret = 0 -> ring_ok x')
      /\ (0 < ret -> exists k, frame_header (dropped k x) = Some ret).
Proof.
  induction fuel as [| fuel IH]; intros x fos out Hok Hfuel.
  - cbn [decode_while]. rewrite geb_false by lia.
    exists 0, x, out.
    split; [reflexivity | split; [lia | split; [reflexivity | split; [reflexivity | split; [intros _; exact Hok | intros Hpos; lia]]]]].
  - cbn [decode_while].
    destruct (Z.geb_spec (recv_size x) 6) as [Hge | Hlt];
      [| exists 0, x, out;
         split; [reflexivity | split; [lia | split; [reflexivity | split; [reflexivity | split; [intros _; exact Hok | intros Hpos; lia]]]]]].
    assert (Hrec : forall k o,
      ring_ok (dropped k x) -> 1 <= recv_size (dropped k x) <= recv_size x ->
      exists ret x' out',
        decode_while fuel (xbee_drop_byte (dropped k x)) fos o
        = Some (ret, x', out')
        /\ 0 <= ret <= 65535
        /\ uart x' = uart x
        /\ recv_max_size x' = recv_max_size x
        /\ (ret = 0 -> ring_ok x')
        /\ (0 < ret -> exists k, frame_header (dropped k x) = Some ret)).
    { intros k o Hk Hsz.
      destruct (drop_ok _ Hk ltac:(lia)) as [Hok' Hrs'].
      destruct (IH (xbee_drop_byte (dropped k x)) fos o Hok' ltac:(lia))
        as (ret & x' & out' & Heq & Hret & Hu & Hm & Hz & Hh).
      destruct (dropped_fields k x) as [Hku Hkm].
      exists ret, x', out'. cbn in Hu, Hm.
      split; [exact Heq | split; [exact Hret |]].
      split; [congruence | split; [congruence | split; [exact Hz |]]].
      intros Hpos. destruct (Hh Hpos) as [k' Hk'].
      rewrite <- dropped_S, dropped_dropped in Hk'. eauto. }
    assert (Hrec0 : forall o,
      exists ret x' out',
        decode_while fuel (xbee_drop_byte x) fos o = Some (ret, x', out')
        /\ 0 <= ret <= 65535
        /\ uart x' = uart x
        /\ recv_max_size x' = recv_max_size x
        /\ (ret = 0 -> ring_ok x')
        /\ (0 < ret -> exists k, frame_header (dropped k x) = Some ret)).
    { intros o. apply (Hrec O o Hok). change (dropped 0 x) with x. lia. }
    assert (HsM : recv_size x < SIZE_MOD).
    { destruct Hok as (_ & ? & ?). pose proof int_max_lt_size_mod. lia. }
    destruct (negb (xbee_get_byte x 0 =? XBEE_FRAME_DELIM)) eqn:Hd;
      [apply Hrec0 |].
    pose proof (xbee_get_next_byte_cases x 1 0 ltac:(lia) HsM) as Hc1.
    destruct (xbee_get_next_byte x 1 0) as [[ret1 idx1] len1] eqn:H1.
    cbn [fst snd] in Hc1.
    destruct (negb (ret1 =? 0)) eqn:Hr1; [apply Hrec0 |].
    pose proof (xbee_get_next_byte_cases x idx1 0) as Hc2.
    destruct (xbee_get_next_byte x idx1 0) as [[ret2 idx2] len2] eqn:H2.
    cbn [fst snd] in Hc2.
    destruct (negb (ret2 =? 0)) eqn:Hr2; [apply Hrec0 |].
    apply negb_false_iff, Z.eqb_eq in Hr1, Hr2. subst ret1 ret2.
    assert (Hidx1 : 1 < idx1).
    { destruct Hc1 as [[_ ?] | [[? _] | [? _]]]; [lia | discriminate ..]. }
    assert (Hidx2 : idx1 < idx2).
    { destruct (Hc2 ltac:(lia) HsM) as [[_ ?] | [[? _] | [? _]]];
        [lia | discriminate ..]. }
    set (len := to_uint16 (Z.lor (Z.shiftl len1 8) len2)) in *.
    pose proof (to_uint16_range (Z.lor (Z.shiftl len1 8) len2)) as Hlen.
    fold len in Hlen.
    rewrite (to_size_t_small (len + 4)) by (unfold SIZE_MOD; lia).
    destruct (Z.gtb_spec (len + 4) (recv_max_size x)) as [_ | Hcap];
      [apply Hrec0 |].
    destruct (to_size_t (len + 1) >? fos); [apply Hrec0 |].
    cbn [orb].
    destruct (decode_for_inv (Z.to_nat (len + 1)) 0 x idx2 out 0 Hok
                ltac:(lia) ltac:(lia) ltac:(lia))
      as (early & k & idx' & out' & accum' & Heq & Hk & Hsz & He).
    rewrite Heq.
    destruct (dropped_fields k x) as [Hku Hkm].
    destruct He as [-> | ->].
    + destruct (Z.eqb_spec accum' 255) as [-> | _]; [| apply (Hrec k out' Hk Hsz)].
      eexists len, _, out'. split; [reflexivity |].
      split; [exact Hlen |]. split; [exact Hku |]. split; [exact Hkm |].
      split.
      * intros Hz. rewrite Hz in Heq. change (Z.to_nat (0 + 1)) with 1%nat in Heq.
        destruct (decode_for_one x (dropped k x) 0 idx2 idx' out out'
                    ltac:(lia) HsM Heq) as [Hx Hi'].
        rewrite Hx in *. clear Hx.
        destruct Hok as (Hi0 & Hs0 & Hm0). pose proof int_max_lt_size_mod as HM.
        unfold ring_ok. cbn [recv_idx recv_size recv_max_size].
        rewrite (to_size_t_small (recv_idx x + idx')) by lia.
        rewrite (to_size_t_small (recv_size x - idx')) by lia.
        destruct (Z.geb_spec (recv_idx x + idx') (recv_max_size x)).
        -- rewrite to_size_t_small by lia. lia.
        -- lia.
      * intros _. exists O. change (dropped 0 x) with x.
        unfold frame_header. rewrite Hd, H1. cbn [Z.eqb negb].
        rewrite H2. reflexivity.
    + exists 0, (dropped k x), out'.
      split; [reflexivity | split; [lia |]].
      split; [exact Hku | split; [exact Hkm | split; [auto |]]].
      intros Hpos. lia.
Qed.

(** xbee_decode_frame on a ring that satisfies its invariant. *)
Lemma xbee_decode_frame_inv {U} (x : xbee_interface_t U) (frame_out_size : Z)
    (out : Z -> Z) :
  ring_ok x ->
  exists ret x' out',
    xbee_decode_frame x frame_out_size out = (ret, x', out')
    /\ decode_while (Z.to_nat (recv_size x)) x frame_out_size out
       = Some (ret, x', out')
    /\ 0 <= ret <= 65535
    /\ uart x' = uart x
    /\ recv_max_size x' = recv_max_size x
    /\ (ret = 0 -> ring_ok x')
    /\ (0 < ret -> exists k, frame_header (dropped k x) = Some ret).
Proof.
  intros Hok.
  destruct (decode_while_inv (Z.to_nat (recv_size x)) x frame_out_size out Hok
              (Nat.le_refl _)) as (ret & x' & out' & Heq & H).
  exists ret, x', out'. unfold xbee_decode_frame. rewrite Heq. auto.
Qed.

(** ** Filling the ring *)



(** * The claims *)

(** ** Emitter *)

Lemma frame_on_wire_eq (P : list Z) :
  Z.of_nat (length P) <= 65535 -> frame_on_wire P = wire_frame P.
Proof.
  intros H. unfold frame_on_wire, emitted.
  rewrite xbee_send_frame_wire by exact H. reflexivity.
Qed.

Lemma last_stuff_byte (l : list Z) (c : Z) :
  last (l ++ stuff_byte c) 0
  = if in_dec Z.eq_dec c escape_set then Z.lxor c 0x20 else c.
Proof.
  unfold stuff_byte. destruct (in_dec Z.eq_dec c escape_set).
  - change [125; Z.lxor c 32] with ([125] ++ [Z.lxor c 32]).
    rewrite app_assoc. apply last_last.
  - apply last_last.
Qed.

(** C6, as the code has it.  The call of scenario S1 puts
    7E 00 04 08 52 4E 4A 0D on the wire.  In general xbee_at_command emits
    the start delimiter and then, byte-stuffed, the two length bytes, the
    payload 08 frame_id cmd[0] cmd[1] param and the checksum
    0xFF - (sum of the payload bytes mod 256), to which neither the length
    bytes nor the checksum contribute; so the last byte on the wire is the
    checksum, or the checksum XOR 0x20 when the checksum is in the escape
    set. *)
Theorem at_command_frame_and_checksum (x : xbee_interface_t wire)
    (frame_id : Z) (cmd : string) (param : list Z) :
  4 + Z.of_nat (length param) <= 65535 ->
  emitted (xbee_at_command wire_write (xbee_fresh idle_wire 0) 0x52 "NJ" [])
    = [0x7E; 0x00; 0x04; 0x08; 0x52; 0x4E; 0x4A; 0x0D]
  /\
  let len := 4 + Z.of_nat (length param) in
  let payload := [XBEE_AT_COMMAND; frame_id; char_at cmd 0; char_at cmd 1] ++ param in
  let cs := 0xFF - (sum_bytes payload) mod 256 in
  let r := xbee_at_command wire_write x frame_id cmd param in
  fst r = 0
  /\ emitted r = tx (uart x) ++ [0x7E] ++ stuff [len / 256; len mod 256]
                   ++ stuff payload ++ stuff [cs]
  /\ last (emitted r) 0
     = if in_dec Z.eq_dec cs escape_set then Z.lxor cs 0x20 else cs.
Proof.
  intros Hlen. split; [vm_compute; reflexivity |].
  cbv zeta. rewrite xbee_at_command_wire by exact Hlen.
  unfold emitted, sent, wire_frame, checksum. cbn [fst snd uart tx set_uart].
  rewrite length_app.
  replace (Z.of_nat (length [XBEE_AT_COMMAND; frame_id; char_at cmd 0; char_at cmd 1]
                     + length param)) with (4 + Z.of_nat (length param))
    by (cbn [length]; lia).
  rewrite !stuff_app.
  split; [reflexivity | split; [reflexivity |]].
  change (stuff [255 - sum_bytes ([XBEE_AT_COMMAND; frame_id; char_at cmd 0;
                                    char_at cmd 1] ++ param) mod 256])
    with (stuff_byte (255 - sum_bytes ([XBEE_AT_COMMAND; frame_id; char_at cmd 0;
                                    char_at cmd 1] ++ param) mod 256) ++ []).
  rewrite app_nil_r.
  change (?a :: ?l ++ ?m) with ((a :: l) ++ m).
  rewrite !app_assoc. apply last_stuff_byte.
Qed.

Lemma at_command_frame_and_checksum_witness :
  emitted (xbee_at_command wire_write (xbee_fresh idle_wire 0) 0x52 "NJ" [])
    = [0x7E; 0x00; 0x04; 0x08; 0x52; 0x4E; 0x4A; 0x0D]
  /\ fst (xbee_at_command wire_write (xbee_fresh idle_wire 0) 0xE1 "NJ" [0x7D]) = 0
  /\ emitted (xbee_at_command wire_write (xbee_fresh idle_wire 0) 0xE1 "NJ" [0x7D])
     = [0x7E; 0x00; 0x05; 0x08; 0xE1; 0x4E; 0x4A; 0x7D; 0x5D; 0x01].
Proof.
  destruct (at_command_frame_and_checksum (xbee_fresh idle_wire 0) 0xE1 "NJ" [0x7D])
    as (Hs1 & Hret & Hwire & _).
  - vm_compute. discriminate.
  - split; [exact Hs1 | split; [exact Hret |]].
    rewrite Hwire. vm_compute. reflexivity.
Defined.

(** C6, as the claim states it, fails twice: the S1 call does not end in 09,
    and with frame id E1 the checksum 7E goes out as 7D 5E, so the last byte
    on the wire is not 0xFF minus the sum of the payload. *)
Lemma at_command_s1_checksum_counterexample :
  emitted (xbee_at_command wire_write (xbee_fresh idle_wire 0) 0x52 "NJ" [])
    <> [0x7E; 0x00; 0x04; 0x08; 0x52; 0x4E; 0x4A; 0x09]
  /\ last (emitted (xbee_at_command wire_write (xbee_fresh idle_wire 0) 0xE1 "NJ" [])) 0
     <> 0xFF - (sum_bytes [0x08; 0xE1; 0x4E; 0x4A]) mod 256.
Proof. split; vm_compute; discriminate. Qed.

(** C7, as the code has it.  For every payload of at most 65535 bytes
    xbee_send_frame emits 7E and then the stuffed length bytes, payload
    and checksum, where stuffing replaces each byte of 7E, 7D, 11, 13 by 7D
    and the byte XOR 0x20 and leaves every other byte as it is.  The call of
    scenario S2 puts 7E 00 04 08 7D 31 4E 4A 4E on the wire. *)
Theorem send_frame_escape_stuffing (x : xbee_interface_t wire) (payload : list Z) :
  Z.of_nat (length payload) <= 65535 ->
  let len := Z.of_nat (length payload) in
  let r := xbee_send_frame wire_write x payload in
  fst r = 0
  /\ emitted r
     = tx (uart x) ++ 0x7E ::
         flat_map (fun b => if in_dec Z.eq_dec b [0x7E; 0x7D; 0x11; 0x13]
                            then [0x7D; Z.lxor b 0x20] else [b])
                  ([len / 256; len mod 256] ++ payload ++ [checksum payload])
  /\ emitted (xbee_at_command wire_write (xbee_fresh idle_wire 0) 0x11 "NJ" [])
     = [0x7E; 0x00; 0x04; 0x08; 0x7D; 0x31; 0x4E; 0x4A; 0x4E].
Proof.
  intros Hlen. cbv zeta. rewrite xbee_send_frame_wire by exact Hlen.
  split; [reflexivity | split; [reflexivity | vm_compute; reflexivity]].
Qed.

Lemma send_frame_escape_stuffing_witness :
  emitted (xbee_send_frame wire_write (xbee_fresh idle_wire 0) [0x7E; 0x41; 0x13])
  = [0x7E; 0x00; 0x03; 0x7D; 0x5E; 0x41; 0x7D; 0x33; 0x2D].
Proof.
  destruct (send_frame_escape_stuffing (xbee_fresh idle_wire 0) [0x7E; 0x41; 0x13])
    as (_ & Hwire & _).
  - vm_compute. discriminate.
  - rewrite Hwire. vm_compute. reflexivity.
Defined.

(** C7, as the claim states it, fails on its example: the S2 call ends in
    the checksum 4E, not 4A. *)
Lemma at_command_s2_counterexample :
  emitted (xbee_at_command wire_write (xbee_fresh idle_wire 0) 0x11 "NJ" [])
  <> [0x7E; 0x00; 0x04; 0x08; 0x7D; 0x31; 0x4E; 0x4A; 0x4A].
Proof. vm_compute. discriminate. Qed.

(** ** Scanner *)

Lemma length_stuff_byte b : (1 <= length (stuff_byte b) <= 2)%nat.
Proof.
  unfold stuff_byte. destruct (in_dec Z.eq_dec b escape_set); simpl; lia.
Qed.

Lemma length_stuff (l : list Z) :
  (length l <= length (stuff l) <= 2 * length l)%nat.
Proof.
  induction l as [| b l IH]; [simpl; lia |].
  change (stuff (b :: l)) with (stuff_byte b ++ stuff l).
  rewrite length_app. pose proof (length_stuff_byte b). simpl length. lia.
Qed.

Lemma length_wire_frame (P : list Z) :
  (length P + 4 <= length (wire_frame P) <= 2 * length P + 7)%nat.
Proof.
  unfold wire_frame. cbn [length].
  pose proof (length_stuff ([Z.of_nat (length P) / 256; Z.of_nat (length P) mod 256]
                            ++ P ++ [checksum P])) as H.
  rewrite !length_app in H. cbn [length] in H. lia.
Qed.

(** What one xbee_fill_buffer leaves in a fresh ring: the pending input of
    the transport, from offset 0 on. *)
Lemma xbee_filled_ring_bytes (cap : Z) (bytes : list Z) :
  Z.of_nat (length bytes) <= cap < SIZE_MOD -> 0 < cap ->
  ring_bytes (xbee_filled cap bytes) = bytes
  /\ recv_size (xbee_filled cap bytes) = Z.of_nat (length bytes)
  /\ recv_max_size (xbee_filled cap bytes) = cap.
Proof.
  intros Hlen Hcap. unfold xbee_filled, xbee_fill_buffer, xbee_fresh.
  cbn [recv_idx recv_size recv_max_size Z.add].
  rewrite (to_size_t_small 0) by (unfold SIZE_MOD; lia).
  rewrite (proj2 (Z.ltb_lt 0 cap)) by lia.
  rewrite Z.sub_0_r, (to_size_t_small cap) by lia.
  unfold read, wire_read. cbn [uart rx tx recv recv_idx recv_size recv_max_size].
  rewrite firstn_firstn, Nat.min_id, firstn_all2 by lia.
  set (n := Z.of_nat (length bytes)) in *.
  assert (Hfin : forall (u : wire) (recv : list Z),
             recv = store_at (repeat 0 (Z.to_nat cap)) 0 bytes ->
             ring_bytes (mk_xbee u cap recv 0 n) = bytes).
  { intros u recv ->. apply nth_ext with (d := 0) (d' := 0).
    - rewrite ring_bytes_length. cbn [recv_size]. unfold n. lia.
    - intros k Hk. rewrite ring_bytes_length in Hk. cbn [recv_size] in Hk.
      rewrite <- ring_bytes_nth by (cbn [recv_size]; exact Hk).
      unfold xbee_get_byte. cbn [recv_idx recv_max_size recv].
      rewrite Z.add_0_r, to_size_t_small by (unfold n in *; lia).
      rewrite geb_false by (unfold n in *; lia).
      unfold byte_at, store_at. rewrite Nat2Z.id. cbn [Z.to_nat firstn app].
      apply app_nth1. unfold n in Hk. lia. }
  destruct (Z.gtb_spec n 0) as [Hpos | Hzero].
  - unfold grow. cbn [uart recv recv_idx recv_size recv_max_size].
    rewrite (to_size_t_small n), Z.add_0_l, (to_size_t_small n) by lia.
    replace ((n =? cap) && negb (cap =? 0) && (n <? cap)) with false.
    + cbn [snd recv_size recv_max_size]. split; [apply Hfin; reflexivity | auto].
    + symmetry. destruct (Z.eqb_spec n cap) as [-> | _]; [| reflexivity].
      rewrite Z.ltb_irrefl, andb_false_r. reflexivity.
  - assert (Hn : n = 0) by (unfold n in *; lia).
    specialize (Hfin (mk_wire [] (skipn (Z.to_nat cap) bytes)) _ eq_refl).
    rewrite Hn in Hfin |- *. rewrite (to_size_t_small 0) by lia.
    rewrite (proj2 (Z.eqb_neq 0 cap)) by lia.
    cbn [andb snd recv_size recv_max_size].
    split; [exact Hfin | auto].
Qed.

(** C1, as the code has it.  For every payload P with 1 <= |P| <= 65535
    whose frame is at least 6 bytes long (every P of two bytes or more),
    with |P| + 4 <= the ring capacity and |P| + 1 <= the output capacity: a
    ring that holds exactly the bytes xbee_send_frame emitted for P decodes
    to |P|, and the first |P| bytes of the output buffer are P. *)
Theorem decode_send_frame_roundtrip {U} (x : xbee_interface_t U) (P : list Z)
    (frame_out_size : Z) (out : Z -> Z) :
  1 <= Z.of_nat (length P) <= 65535 ->
  2 <= Z.of_nat (length P) \/ 6 <= Z.of_nat (length (frame_on_wire P)) ->
  0 <= recv_size x ->
  ring_bytes x = frame_on_wire P ->
  Z.of_nat (length P) + 4 <= recv_max_size x ->
  Z.of_nat (length P) + 1 <= frame_out_size ->
  let r := xbee_decode_frame x frame_out_size out in
  fst (fst r) = Z.of_nat (length P) /\ mem_read (snd r) (length P) = P.
Proof.
  intros HP Hsix Hpos Hring Hcap Hout.
  rewrite frame_on_wire_eq in Hring, Hsix by lia.
  pose proof (ring_bytes_size x _ Hpos Hring) as Hrs.
  pose proof (length_wire_frame P) as Hlen.
  assert (Hsz : 6 <= recv_size x < SIZE_MOD) by (unfold SIZE_MOD; lia).
  rewrite <- (app_nil_r (wire_frame P)) in Hring.
  destruct (decode_wire_frame x P [] frame_out_size out Hsz ltac:(lia) Hring Hcap Hout)
    as (x' & out' & Heq & Hmem & _).
  cbv zeta. rewrite Heq. split; [reflexivity | exact Hmem].
Qed.

Lemma decode_send_frame_roundtrip_witness :
  let P := [0x7E; 0x11; 0x41] in
  let x := xbee_filled 16 (frame_on_wire P) in
  ring_bytes x = [0x7E; 0x00; 0x03; 0x7D; 0x5E; 0x7D; 0x31; 0x41; 0x2F]
  /\ fst (fst (xbee_decode_frame x 4 zeros)) = 3
  /\ mem_read (snd (xbee_decode_frame x 4 zeros)) 3 = P.
Proof.
  cbv zeta. split; [vm_compute; reflexivity |].
  apply (decode_send_frame_roundtrip
           (xbee_filled 16 (frame_on_wire [0x7E; 0x11; 0x41]))
           [0x7E; 0x11; 0x41] 4 zeros).
  - vm_compute. split; discriminate.
  - left. vm_compute. discriminate.
  - vm_compute. discriminate.
  - vm_compute. reflexivity.
  - vm_compute. discriminate.
  - vm_compute. discriminate.
Defined.

(** C1, as the claim states it, fails for a payload of one byte: the frame
    of [08] is 7E 00 01 08 F7, five bytes, and xbee_decode_frame returns 0
    on any ring that holds fewer than six. *)
Lemma roundtrip_one_byte_payload_counterexample :
  let P := [0x08] in
  let x := xbee_filled 16 (frame_on_wire P) in
  1 <= Z.of_nat (length P)
  /\ Z.of_nat (length P) + 4 <= recv_max_size x
  /\ Z.of_nat (length P) + 1 <= 16
  /\ ring_bytes x = frame_on_wire P
  /\ fst (fst (xbee_decode_frame x 16 zeros)) = 0
  /\ fst (fst (xbee_decode_frame x 16 zeros)) <> Z.of_nat (length P).
Proof. vm_compute. repeat split; discriminate. Qed.

(** C2 fails on the code.  The ring holds 7E 00 02 FF followed by the good
    frame 7E 00 02 08 01 F6.  The un-escape loop meets the second 7E, drops
    one byte and, its [continue] being a continue of the inner loop, goes on
    un-escaping: xbee_decode_frame returns 2 with FF 7E in the output and
    has eaten the head of the good frame.  The scan that restarts, as the
    claim words it, returns the good frame 08 01. *)
Theorem decode_goes_on_after_stray_delimiter :
  let x := xbee_ring [0x7E; 0x00; 0x02; 0xFF; 0x7E; 0x00; 0x02; 0x08; 0x01; 0xF6;
                      0; 0; 0; 0; 0; 0] 0 10 in
  let code := xbee_decode_frame x 16 zeros in
  let spec := scan_frame x 16 zeros in
  (fst (fst code) = 2 /\ mem_read (snd code) 2 = [0xFF; 0x7E]
   /\ ring_bytes (snd (fst code)) = [0x02; 0x08; 0x01; 0xF6])
  /\ (fst (fst spec) = 2 /\ mem_read (snd spec) 2 = [0x08; 0x01]
      /\ ring_bytes (snd (fst spec)) = []).
Proof. vm_compute. repeat split. Qed.

(** C9 fails on the code.  With 7E 00 04 FF 7E 7E 7E in a ring of 8 bytes the
    inner loop drops four bytes and still ends with the accumulator at FF;
    xbee_decode_frame then takes idx = 4 bytes from the 3 that are left, and
    recv_size wraps around to SIZE_MAX. *)
Theorem decode_breaks_ring_invariant :
  let x := xbee_ring [0x7E; 0x00; 0x04; 0xFF; 0x7E; 0x7E; 0x7E; 0] 0 7 in
  let r := xbee_decode_frame x 16 zeros in
  xbee_check x = true
  /\ fst (fst r) = 4
  /\ recv_size (snd (fst r)) = SIZE_MOD - 1
  /\ recv_max_size (snd (fst r)) = 8
  /\ xbee_check (snd (fst r)) = false.
Proof. vm_compute. repeat split. Qed.

(** C10.  xbee_decode_frame stores into the output buffer only at offsets
    below frame_out_size: whatever the ring holds, every byte of the buffer
    at or beyond frame_out_size (and every byte before the buffer) is after
    the call what it was before. *)
Theorem decode_frame_stores_within_output {U} (x : xbee_interface_t U)
    (frame_out_size : Z) (out : Z -> Z) (j : Z) :
  j < 0 \/ frame_out_size <= j ->
  snd (xbee_decode_frame x frame_out_size out) j = out j.
Proof.
  intros Hj. unfold xbee_decode_frame.
  destruct (decode_while (Z.to_nat (recv_size x)) x frame_out_size out)
    as [r |] eqn:Hr; [| reflexivity].
  apply (decode_while_stores _ _ _ _ _ Hr j Hj).
Qed.

Lemma decode_frame_stores_within_output_witness :
  let x := xbee_ring [0x7E; 0x00; 0x02; 0x08; 0x01; 0xF6; 0; 0] 0 6 in
  let out := fun _ : Z => 0xAA in
  mem_read (snd (xbee_decode_frame x 3 out)) 3 = [0x08; 0x01; 0xF6]
  /\ snd (xbee_decode_frame x 3 out) 3 = 0xAA.
Proof.
  cbv zeta. split; [vm_compute; reflexivity |].
  apply (decode_frame_stores_within_output
           (xbee_ring [0x7E; 0x00; 0x02; 0x08; 0x01; 0xF6; 0; 0] 0 6)
           3 (fun _ : Z => 0xAA) 3).
  right. vm_compute. discriminate.
Defined.

(** ** Receiving *)



(** ** Parser *)

Section ParserProperties.
Variables MODEM_STATUS TRANSMIT_STATUS AT_RESPONSE REMOTE_AT_RESPONSE
          RECEIVE RECEIVE_16_BIT : Z.
Variable shl_int : Z -> Z -> Z.

Local Abbreviation ids :=
  [MODEM_STATUS; TRANSMIT_STATUS; AT_RESPONSE; REMOTE_AT_RESPONSE;
   RECEIVE; RECEIVE_16_BIT].
Local Abbreviation parse :=
  (xbee_parse_frame MODEM_STATUS TRANSMIT_STATUS AT_RESPONSE
                    REMOTE_AT_RESPONSE RECEIVE RECEIVE_16_BIT shl_int).
Local Abbreviation wrong_length :=
  (wrong_length_for MODEM_STATUS TRANSMIT_STATUS AT_RESPONSE
                    REMOTE_AT_RESPONSE RECEIVE RECEIVE_16_BIT).

(** One branch of the switch: the code is known, the three parts of the
    statement follow from the tests made on the way. *)
Ltac parse_case Hd :=
  cbn [negb];
  split;
  [ split;
    [ intros C; first [discriminate C | tauto]
    | intros W; first
        [ reflexivity
        | exfalso;
          destruct W as [W | [[W ?] | [[W ?] | [[W ?] | [[W ?] | [[W ?] | [W ?]]]]]]];
          first [ clear Hd; lia
                | destruct Hd
                    as (? & ? & ? & ? & ? & ? & ? & ? & ? & ? & ? & ? & ? & ? & ?);
                  congruence ] ] ]
  | split;
    [ intros Hin HW; first
        [ reflexivity
        | exfalso; apply HW; tauto
        | exfalso;
          destruct Hin as [Hin | [Hin | [Hin | [Hin | [Hin | [Hin | []]]]]]];
          congruence ]
    | intros _ Hnin; first
        [ reflexivity
        | exfalso; apply Hnin;
          match goal with E : _ = _ |- _ => rewrite E; auto 10 end ] ] ].

Lemma ids_distinct :
  NoDup ids ->
  MODEM_STATUS <> TRANSMIT_STATUS /\ MODEM_STATUS <> AT_RESPONSE /\
  MODEM_STATUS <> REMOTE_AT_RESPONSE /\ MODEM_STATUS <> RECEIVE /\
  MODEM_STATUS <> RECEIVE_16_BIT /\
  TRANSMIT_STATUS <> AT_RESPONSE /\ TRANSMIT_STATUS <> REMOTE_AT_RESPONSE /\
  TRANSMIT_STATUS <> RECEIVE /\ TRANSMIT_STATUS <> RECEIVE_16_BIT /\
  AT_RESPONSE <> REMOTE_AT_RESPONSE /\ AT_RESPONSE <> RECEIVE /\
  AT_RESPONSE <> RECEIVE_16_BIT /\
  REMOTE_AT_RESPONSE <> RECEIVE /\ REMOTE_AT_RESPONSE <> RECEIVE_16_BIT /\
  RECEIVE <> RECEIVE_16_BIT.
Proof.
  intros H.
  apply NoDup_cons_iff in H as [H1 H]. apply NoDup_cons_iff in H as [H2 H].
  apply NoDup_cons_iff in H as [H3 H]. apply NoDup_cons_iff in H as [H4 H].
  apply NoDup_cons_iff in H as [H5 _].
  simpl in H1, H2, H3, H4, H5.
  repeat split; intros E; subst; tauto.
Qed.

(** The return code of xbee_parse_frame, without the parsed fields. *)
Lemma parse_frame_code (pf : xbee_parsed_frame_t) (b : list Z) :
  let n := Z.of_nat (length b) in
  let id := byte_at b 0 in
  fst (parse pf b)
  = if n <? 2 then XBEE_WRONG_LENGTH_FOR_API
    else if id =? MODEM_STATUS then
      if negb (n =? 2) then XBEE_WRONG_LENGTH_FOR_API else PARSE_OK
    else if id =? TRANSMIT_STATUS then
      if negb (n =? 3) then XBEE_WRONG_LENGTH_FOR_API else PARSE_OK
    else if id =? AT_RESPONSE then
      if n <? 5 then XBEE_WRONG_LENGTH_FOR_API else PARSE_OK
    else if id =? REMOTE_AT_RESPONSE then
      if n <? 15 then XBEE_WRONG_LENGTH_FOR_API else PARSE_OK
    else if id =? RECEIVE then
      if n <? 11 then XBEE_WRONG_LENGTH_FOR_API else PARSE_OK
    else if id =? RECEIVE_16_BIT then
      if n <? 5 then XBEE_WRONG_LENGTH_FOR_API else PARSE_OK
    else XBEE_UNKNOWN_API_ID.
Proof.
  cbv zeta. unfold xbee_parse_frame. cbn [api_id].
  repeat match goal with
         | |- context [if ?c then _ else _] => destruct c
         end; reflexivity.
Qed.

(** C4, as the code has it.  xbee_parse_frame returns the wrong-length
    error exactly when the payload has fewer than 2 bytes, or is a
    MODEM_STATUS payload of a length other than 2, or a TRANSMIT_STATUS
    payload of a length other than 3, or an AT_RESPONSE, REMOTE_AT_RESPONSE,
    RECEIVE or RECEIVE_16_BIT payload shorter than 5, 15, 11 or 5; every
    other payload of a known API ID parses (returns 0), and every payload
    of 2 bytes or more with another API ID gives the unknown-API-ID
    error. *)
Theorem parse_frame_length_discipline (pf : xbee_parsed_frame_t) (b : list Z) :
  NoDup ids ->
  let code := fst (parse pf b) in
  (code = XBEE_WRONG_LENGTH_FOR_API <-> wrong_length b)
  /\ (In (byte_at b 0) ids -> ~ wrong_length b -> code = PARSE_OK)
  /\ (2 <= Z.of_nat (length b) -> ~ In (byte_at b 0) ids ->
      code = XBEE_UNKNOWN_API_ID).
Proof.
  intros Hnd. pose proof (ids_distinct Hnd) as Hd. clear Hnd.
  cbv zeta. rewrite parse_frame_code. unfold wrong_length_for. cbn [In].
  generalize (Z.of_nat (length b)). generalize (byte_at b 0). intros id n.
  destruct (Z.ltb_spec n 2) as [Hn | Hn];
    [split; [tauto | split; [tauto | lia]] |].
  destruct (Z.eqb_spec id MODEM_STATUS) as [E | N1];
    [destruct (Z.eqb_spec n 2); parse_case Hd |].
  destruct (Z.eqb_spec id TRANSMIT_STATUS) as [E | N2];
    [destruct (Z.eqb_spec n 3); parse_case Hd |].
  destruct (Z.eqb_spec id AT_RESPONSE) as [E | N3];
    [destruct (Z.ltb_spec n 5); parse_case Hd |].
  destruct (Z.eqb_spec id REMOTE_AT_RESPONSE) as [E | N4];
    [destruct (Z.ltb_spec n 15); parse_case Hd |].
  destruct (Z.eqb_spec id RECEIVE) as [E | N5];
    [destruct (Z.ltb_spec n 11); parse_case Hd |].
  destruct (Z.eqb_spec id RECEIVE_16_BIT) as [E | N6];
    [destruct (Z.ltb_spec n 5); parse_case Hd |].
  parse_case Hd.
Qed.

(** C3 fails on the code.  For a RECEIVE_16_BIT payload the parser assigns
    b[1] << 8 to the source network address and then assigns b[2] over it:
    the address it returns is b[2] alone, whatever b[1] is. *)
Theorem parse_receive_16_bit_address (pf : xbee_parsed_frame_t) (b : list Z) :
  NoDup ids ->
  byte_at b 0 = RECEIVE_16_BIT ->
  5 <= Z.of_nat (length b) ->
  let r := parse pf b in
  fst r = PARSE_OK
  /\ rx_responder_network_address (frame_receive (snd r))
     = to_uint16 (byte_at b 2).
Proof.
  intros Hnd Hid Hlen. pose proof (ids_distinct Hnd) as Hd. clear Hnd.
  cbv zeta. unfold xbee_parse_frame. cbn [api_id]. rewrite Hid.
  rewrite (proj2 (Z.ltb_ge _ 2)) by lia.
  repeat match goal with
         | |- context [RECEIVE_16_BIT =? ?v] =>
           lazymatch v with
           | RECEIVE_16_BIT => fail
           | _ => rewrite (proj2 (Z.eqb_neq RECEIVE_16_BIT v))
               by (intros E; symmetry in E; revert E; tauto)
           end
         end.
  rewrite Z.eqb_refl, (proj2 (Z.ltb_ge _ 5)) by lia.
  split; reflexivity.
Qed.
End ParserProperties.

(** The address loop of the RECEIVE and REMOTE_AT_RESPONSE cases shifts the
    eight bytes by 72, 64, 56, 48, 40, 32, 24 and 16 bits, whatever shifting
    an int that far yields. *)
Lemma addr_loop_shift_counts (shl_int : Z -> Z -> Z) (b : list Z) (base : Z) :
  addr_loop shl_int 8 0 base b 0
  = fold_left
      (fun addr ic => Z.lor addr (to_uint64 (shl_int (byte_at b (base + fst ic))
                                                     (snd ic))))
      [(0, 72); (1, 64); (2, 56); (3, 48); (4, 40); (5, 32); (6, 24); (7, 16)] 0.
Proof. reflexivity. Qed.

Lemma xbee_ids_distinct : NoDup [0x8A; 0x89; 0x88; 0x97; 0x80; 0x81].
Proof.
  repeat (constructor; [simpl; intros H; repeat destruct H as [H | H];
                        try discriminate H; exact H |]).
  constructor.
Qed.

Lemma parse_frame_length_discipline_witness :
  fst (parse_xbee zero_frame [0x89; 0x01; 0x00]) = PARSE_OK
  /\ fst (parse_xbee zero_frame [0x42; 0x01; 0x00]) = XBEE_UNKNOWN_API_ID.
Proof.
  split.
  - apply (parse_frame_length_discipline 0x8A 0x89 0x88 0x97 0x80 0x81
             (fun v n => to_int (Z.shiftl v (Z.land n 31)))
             zero_frame [0x89; 0x01; 0x00] xbee_ids_distinct).
    + vm_compute. tauto.
    + unfold wrong_length_for. vm_compute.
      intros [H | [[H _] | [[_ H] | [[H _] | [[H _] | [[H _] | [H _]]]]]]];
        try discriminate H; apply H; reflexivity.
  - apply (parse_frame_length_discipline 0x8A 0x89 0x88 0x97 0x80 0x81
             (fun v n => to_int (Z.shiftl v (Z.land n 31)))
             zero_frame [0x42; 0x01; 0x00] xbee_ids_distinct).
    + vm_compute. discriminate.
    + vm_compute. intros H. repeat destruct H as [H | H]; try discriminate H; exact H.
Defined.

(** C4, as the claim states it, fails for the two fixed-length variants: a
    MODEM_STATUS payload of 3 bytes meets the minimum of 2 and is rejected
    with the wrong-length error, and so is a TRANSMIT_STATUS payload of 4. *)
Lemma parse_long_modem_status_counterexample :
  2 <= Z.of_nat (length [0x8A; 0x06; 0x00])
  /\ fst (parse_xbee zero_frame [0x8A; 0x06; 0x00]) = XBEE_WRONG_LENGTH_FOR_API
  /\ 3 <= Z.of_nat (length [0x89; 0x01; 0x00; 0x00])
  /\ fst (parse_xbee zero_frame [0x89; 0x01; 0x00; 0x00]) = XBEE_WRONG_LENGTH_FOR_API.
Proof. vm_compute. repeat split; discriminate. Qed.

Lemma parse_receive_16_bit_address_witness :
  let r := parse_xbee zero_frame [0x81; 0x12; 0x34; 0x28; 0x00; 0x41] in
  fst r = PARSE_OK
  /\ rx_responder_network_address (frame_receive (snd r)) = 0x34
  /\ 0x34 <> Z.lor (Z.shiftl 0x12 8) 0x34.
Proof.
  cbv zeta. unfold parse_xbee.
  destruct (parse_receive_16_bit_address 0x8A 0x89 0x88 0x97 0x80 0x81
              (fun v n => to_int (Z.shiftl v (Z.land n 31)))
              zero_frame [0x81; 0x12; 0x34; 0x28; 0x00; 0x41] xbee_ids_distinct)
    as [Hok Haddr].
  - reflexivity.
  - vm_compute. discriminate.
  - split; [exact Hok | split; [rewrite Haddr; reflexivity | discriminate]].
Defined.

(** ** Remote AT command *)

Lemma wire_frame_parts (P1 P2 : list Z) (L : Z) :
  L = Z.of_nat (length (P1 ++ P2)) ->
  (XBEE_FRAME_DELIM :: stuff [L / 256; L mod 256])
    ++ stuff P1 ++ stuff P2 ++ stuff [checksum (P1 ++ P2)]
  = wire_frame (P1 ++ P2).
Proof.
  intros ->. unfold wire_frame. rewrite !stuff_app, <- !app_assoc. reflexivity.
Qed.

(** The three writes that follow the header of a remote AT command. *)
Ltac remote_at_writes :=
  rewrite xbee_write_bytes_wire by (cbn [length]; unfold SIZE_MOD; lia);
  cbn [Z.eqb negb];
  rewrite xbee_write_bytes_wire
    by (unfold SIZE_MOD; try apply to_uint8_range; lia);
  cbn [Z.eqb negb];
  rewrite to_uint8_add_l, <- Z.add_assoc, <- sum_bytes_app;
  rewrite xbee_finish_frame_wire, checksum_code, !sent_sent;
  rewrite <- ?app_assoc;
  rewrite wire_frame_parts by (rewrite length_app; cbn [length]; lia);
  split; reflexivity.

(** C5 fails on the code for the 16-bit address.  xbee_remote_at_command
    stores the API ID, the frame id, the two address bytes, the options and
    the command into its local array and nothing into the eight addr64
    slots: the frame carries there what the array held before the call,
    bytes 2 to 9 of [buf0].  For the 64-bit broadcast address the header is
    as the claim says, 00 00 00 00 00 00 FF FF then FF FE. *)
Theorem remote_at_16_bit_addr64_left_unset (x : xbee_interface_t wire)
    (buf0 : list Z) (network_address options frame_id : Z) (cmd : string)
    (param : list Z) :
  length buf0 = 15%nat ->
  15 + Z.of_nat (length param) <= 65535 ->
  let tail := [options; char_at cmd 0; char_at cmd 1] ++ param in
  let r16 := xbee_remote_at_command wire_write x buf0 (XBEE_16_BIT network_address)
               options frame_id cmd param in
  let rbc := xbee_remote_at_command wire_write x buf0 XBEE_64_BIT_BROADCAST
               options frame_id cmd param in
  (fst r16 = 0 /\
   emitted r16
   = tx (uart x)
     ++ wire_frame ([XBEE_REMOTE_AT_COMMAND; frame_id] ++ sub_buf buf0 2 8
                    ++ [to_uint8 (Z.shiftr network_address 8);
                        Z.land network_address 0xFF] ++ tail))
  /\ (fst rbc = 0 /\
      emitted rbc
      = tx (uart x)
        ++ wire_frame ([XBEE_REMOTE_AT_COMMAND; frame_id]
                       ++ [0; 0; 0; 0; 0; 0; 0xFF; 0xFF] ++ [0xFF; 0xFE] ++ tail)).
Proof.
  intros Hb Hlen.
  do 15 (destruct buf0 as [| ? buf0]; [discriminate Hb |]).
  destruct buf0; [| discriminate Hb]. clear Hb.
  cbv zeta. unfold xbee_remote_at_command.
  rewrite (to_size_t_small (15 + _)) by (unfold SIZE_MOD; lia).
  rewrite xbee_start_frame_wire by lia. cbn [Z.eqb negb].
  set (len := 15 + Z.of_nat (length param)) in *.
  cbn [set_at fill_loop Nat.sub Nat.add].
  subst len. split; remote_at_writes.
Qed.

Lemma remote_at_16_bit_addr64_left_unset_witness :
  let r := xbee_remote_at_command wire_write (xbee_fresh idle_wire 0)
             (repeat 0 15) (XBEE_16_BIT 0x1234) 0 1 "NJ" [] in
  emitted r = [0x7E; 0x00; 0x0F; 0x17; 0x01;
               0; 0; 0; 0; 0; 0; 0; 0;
               0x12; 0x34; 0x00; 0x4E; 0x4A; 0x09]
  /\ sub_buf (emitted r) 5 8 <> [0; 0; 0; 0; 0; 0; 0xFF; 0xFE].
Proof.
  cbv zeta.
  destruct (remote_at_16_bit_addr64_left_unset (xbee_fresh idle_wire 0)
              (repeat 0 15) 0x1234 0 1 "NJ" []) as [[_ Hwire] _].
  - reflexivity.
  - vm_compute. discriminate.
  - rewrite Hwire. split; [vm_compute; reflexivity | vm_compute; discriminate].
Defined.

(** * Further properties of the code *)

(** ** Receive ring *)

Lemma wrap_once a m : 0 <= a < 2 * m -> 0 < m ->
  (if a >=? m then a - m else a) = a mod m.
Proof.
  intros Ha Hm. destruct (Z.geb_spec a m).
  - apply Z.mod_unique with (q := 1); lia.
  - symmetry. apply Z.mod_small. lia.
Qed.

(** xbee_get_byte reads the storage at (recv_idx + i) mod recv_max_size:
    one subtraction is all the wrap-around an offset below the capacity
    needs. *)
Lemma get_byte_mod {U} (x : xbee_interface_t U) (i : Z) :
  ring_ok x -> 0 <= i < recv_max_size x ->
  xbee_get_byte x i
  = byte_at (recv x) ((recv_idx x + i) mod recv_max_size x).
Proof.
  intros (Hi & Hs & Hm) Hlt. pose proof int_max_lt_size_mod as [HM0 HM].
  unfold xbee_get_byte.
  rewrite (to_size_t_small (i + recv_idx x)) by lia.
  rewrite <- (wrap_once (recv_idx x + i) (recv_max_size x)) by lia.
  replace (i + recv_idx x) with (recv_idx x + i) by lia.
  destruct (Z.geb_spec (recv_idx x + i) (recv_max_size x));
    [rewrite to_size_t_small by lia |]; reflexivity.
Qed.

(** X1.  What xbee_get_byte sees of the ring: the recv_size storage cells from
    recv_idx on, going round the end of the storage to its start; no cell
    is read twice and none outside the storage. *)
Theorem xbee_get_byte_reads_window {U} (x : xbee_interface_t U) :
  ring_ok x -> length (recv x) = Z.to_nat (recv_max_size x) ->
  ring_bytes x = sub_buf (recv x ++ recv x) (recv_idx x) (recv_size x).
Proof.
  intros Hok Hlen. pose proof Hok as (Hi & Hs & Hm). unfold sub_buf.
  apply nth_ext with (d := 0) (d' := 0).
  - rewrite length_firstn, length_skipn, length_app, ring_bytes_length. lia.
  - intros n Hn. rewrite ring_bytes_length in Hn.
    rewrite <- ring_bytes_nth by exact Hn.
    rewrite get_byte_mod by (try assumption; lia).
    rewrite nth_firstn.
    destruct (Nat.ltb_spec n (Z.to_nat (recv_size x))) as [_ | Hge]; [| lia].
    rewrite nth_skipn. unfold byte_at.
    rewrite <- (wrap_once (recv_idx x + Z.of_nat n) (recv_max_size x)) by lia.
    destruct (Z.geb_spec (recv_idx x + Z.of_nat n) (recv_max_size x)).
    + rewrite app_nth2 by lia. f_equal. lia.
    + rewrite app_nth1 by lia. f_equal. lia.
Qed.

Lemma xbee_get_byte_reads_window_witness :
  ring_bytes (xbee_ring [10; 11; 12; 13; 14; 15; 16; 17] 6 5)
  = [16; 17; 10; 11; 12].
Proof.
  rewrite (xbee_get_byte_reads_window
             (xbee_ring [10; 11; 12; 13; 14; 15; 16; 17] 6 5)).
  - reflexivity.
  - unfold ring_ok. vm_compute. repeat split; discriminate.
  - reflexivity.
Defined.

(** Two views of one storage whose heads are [k] bytes apart hold the same
    bytes, [k] offsets apart. *)
Lemma ring_bytes_shift {U} (x x' : xbee_interface_t U) (k : Z) :
  ring_ok x -> ring_ok x' ->
  recv x' = recv x -> recv_max_size x' = recv_max_size x ->
  recv_idx x' = (recv_idx x + k) mod recv_max_size x ->
  recv_size x' = recv_size x - k -> 0 <= k ->
  ring_bytes x' = skipn (Z.to_nat k) (ring_bytes x).
Proof.
  intros Hok Hok' Hrecv Hmax Hidx Hsize Hk.
  pose proof Hok as (Hi & Hs & Hm). pose proof Hok' as (Hi' & Hs' & Hm').
  apply nth_ext with (d := 0) (d' := 0).
  - rewrite length_skipn, !ring_bytes_length. lia.
  - intros n Hn. rewrite ring_bytes_length in Hn.
    rewrite nth_skipn.
    rewrite <- !ring_bytes_nth by lia.
    rewrite !get_byte_mod by (try assumption; lia).
    rewrite Hrecv, Hmax, Hidx. f_equal.
    rewrite Zplus_mod_idemp_l. f_equal. lia.
Qed.

Lemma drop_ring_bytes {U} (x : xbee_interface_t U) :
  ring_ok x -> 1 <= recv_size x ->
  ring_bytes (xbee_drop_byte x) = tl (ring_bytes x).
Proof.
  intros Hok H1. destruct (drop_ok x Hok H1) as [Hok' Hsz].
  assert (Hidx : recv_idx (xbee_drop_byte x)
                 = (recv_idx x + 1) mod recv_max_size x).
  { destruct Hok as (Hi & Hs & Hm). pose proof int_max_lt_size_mod as [HM0 HM].
    unfold xbee_drop_byte. cbn [recv_idx].
    rewrite to_size_t_small by lia.
    rewrite <- (wrap_once (recv_idx x + 1) (recv_max_size x)) by lia.
    destruct (Z.geb_spec (recv_idx x + 1) (recv_max_size x)); lia. }
  rewrite (ring_bytes_shift x (xbee_drop_byte x) 1 Hok Hok' eq_refl eq_refl
             Hidx Hsz ltac:(lia)).
  destruct (ring_bytes x); reflexivity.
Qed.

(** [k] drops on a ring that holds at least [k] bytes. *)
Lemma dropped_ring {U} (k : nat) (x : xbee_interface_t U) :
  ring_ok x -> Z.of_nat k <= recv_size x ->
  ring_ok (dropped k x)
  /\ recv_size (dropped k x) = recv_size x - Z.of_nat k
  /\ ring_bytes (dropped k x) = skipn k (ring_bytes x).
Proof.
  intros Hok. induction k as [| k IH]; intros Hk.
  - change (dropped 0 x) with x. rewrite Z.sub_0_r. auto.
  - destruct (IH ltac:(lia)) as (Hok' & Hsz & Hb).
    rewrite dropped_S.
    destruct (drop_ok _ Hok' ltac:(lia)) as [Hok2 Hsz2].
    split; [exact Hok2 | split; [lia |]].
    rewrite drop_ring_bytes, Hb by (try assumption; lia).
    rewrite <- (skipn_skipn 1 k). destruct (skipn k (ring_bytes x)); reflexivity.
Qed.

(** X2.  Dropping a byte removes the oldest byte and nothing else: afterwards
    the ring holds the tail of what it held, one byte less, and its
    invariant still holds, also when the head wraps to the start of the
    storage. *)
Theorem xbee_drop_byte_tail {U} (x : xbee_interface_t U) :
  ring_ok x -> 1 <= recv_size x ->
  ring_bytes (xbee_drop_byte x) = tl (ring_bytes x)
  /\ ring_ok (xbee_drop_byte x)
  /\ recv_size (xbee_drop_byte x) = recv_size x - 1.
Proof.
  intros Hok H1. destruct (drop_ok x Hok H1) as [Hok' Hsz].
  split; [apply drop_ring_bytes; assumption | split; assumption].
Qed.

Lemma xbee_drop_byte_tail_witness :
  ring_bytes (xbee_drop_byte (xbee_ring [10; 11; 12; 13] 3 3)) = [10; 11].
Proof.
  destruct (xbee_drop_byte_tail (xbee_ring [10; 11; 12; 13] 3 3)) as (H & _).
  - unfold ring_ok. vm_compute. repeat split; discriminate.
  - vm_compute. discriminate.
  - rewrite H. reflexivity.
Defined.

(** Taking [k] bytes from the front, as a successful decode does. *)
Lemma consumed_ring_bytes {U} (x : xbee_interface_t U) (k : Z) :
  ring_ok x -> 0 <= k <= recv_size x ->
  ring_bytes (consumed x k) = skipn (Z.to_nat k) (ring_bytes x)
  /\ ring_ok (consumed x k).
Proof.
  intros Hok Hk. pose proof Hok as (Hi & Hs & Hm).
  pose proof int_max_lt_size_mod as [HM0 HM].
  assert (Hidx : recv_idx (consumed x k) = (recv_idx x + k) mod recv_max_size x).
  { unfold consumed. cbn [recv_idx].
    rewrite (to_size_t_small (recv_idx x + k)) by lia.
    rewrite <- (wrap_once (recv_idx x + k) (recv_max_size x)) by lia.
    destruct (Z.geb_spec (recv_idx x + k) (recv_max_size x));
      [rewrite to_size_t_small by lia |]; reflexivity. }
  assert (Hsz : recv_size (consumed x k) = recv_size x - k).
  { unfold consumed. cbn [recv_size]. apply to_size_t_small. lia. }
  assert (Hok' : ring_ok (consumed x k)).
  { unfold ring_ok. rewrite Hidx, Hsz.
    change (recv_max_size (consumed x k)) with (recv_max_size x).
    pose proof (Z.mod_pos_bound (recv_idx x + k) (recv_max_size x) ltac:(lia)).
    lia. }
  split; [| exact Hok'].
  apply (ring_bytes_shift x (consumed x k) k Hok Hok'); try reflexivity;
    try assumption; lia.
Qed.

(** ** Scanner: resynchronisation and consecutive frames *)

Lemma xbee_decode_frame_skip {U} (x : xbee_interface_t U) (frame_out_size : Z)
    (out : Z -> Z) :
  ring_ok x -> 6 <= recv_size x ->
  xbee_get_byte x 0 <> XBEE_FRAME_DELIM ->
  xbee_decode_frame x frame_out_size out
  = xbee_decode_frame (xbee_drop_byte x) frame_out_size out.
Proof.
  intros Hok H6 Hne. destruct (drop_ok x Hok ltac:(lia)) as [_ Hsz].
  unfold xbee_decode_frame at 1.
  replace (Z.to_nat (recv_size x)) with (S (Z.to_nat (recv_size x - 1))) by lia.
  cbn [decode_while]. rewrite geb_true by lia.
  apply Z.eqb_neq in Hne. rewrite Hne. cbn [negb].
  unfold xbee_decode_frame. rewrite Hsz.
  destruct (decode_while (Z.to_nat (recv_size x - 1)) (xbee_drop_byte x)
                         frame_out_size out) as [r |] eqn:Hr; [reflexivity |].
  exfalso.
  destruct (drop_ok x Hok ltac:(lia)) as [Hok' _].
  destruct (decode_while_inv (Z.to_nat (recv_size x - 1)) (xbee_drop_byte x)
              frame_out_size out Hok' ltac:(lia)) as (? & ? & ? & Heq & _).
  congruence.
Qed.

Lemma length_wire_frame_split (P : list Z) :
  let len := Z.of_nat (length P) in
  length ((([XBEE_FRAME_DELIM] ++ stuff_byte (len / 256))
            ++ stuff_byte (len mod 256)) ++ stuff (P ++ [checksum P]))
  = length (wire_frame P).
Proof.
  intros len. rewrite <- (app_nil_r (wire_frame P)), wire_frame_split.
  fold len. rewrite <- !app_assoc, app_nil_r. reflexivity.
Qed.

(** The state a decode leaves when the ring starts with a frame: the frame
    is taken from the front of the ring, nothing else changes. *)
Lemma decode_wire_frame_state {U} (x : xbee_interface_t U) (P post : list Z)
    (frame_out_size : Z) (out : Z -> Z) :
  6 <= recv_size x < SIZE_MOD ->
  Z.of_nat (length P) <= 65535 ->
  ring_bytes x = wire_frame P ++ post ->
  Z.of_nat (length P) + 4 <= recv_max_size x ->
  Z.of_nat (length P) + 1 <= frame_out_size ->
  exists out',
    xbee_decode_frame x frame_out_size out
    = (Z.of_nat (length P), consumed x (Z.of_nat (length (wire_frame P))), out')
    /\ mem_read out' (length P) = P.
Proof.
  intros Hsz HP Hring Hcap Hout.
  assert (Hsz' : 0 <= recv_size x < SIZE_MOD) by lia.
  rewrite <- length_wire_frame_split. cbv zeta.
  rewrite wire_frame_split in Hring. cbv zeta in Hring.
  set (len := Z.of_nat (length P)) in *.
  set (hi := stuff_byte (len / 256)) in *.
  set (lo := stuff_byte (len mod 256)) in *.
  set (body := stuff (P ++ [checksum P])) in *.
  unfold xbee_decode_frame.
  destruct (Z.to_nat (recv_size x)) as [| fuel] eqn:Hfuel; [lia |].
  cbn [decode_while]. rewrite geb_true by lia.
  pose proof (ring_bytes_at x [] _ XBEE_FRAME_DELIM Hring) as Hhead.
  cbn [length Z.of_nat] in Hhead. rewrite Hhead, Z.eqb_refl. cbn [negb].
  pose proof (xbee_get_next_byte_stuffed x [XBEE_FRAME_DELIM] _ (len / 256) 0
                Hsz' Hring) as Hlen1.
  change (Z.of_nat (length [XBEE_FRAME_DELIM])) with 1 in Hlen1.
  rewrite Hlen1. cbn [Z.eqb negb]. fold hi.
  rewrite app_assoc in Hring.
  rewrite (xbee_get_next_byte_stuffed x ([XBEE_FRAME_DELIM] ++ hi)
             _ (len mod 256) 0 Hsz' Hring).
  cbn [Z.eqb negb]. fold lo.
  assert (Hlen : to_uint16 (Z.lor (Z.shiftl (len / 256) 8) (len mod 256)) = len).
  { rewrite lor_shiftl_8.
    - rewrite Z.mul_comm, <- Z.div_mod by lia. unfold to_uint16.
      apply Z.mod_small. lia.
    - apply Z.div_pos; lia.
    - apply Z.mod_pos_bound. lia. }
  rewrite Hlen.
  rewrite !to_size_t_small by (unfold SIZE_MOD; lia).
  rewrite !gtb_false by lia. cbn [orb].
  replace (Z.to_nat (len + 1)) with (length (P ++ [checksum P]))
    by (rewrite length_app; simpl; lia).
  rewrite app_assoc in Hring.
  destruct (decode_for_stuffed x (P ++ [checksum P]) Hsz'
              (([XBEE_FRAME_DELIM] ++ hi) ++ lo) post 0 out 0)
    as (out' & Heq & Hrd & _); try lia; try exact Hring.
  { rewrite length_app. simpl. unfold SIZE_MOD. lia. }
  rewrite Heq, checksum_closes. cbn [Z.eqb Pos.eqb].
  exists out'. split; [reflexivity |].
  apply mem_read_nth. intros k Hk. rewrite Hrd.
  - apply app_nth1. exact Hk.
  - rewrite length_app. lia.
Qed.

Lemma decode_after_garbage {U} (garbage : list Z) :
  forall (x : xbee_interface_t U) (P post : list Z) (frame_out_size : Z)
         (out : Z -> Z),
    ring_ok x ->
    Forall (fun b => b <> XBEE_FRAME_DELIM) garbage ->
    2 <= Z.of_nat (length P) <= 65535 ->
    ring_bytes x = garbage ++ wire_frame P ++ post ->
    Z.of_nat (length P) + 4 <= recv_max_size x ->
    Z.of_nat (length P) + 1 <= frame_out_size ->
    let r := xbee_decode_frame x frame_out_size out in
    fst (fst r) = Z.of_nat (length P)
    /\ mem_read (snd r) (length P) = P
    /\ ring_bytes (snd (fst r)) = post
    /\ ring_ok (snd (fst r)).
Proof.
  induction garbage as [| g garbage IH];
    intros x P post fos out Hok Hg HP Hring Hcap Hfit; cbv zeta.
  - cbn [app] in Hring.
    pose proof Hok as (Hi & Hs & Hm). pose proof int_max_lt_size_mod as [HM0 HM].
    pose proof (ring_bytes_size x _ (proj1 Hs) Hring) as Hrs.
    pose proof (length_wire_frame P) as Hlen.
    rewrite length_app in Hrs.
    destruct (decode_wire_frame_state x P post fos out ltac:(lia) ltac:(lia)
                Hring Hcap Hfit) as (out' & Heq & Hmem).
    rewrite Heq. cbn [fst snd].
    destruct (consumed_ring_bytes x (Z.of_nat (length (wire_frame P))) Hok
                ltac:(lia)) as [Hcons Hok'].
    split; [reflexivity | split; [exact Hmem | split; [| exact Hok']]].
    rewrite Hcons, Hring, Nat2Z.id, skipn_app, skipn_all, Nat.sub_diag.
    reflexivity.
  - pose proof Hok as (Hi & Hs & Hm).
    pose proof (ring_bytes_size x _ (proj1 Hs) Hring) as Hrs.
    pose proof (length_wire_frame P) as Hlen.
    rewrite !length_app in Hrs. cbn [length] in Hrs.
    inversion Hg as [| ? ? Hne Hg']; subst.
    pose proof (ring_bytes_at x [] _ g Hring) as Hhead.
    cbn [length Z.of_nat] in Hhead.
    rewrite xbee_decode_frame_skip by (try assumption; try lia; congruence).
    pose proof (drop_ring_bytes x Hok ltac:(lia)) as Htl.
    destruct (drop_ok x Hok ltac:(lia)) as [Hok' _].
    rewrite Hring in Htl. cbn [app tl] in Htl.
    apply (IH (xbee_drop_byte x) P post fos out Hok' Hg' HP Htl Hcap Hfit).
Qed.

(** X3.  Resynchronisation.  Bytes in front of a frame that are not the start
    delimiter are dropped one by one: the scanner returns the payload of the
    frame behind them and leaves in the ring exactly what followed that
    frame, with the ring invariant intact. *)
Theorem decode_frame_skips_garbage {U} (x : xbee_interface_t U)
    (garbage P post : list Z) (frame_out_size : Z) (out : Z -> Z) :
  ring_ok x ->
  Forall (fun b => b <> XBEE_FRAME_DELIM) garbage ->
  2 <= Z.of_nat (length P) <= 65535 ->
  ring_bytes x = garbage ++ wire_frame P ++ post ->
  Z.of_nat (length P) + 4 <= recv_max_size x ->
  Z.of_nat (length P) + 1 <= frame_out_size ->
  let r := xbee_decode_frame x frame_out_size out in
  fst (fst r) = Z.of_nat (length P)
  /\ mem_read (snd r) (length P) = P
  /\ ring_bytes (snd (fst r)) = post
  /\ ring_ok (snd (fst r)).
Proof. intros. apply (decode_after_garbage garbage); assumption. Qed.

Lemma decode_frame_skips_garbage_witness :
  let x := xbee_ring [0x41; 0x00; 0x7D; 0x7E; 0x00; 0x02; 0x08; 0x01; 0xF6;
                      0x55; 0; 0] 0 10 in
  let r := xbee_decode_frame x 3 zeros in
  fst (fst r) = 2 /\ mem_read (snd r) 2 = [0x08; 0x01]
  /\ ring_bytes (snd (fst r)) = [0x55].
Proof.
  cbv zeta.
  destruct (decode_frame_skips_garbage
              (xbee_ring [0x41; 0x00; 0x7D; 0x7E; 0x00; 0x02; 0x08; 0x01; 0xF6;
                          0x55; 0; 0] 0 10)
              [0x41; 0x00; 0x7D] [0x08; 0x01] [0x55] 3 zeros) as (H1 & H2 & H3 & _).
  - unfold ring_ok. vm_compute. repeat split; discriminate.
  - repeat constructor; discriminate.
  - vm_compute. split; discriminate.
  - vm_compute. reflexivity.
  - vm_compute. discriminate.
  - vm_compute. discriminate.
  - auto.
Defined.

(** X4.  Two frames in the ring, with or without delimiter-free bytes before
    each, come out in wire order: the first call returns the first payload,
    the next call the second, and what followed is left in the ring.  Each
    payload has 2 to 65535 bytes and fits: |P| + 4 <= recv_max_size and
    |P| + 1 <= frame_out_size. *)
Theorem decode_two_frames_in_order {U} (x : xbee_interface_t U)
    (g1 P1 g2 P2 post : list Z) (frame_out_size : Z) (out : Z -> Z) :
  ring_ok x ->
  Forall (fun b => b <> XBEE_FRAME_DELIM) g1 ->
  Forall (fun b => b <> XBEE_FRAME_DELIM) g2 ->
  2 <= Z.of_nat (length P1) <= 65535 ->
  2 <= Z.of_nat (length P2) <= 65535 ->
  ring_bytes x = g1 ++ wire_frame P1 ++ g2 ++ wire_frame P2 ++ post ->
  Z.of_nat (length P1) + 4 <= recv_max_size x ->
  Z.of_nat (length P2) + 4 <= recv_max_size x ->
  Z.of_nat (length P1) + 1 <= frame_out_size ->
  Z.of_nat (length P2) + 1 <= frame_out_size ->
  let r1 := xbee_decode_frame x frame_out_size out in
  let r2 := xbee_decode_frame (snd (fst r1)) frame_out_size (snd r1) in
  fst (fst r1) = Z.of_nat (length P1) /\ mem_read (snd r1) (length P1) = P1
  /\ fst (fst r2) = Z.of_nat (length P2) /\ mem_read (snd r2) (length P2) = P2
  /\ ring_bytes (snd (fst r2)) = post.
Proof.
  intros Hok Hg1 Hg2 HP1 HP2 Hring Hc1 Hc2 Hf1 Hf2. cbv zeta.
  destruct (decode_after_garbage g1 x P1 (g2 ++ wire_frame P2 ++ post)
              frame_out_size out Hok Hg1 HP1 Hring Hc1 Hf1)
    as (Hr1 & Hm1 & Hring1 & Hok1).
  assert (Hmax : recv_max_size (snd (fst (xbee_decode_frame x frame_out_size out)))
                 = recv_max_size x).
  { destruct (xbee_decode_frame_inv x frame_out_size out Hok)
      as (? & ? & ? & Heq & _ & _ & _ & Hm & _).
    rewrite Heq. exact Hm. }
  destruct (decode_after_garbage g2 _ P2 post frame_out_size
              (snd (xbee_decode_frame x frame_out_size out))
              Hok1 Hg2 HP2 Hring1 ltac:(lia) Hf2)
    as (Hr2 & Hm2 & Hring2 & _).
  auto.
Qed.

Lemma decode_two_frames_in_order_witness :
  let x := xbee_ring [0x02; 0x08; 0x01; 0xF6; 0x33; 0x7E; 0x00; 0x02;
                      0x7D; 0x5E; 0x01; 0x80; 0; 0; 0x7E; 0x00] 14 14 in
  let r1 := xbee_decode_frame x 3 zeros in
  let r2 := xbee_decode_frame (snd (fst r1)) 3 (snd r1) in
  mem_read (snd r1) 2 = [0x08; 0x01] /\ mem_read (snd r2) 2 = [0x7E; 0x01].
Proof.
  cbv zeta.
  destruct (decode_two_frames_in_order
              (xbee_ring [0x02; 0x08; 0x01; 0xF6; 0x33; 0x7E; 0x00; 0x02;
                          0x7D; 0x5E; 0x01; 0x80; 0; 0; 0x7E; 0x00] 14 14)
              [] [0x08; 0x01] [0x33] [0x7E; 0x01] [] 3 zeros)
    as (_ & H1 & _ & H2 & _).
  - unfold ring_ok. vm_compute. repeat split; discriminate.
  - constructor.
  - repeat constructor; discriminate.
  - vm_compute. split; discriminate.
  - vm_compute. split; discriminate.
  - vm_compute. reflexivity.
  - vm_compute. discriminate.
  - vm_compute. discriminate.
  - vm_compute. discriminate.
  - vm_compute. discriminate.
  - split; assumption.
Defined.

(** ** Scanner: a frame that has not arrived completely *)

Lemma stuff_byte_clean (b : Z) :
  Forall (fun c => c <> 0x7E /\ c <> 0x11 /\ c <> 0x13) (stuff_byte b).
Proof.
  unfold stuff_byte. destruct (in_dec Z.eq_dec b escape_set) as [Hin | Hout].
  - unfold escape_set in Hin. simpl in Hin.
    destruct Hin as [<- | [<- | [<- | [<- | []]]]];
      repeat constructor; discriminate.
  - repeat constructor; intros ->; apply Hout; simpl; tauto.
Qed.

Lemma stuff_clean (l : list Z) :
  Forall (fun c => c <> 0x7E /\ c <> 0x11 /\ c <> 0x13) (stuff l).
Proof.
  induction l as [| b l IH]; [constructor |].
  change (stuff (b :: l)) with (stuff_byte b ++ stuff l).
  apply Forall_app. split; [apply stuff_byte_clean | exact IH].
Qed.

Lemma stuff_firstn (M : list Z) :
  forall k, (k < length (stuff M))%nat ->
    exists M1 b M2 part,
      M = M1 ++ b :: M2
      /\ firstn k (stuff M) = stuff M1 ++ part
      /\ (part = [] \/ part = [XBEE_FRAME_ESCAPE]).
Proof.
  induction M as [| b M IH]; intros k Hk; [simpl in Hk; lia |].
  change (stuff (b :: M)) with (stuff_byte b ++ stuff M) in *.
  rewrite length_app in Hk. rewrite firstn_app.
  destruct (Nat.lt_ge_cases k (length (stuff_byte b))) as [Hlt | Hge].
  - replace (k - length (stuff_byte b))%nat with O by lia.
    rewrite firstn_O, app_nil_r.
    exists [], b, M. unfold stuff_byte in *.
    destruct (in_dec Z.eq_dec b escape_set); cbn [length] in Hlt.
    + destruct k as [| [| k]]; [| | lia].
      * exists []. auto.
      * exists [XBEE_FRAME_ESCAPE]. auto.
    + destruct k as [| k]; [| lia]. exists []. auto.
  - rewrite firstn_all2 by exact Hge.
    destruct (IH (k - length (stuff_byte b))%nat ltac:(lia))
      as (M1 & c & M2 & part & HM & Hf & Hp).
    exists (b :: M1), c, M2, part. rewrite Hf, HM.
    change (stuff (b :: M1)) with (stuff_byte b ++ stuff M1).
    rewrite <- app_assoc. auto.
Qed.

(** No start delimiter behind the first byte: the look-ahead of the
    scanner says no. *)
Lemma find_delim_loop_false {U} (x : xbee_interface_t U) (h : Z) (t : list Z) :
  0 <= recv_size x < SIZE_MOD ->
  ring_bytes x = h :: t ->
  Forall (fun c => c <> XBEE_FRAME_DELIM) t ->
  forall n i, 1 <= i -> find_delim_loop n i x = false.
Proof.
  intros Hsz Hring Ht. induction n as [| n IH]; intros i Hi; [reflexivity |].
  cbn [find_delim_loop].
  destruct (Z.ltb_spec i (recv_size x)) as [Hlt | Hge]; [| reflexivity].
  assert (Hb : xbee_get_byte x i <> XBEE_FRAME_DELIM).
  { rewrite <- (Z2Nat.id i) by lia. rewrite ring_bytes_nth by lia.
    rewrite Hring.
    destruct (Z.to_nat i) as [| j] eqn:Hj; [lia |]. cbn [nth].
    apply (proj1 (Forall_nth _ t) Ht).
    pose proof (ring_bytes_length x) as Hl. rewrite Hring in Hl.
    cbn [length] in Hl. lia. }
  apply Z.eqb_neq in Hb. rewrite Hb.
  apply IH. rewrite to_size_t_small by lia. lia.
Qed.

(** Un-escaping a stuffed run with iterations to spare: the inner loop
    goes on behind the run. *)
Lemma decode_for_stuffed_then {U} (x : xbee_interface_t U) (L : list Z) (m : nat) :
  0 <= recv_size x < SIZE_MOD ->
  forall (pre post : list Z) (i : Z) (out : Z -> Z) (accum : Z),
    0 <= i -> i + Z.of_nat (length L) < SIZE_MOD ->
    ring_bytes x = pre ++ stuff L ++ post ->
    exists out' accum',
      decode_for (length L + m) i x (Z.of_nat (length pre)) out accum
      = decode_for m (i + Z.of_nat (length L)) x
                   (Z.of_nat (length (pre ++ stuff L))) out' accum'.
Proof.
  intros Hsz. induction L as [| b L IH]; intros pre post i out accum Hi Hil Hring.
  - exists out, accum. cbn [length stuff flat_map Nat.add Z.of_nat].
    rewrite app_nil_r, Z.add_0_r. reflexivity.
  - change (stuff (b :: L)) with (stuff_byte b ++ stuff L) in *.
    rewrite <- app_assoc in Hring.
    cbn [decode_for length Nat.add].
    rewrite (xbee_get_next_byte_stuffed x pre _ b _ Hsz Hring).
    change (0 =? XBEE_NOT_ENOUGH_DATA) with false. cbn [Z.eqb negb].
    cbn [length] in Hil.
    rewrite to_size_t_small by lia.
    destruct (IH (pre ++ stuff_byte b) post (i + 1) (mem_write out i b)
                 (to_uint8 (accum + mem_write out i b i)))
      as (out' & accum' & Heq);
      try lia; [rewrite <- app_assoc; exact Hring |].
    exists out', accum'. rewrite Heq, <- !app_assoc.
    f_equal. lia.
Qed.

(** The ring ends in the middle of the data: the inner loop finds too
    little, the ring is not full and no other delimiter is waiting, so it
    returns 0 and leaves the ring alone. *)
Lemma decode_for_starved {U} (x : xbee_interface_t U) (pre part : list Z)
    (m : nat) (i : Z) (out : Z -> Z) (accum : Z) :
  0 <= recv_size x < SIZE_MOD ->
  ring_bytes x = pre ++ part ->
  part = [] \/ part = [XBEE_FRAME_ESCAPE] ->
  recv_size x <> recv_max_size x ->
  xbee_find_if_have_next_delim x = false ->
  exists out',
    decode_for (S m) i x (Z.of_nat (length pre)) out accum
    = (Some 0, x, Z.of_nat (length pre), out', accum).
Proof.
  intros Hsz Hring Hpart Hfull Hfind.
  pose proof (ring_bytes_size x _ (proj1 Hsz) Hring) as Hlen.
  rewrite length_app in Hlen.
  apply Z.eqb_neq in Hfull.
  cbn [decode_for]. unfold xbee_get_next_byte.
  destruct Hpart as [-> | ->]; cbn [length] in Hlen.
  - rewrite geb_true by lia.
    change (XBEE_NOT_ENOUGH_DATA =? XBEE_NOT_ENOUGH_DATA) with true.
    cbn iota. rewrite Hfull, Hfind. eexists. reflexivity.
  - rewrite geb_false by lia.
    rewrite (ring_bytes_at x pre [] _ Hring).
    change (XBEE_FRAME_ESCAPE =? XBEE_FRAME_DELIM) with false.
    rewrite Z.eqb_refl. cbn iota.
    rewrite to_size_t_small by lia. rewrite geb_true by lia.
    change (XBEE_NOT_ENOUGH_DATA =? XBEE_NOT_ENOUGH_DATA) with true.
    cbn iota. rewrite Hfull, Hfind. eexists. reflexivity.
Qed.

Lemma decode_partial_frame {U} (x : xbee_interface_t U) (P : list Z)
    (k : nat) (frame_out_size : Z) (out : Z -> Z) :
  0 <= recv_size x < SIZE_MOD ->
  recv_size x <> recv_max_size x ->
  Z.of_nat (length P) <= 65535 ->
  (k < length (wire_frame P))%nat ->
  ring_bytes x = firstn k (wire_frame P) ->
  Z.of_nat (length P) + 4 <= recv_max_size x ->
  Z.of_nat (length P) + 1 <= frame_out_size ->
  let r := xbee_decode_frame x frame_out_size out in
  fst (fst r) = 0 /\ snd (fst r) = x.
Proof.
  intros Hsz Hfull HP Hk Hring Hcap Hfit. cbv zeta.
  pose proof (ring_bytes_size x _ (proj1 Hsz) Hring) as Hrs.
  rewrite length_firstn, Nat.min_l in Hrs by lia.
  unfold xbee_decode_frame.
  destruct (Z.ltb_spec (recv_size x) 6) as [Hlt | H6].
  { destruct (Z.to_nat (recv_size x)); cbn [decode_while];
      rewrite geb_false by lia; auto. }
  unfold wire_frame in Hring, Hk.
  set (len := Z.of_nat (length P)) in *.
  destruct k as [| k]; [lia |].
  cbn [firstn] in Hring. cbn [length] in Hk.
  destruct (stuff_firstn ([len / 256; len mod 256] ++ P ++ [checksum P]) k
              ltac:(lia)) as (M1 & b & M2 & part & HM & Hf & Hp).
  rewrite Hf in Hring.
  assert (Hpl : (length part <= 1)%nat) by (destruct Hp as [-> | ->]; simpl; lia).
  pose proof (f_equal (@length Z) Hf) as Hfl.
  rewrite length_firstn, Nat.min_l, length_app in Hfl by lia.
  pose proof (length_stuff M1) as HlM1.
  destruct M1 as [| hi [| lo L1]]; cbn [length] in HlM1; try lia.
  cbn [app] in HM. injection HM as Hhi Hlo HL. subst hi lo.
  assert (Hfind : xbee_find_if_have_next_delim x = false).
  { unfold xbee_find_if_have_next_delim.
    apply (find_delim_loop_false x _ _ Hsz Hring); [| lia].
    apply Forall_app. split.
    - eapply Forall_impl; [| apply stuff_clean]. cbv beta. intros c Hc.
      unfold XBEE_FRAME_DELIM. tauto.
    - destruct Hp as [-> | ->]; repeat constructor; discriminate. }
  change (stuff (len / 256 :: len mod 256 :: L1))
    with (stuff_byte (len / 256) ++ stuff_byte (len mod 256) ++ stuff L1) in Hring.
  change (XBEE_FRAME_DELIM :: ?l) with ([XBEE_FRAME_DELIM] ++ l) in Hring.
  rewrite <- !app_assoc in Hring.
  destruct (Z.to_nat (recv_size x)) as [| fuel] eqn:Hfuel; [lia |].
  cbn [decode_while]. rewrite geb_true by lia.
  pose proof (ring_bytes_at x [] _ XBEE_FRAME_DELIM Hring) as Hhead.
  cbn [length Z.of_nat] in Hhead. rewrite Hhead, Z.eqb_refl. cbn [negb].
  pose proof (xbee_get_next_byte_stuffed x [XBEE_FRAME_DELIM] _ (len / 256) 0
                Hsz Hring) as Hlen1.
  change (Z.of_nat (length [XBEE_FRAME_DELIM])) with 1 in Hlen1.
  rewrite Hlen1. cbn [Z.eqb negb].
  rewrite app_assoc in Hring.
  rewrite (xbee_get_next_byte_stuffed x ([XBEE_FRAME_DELIM] ++ stuff_byte (len / 256))
             _ (len mod 256) 0 Hsz Hring).
  cbn [Z.eqb negb].
  assert (Hlen : to_uint16 (Z.lor (Z.shiftl (len / 256) 8) (len mod 256)) = len).
  { rewrite lor_shiftl_8.
    - rewrite Z.mul_comm, <- Z.div_mod by lia. unfold to_uint16.
      apply Z.mod_small. lia.
    - apply Z.div_pos; lia.
    - apply Z.mod_pos_bound. lia. }
  rewrite Hlen.
  rewrite !to_size_t_small by (unfold SIZE_MOD; lia).
  rewrite !gtb_false by lia. cbn [orb].
  pose proof (f_equal (@length Z) HL) as HLl.
  rewrite !length_app in HLl. cbn [length] in HLl.
  assert (HL1 : Z.of_nat (length L1) + Z.of_nat (S (length M2)) = len + 1)
    by (unfold len; lia).
  replace (Z.to_nat (len + 1)) with (length L1 + S (length M2))%nat by lia.
  rewrite app_assoc in Hring.
  destruct (decode_for_stuffed_then x L1 (S (length M2)) Hsz
              (([XBEE_FRAME_DELIM] ++ stuff_byte (len / 256))
                 ++ stuff_byte (len mod 256)) part 0 out 0)
    as (out1 & accum1 & Heq); try lia; try exact Hring.
  rewrite Heq. rewrite app_assoc in Hring.
  destruct (decode_for_starved x _ part (length M2) (0 + Z.of_nat (length L1))
              out1 accum1 Hsz Hring Hp Hfull Hfind) as (out2 & Heq2).
  rewrite Heq2. auto.
Qed.

(** X5.  Partial delivery.  Let the ring satisfy its invariant and not be
    full, and let it hold only a proper prefix of the frame of a payload P
    that the call could return: |P| + 4 <= recv_max_size and
    |P| + 1 <= frame_out_size (a frame announcing more is not waited for,
    its delimiter is dropped).  Then the scanner returns 0 and consumes
    nothing: the driver is exactly as before, whatever the cut, also inside
    an escape pair. *)
Theorem decode_frame_waits_for_rest {U} (x : xbee_interface_t U) (P : list Z)
    (k : nat) (frame_out_size : Z) (out : Z -> Z) :
  ring_ok x ->
  recv_size x < recv_max_size x ->
  Z.of_nat (length P) <= 65535 ->
  (k < length (wire_frame P))%nat ->
  ring_bytes x = firstn k (wire_frame P) ->
  Z.of_nat (length P) + 4 <= recv_max_size x ->
  Z.of_nat (length P) + 1 <= frame_out_size ->
  let r := xbee_decode_frame x frame_out_size out in
  fst (fst r) = 0 /\ snd (fst r) = x.
Proof.
  intros (_ & Hs & Hm) Hroom HP Hk Hring Hcap Hfit.
  pose proof int_max_lt_size_mod as [_ HM].
  apply (decode_partial_frame x P k); try assumption; lia.
Qed.

Lemma decode_frame_waits_for_rest_witness :
  let x := xbee_ring [0x7E; 0x00; 0x03; 0x08; 0x01; 0x7D; 0x5E; 0x78; 0; 0] 0 6 in
  let r := xbee_decode_frame x 8 zeros in
  fst (fst r) = 0 /\ snd (fst r) = x.
Proof.
  apply (decode_frame_waits_for_rest
           (xbee_ring [0x7E; 0x00; 0x03; 0x08; 0x01; 0x7D; 0x5E; 0x78; 0; 0] 0 6)
           [0x08; 0x01; 0x7E] 6 8 zeros).
  - unfold ring_ok. vm_compute. repeat split; discriminate.
  - vm_compute. reflexivity.
  - vm_compute. discriminate.
  - vm_compute. lia.
  - vm_compute. reflexivity.
  - vm_compute. discriminate.
  - vm_compute. discriminate.
Defined.

(** ** Scanner: what a call can and cannot change *)

Lemma dropped_same {U} k (x : xbee_interface_t U) :
  uart (dropped k x) = uart x /\
  recv_max_size (dropped k x) = recv_max_size x /\
  recv (dropped k x) = recv x.
Proof.
  induction k as [| k (IHu & IHm & IHr)]; [repeat split |].
  rewrite dropped_S. repeat split; assumption.
Qed.

(** The inner loop leaves by falling through or by returning 0, and all it
    does to the driver is drop bytes. *)
Lemma decode_for_shape {U} (n : nat) :
  forall (i : Z) (x : xbee_interface_t U) (idx : Z) (out : Z -> Z) (accum : Z),
    exists early k idx' out' accum',
      decode_for n i x idx out accum = (early, dropped k x, idx', out', accum')
      /\ (early = None \/ early = Some 0).
Proof.
  induction n as [| n IH]; intros i x idx out accum.
  - exists None, O, idx, out, accum. auto.
  - cbn [decode_for].
    destruct (xbee_get_next_byte x idx (out i)) as [[ret idx1] b].
    assert (Hdrop : forall acc',
      exists early k idx' out' accum',
        decode_for n (to_size_t (i + 1)) (xbee_drop_byte x) idx1
                   (mem_write out i b) acc'
        = (early, dropped k x, idx', out', accum')
        /\ (early = None \/ early = Some 0)).
    { intros acc'.
      destruct (IH (to_size_t (i + 1)) (xbee_drop_byte x) idx1
                   (mem_write out i b) acc')
        as (early & k & idx' & out' & accum' & Heq & He).
      rewrite dropped_drop in Heq. eauto 8. }
    destruct (ret =? XBEE_NOT_ENOUGH_DATA).
    + destruct (recv_size x =? recv_max_size x); [apply Hdrop |].
      destruct (xbee_find_if_have_next_delim x); [apply Hdrop |].
      exists (Some 0), O, idx1, (mem_write out i b), accum. auto.
    + destruct (negb (ret =? 0)); [apply Hdrop |].
      destruct (IH (to_size_t (i + 1)) x idx1 (mem_write out i b)
                   (to_uint8 (accum + mem_write out i b i)))
        as (early & k & idx' & out' & accum' & Heq & He).
      eauto 8.
Qed.

Lemma decode_while_frame {U} (fuel : nat) :
  forall (x x' : xbee_interface_t U) (frame_out_size ret : Z)
         (out out' : Z -> Z),
    decode_while fuel x frame_out_size out = Some (ret, x', out') ->
    0 <= ret <= 65535
    /\ uart x' = uart x
    /\ recv_max_size x' = recv_max_size x
    /\ recv x' = recv x.
Proof.
  induction fuel as [| fuel IH]; intros x x' fos ret out out' H;
    cbn [decode_while] in H.
  - destruct (recv_size x >=? 6); [discriminate |].
    injection H as <- <- _. repeat split; lia.
  - destruct (recv_size x >=? 6);
      [| injection H as <- <- _; repeat split; lia].
    assert (Hrec : forall k o,
      decode_while fuel (xbee_drop_byte (dropped k x)) fos o
      = Some (ret, x', out') ->
      0 <= ret <= 65535
      /\ uart x' = uart x
      /\ recv_max_size x' = recv_max_size x
      /\ recv x' = recv x).
    { intros k o Hk. apply IH in Hk. rewrite <- dropped_S in Hk.
      destruct (dropped_same (S k) x) as (Hu & Hm & Hr).
      rewrite Hu, Hm, Hr in Hk. exact Hk. }
    destruct (negb (xbee_get_byte x 0 =? XBEE_FRAME_DELIM));
      [exact (Hrec O _ H) |].
    destruct (xbee_get_next_byte x 1 0) as [[ret1 idx1] len1].
    destruct (negb (ret1 =? 0)); [exact (Hrec O _ H) |].
    destruct (xbee_get_next_byte x idx1 0) as [[ret2 idx2] len2].
    destruct (negb (ret2 =? 0)); [exact (Hrec O _ H) |].
    set (len := to_uint16 (Z.lor (Z.shiftl len1 8) len2)) in *.
    pose proof (to_uint16_range (Z.lor (Z.shiftl len1 8) len2)) as Hlen.
    fold len in Hlen.
    destruct ((to_size_t (len + 4) >? recv_max_size x)
              || (to_size_t (len + 1) >? fos)); [exact (Hrec O _ H) |].
    destruct (decode_for_shape (Z.to_nat (len + 1)) 0 x idx2 out 0)
      as (early & k & idx' & out1 & accum' & Heq & He).
    rewrite Heq in H.
    destruct (dropped_same k x) as (Hu & Hm & Hr).
    destruct He as [-> | ->].
    + destruct (accum' =? 255); [| exact (Hrec k _ H)].
      injection H as <- <- _. cbn [uart recv_max_size recv]. auto.
    + injection H as <- <- _. repeat split; try assumption; lia.
Qed.

Lemma xbee_decode_frame_same {U} (x : xbee_interface_t U)
    (frame_out_size : Z) (out : Z -> Z) :
  let x' := snd (fst (xbee_decode_frame x frame_out_size out)) in
  uart x' = uart x /\ recv_max_size x' = recv_max_size x /\ recv x' = recv x.
Proof.
  cbv zeta. unfold xbee_decode_frame.
  destruct (decode_while (Z.to_nat (recv_size x)) x frame_out_size out)
    as [[[ret x'] out'] |] eqn:H; [| auto].
  apply decode_while_frame in H. apply H.
Qed.

(** The read offset of the inner loop never passes the number of bytes the
    ring held when the loop began, although the loop may drop bytes. *)
Lemma decode_for_head {U} (n : nat) :
  forall (i : Z) (x : xbee_interface_t U) (idx : Z) (out : Z -> Z)
         (accum B : Z),
    ring_ok x -> 4 <= recv_max_size x ->
    1 <= recv_size x <= B -> 1 <= idx <= B ->
    exists early k idx' out' accum',
      decode_for n i x idx out accum = (early, dropped k x, idx', out', accum')
      /\ ring_ok (dropped k x)
      /\ 1 <= idx' <= B
      /\ (early = None \/ early = Some 0).
Proof.
  induction n as [| n IH]; intros i x idx out accum B Hok Hmax Hrs Hidx.
  - exists None, O, idx, out, accum. change (dropped 0 x) with x.
    split; [reflexivity | split; [exact Hok | split; [lia | auto]]].
  - cbn [decode_for].
    assert (HsM : recv_size x < SIZE_MOD).
    { destruct Hok as (_ & ? & ?). pose proof int_max_lt_size_mod. lia. }
    pose proof (xbee_get_next_byte_cases x idx (out i) ltac:(lia) HsM) as Hc.
    destruct (xbee_get_next_byte x idx (out i)) as [[ret idx1] b].
    cbn [fst snd] in Hc.
    assert (Hdrop : 2 <= recv_size x -> 1 <= idx1 <= B ->
      forall acc',
      exists early k idx' out' accum',
        decode_for n (to_size_t (i + 1)) (xbee_drop_byte x) idx1
                   (mem_write out i b) acc'
        = (early, dropped k x, idx', out', accum')
        /\ ring_ok (dropped k x)
        /\ 1 <= idx' <= B
        /\ (early = None \/ early = Some 0)).
    { intros H2 Hi1 acc'.
      destruct (drop_ok x Hok ltac:(lia)) as [Hok' Hrs'].
      destruct (IH (to_size_t (i + 1)) (xbee_drop_byte x) idx1
                   (mem_write out i b) acc' B Hok' Hmax ltac:(lia) Hi1)
        as (early & k & idx' & out' & accum' & Heq & Hk & Hb & He).
      rewrite dropped_drop in *.
      exists early, (S k), idx', out', accum'.
      split; [exact Heq | split; [exact Hk | split; [exact Hb | exact He]]]. }
    destruct Hc as [(-> & Hi1) | [(-> & -> & Hlt) | (-> & ->)]].
    + change (0 =? XBEE_NOT_ENOUGH_DATA) with false. cbn [Z.eqb negb].
      apply IH; try assumption; lia.
    + change (XBEE_ERR_FOUND_START =? XBEE_NOT_ENOUGH_DATA) with false.
      change (negb (XBEE_ERR_FOUND_START =? 0)) with true. cbn iota.
      apply Hdrop; lia.
    + rewrite Z.eqb_refl.
      destruct (Z.eqb_spec (recv_size x) (recv_max_size x)) as [Hfull | _];
        [apply Hdrop; lia |].
      destruct (xbee_find_if_have_next_delim x) eqn:Hfind.
      * apply Hdrop; [| lia].
        apply (find_delim_loop_true x _ 1 ltac:(lia) Hfind).
      * exists (Some 0), O, idx, (mem_write out i b), accum.
        change (dropped 0 x) with x.
        split; [reflexivity | split; [exact Hok | split; [lia | auto]]].
Qed.

(** Whatever the outer loop returns, the head of the ring stays inside the
    storage. *)
Lemma decode_while_head {U} (fuel : nat) :
  forall (x x' : xbee_interface_t U) (frame_out_size ret : Z)
         (out out' : Z -> Z),
    ring_ok x ->
    decode_while fuel x frame_out_size out = Some (ret, x', out') ->
    0 <= recv_idx x' < recv_max_size x.
Proof.
  induction fuel as [| fuel IH]; intros x x' fos ret out out' Hok H;
    cbn [decode_while] in H.
  - destruct (recv_size x >=? 6); [discriminate |].
    injection H as _ <- _. apply Hok.
  - pose proof Hok as (Hi0 & Hs0 & Hm0).
    destruct (Z.geb_spec (recv_size x) 6) as [Hge | Hlt];
      [| injection H as _ <- _; exact Hi0].
    assert (Hrec : forall k o,
      ring_ok (dropped k x) -> 1 <= recv_size (dropped k x) ->
      decode_while fuel (xbee_drop_byte (dropped k x)) fos o
      = Some (ret, x', out') ->
      0 <= recv_idx x' < recv_max_size x).
    { intros k o Hk Hsz Heq.
      destruct (drop_ok _ Hk Hsz) as [Hok' _].
      pose proof (IH _ _ _ _ _ _ Hok' Heq) as Hh.
      destruct (dropped_fields k x) as [_ Hkm].
      cbn [xbee_drop_byte recv_max_size] in Hh. rewrite Hkm in Hh. exact Hh. }
    assert (Hrec0 : forall o,
      decode_while fuel (xbee_drop_byte x) fos o = Some (ret, x', out') ->
      0 <= recv_idx x' < recv_max_size x).
    { intros o. apply (Hrec O o Hok). change (dropped 0 x) with x. lia. }
    assert (HsM : recv_size x < SIZE_MOD).
    { pose proof int_max_lt_size_mod. lia. }
    destruct (negb (xbee_get_byte x 0 =? XBEE_FRAME_DELIM));
      [exact (Hrec0 _ H) |].
    pose proof (xbee_get_next_byte_cases x 1 0 ltac:(lia) HsM) as Hc1.
    destruct (xbee_get_next_byte x 1 0) as [[ret1 idx1] len1].
    cbn [fst snd] in Hc1.
    destruct (negb (ret1 =? 0)) eqn:Hr1; [exact (Hrec0 _ H) |].
    pose proof (xbee_get_next_byte_cases x idx1 0) as Hc2.
    destruct (xbee_get_next_byte x idx1 0) as [[ret2 idx2] len2].
    cbn [fst snd] in Hc2.
    destruct (negb (ret2 =? 0)) eqn:Hr2; [exact (Hrec0 _ H) |].
    apply negb_false_iff, Z.eqb_eq in Hr1, Hr2. subst ret1 ret2.
    assert (Hidx1 : 1 < idx1 <= recv_size x).
    { destruct Hc1 as [[_ ?] | [[? _] | [? _]]]; [lia | discriminate ..]. }
    assert (Hidx2 : idx1 < idx2 <= recv_size x).
    { destruct (Hc2 ltac:(lia) HsM) as [[_ ?] | [[? _] | [? _]]];
        [lia | discriminate ..]. }
    set (len := to_uint16 (Z.lor (Z.shiftl len1 8) len2)) in *.
    pose proof (to_uint16_range (Z.lor (Z.shiftl len1 8) len2)) as Hlen.
    fold len in Hlen.
    rewrite (to_size_t_small (len + 4)) in H by (unfold SIZE_MOD; lia).
    destruct (Z.gtb_spec (len + 4) (recv_max_size x)) as [_ | Hcap];
      [exact (Hrec0 _ H) |].
    destruct (to_size_t (len + 1) >? fos); [exact (Hrec0 _ H) |].
    cbn [orb] in H.
    destruct (decode_for_inv (Z.to_nat (len + 1)) 0 x idx2 out 0 Hok
                ltac:(lia) ltac:(lia) ltac:(lia))
      as (early & k & idx' & out1 & accum' & Heq & Hk & Hsz & He).
    destruct (decode_for_head (Z.to_nat (len + 1)) 0 x idx2 out 0
                (recv_size x) Hok ltac:(lia) ltac:(lia) ltac:(lia))
      as (early2 & k2 & idx2' & out2 & accum2 & Heq2 & _ & Hb & _).
    rewrite Heq in Heq2. injection Heq2 as _ _ Hsame _ _. subst idx2'.
    rewrite Heq in H.
    destruct (dropped_fields k x) as [_ Hkm].
    destruct He as [-> | ->].
    + destruct (accum' =? 255); [| exact (Hrec k _ Hk ltac:(lia) H)].
      injection H as _ <- _. cbn [recv_idx]. rewrite Hkm.
      destruct Hk as (Hki & _ & _). rewrite Hkm in Hki.
      pose proof int_max_lt_size_mod as HM.
      rewrite (to_size_t_small (recv_idx (dropped k x) + idx')) by lia.
      destruct (Z.geb_spec (recv_idx (dropped k x) + idx') (recv_max_size x)).
      * rewrite to_size_t_small by lia. lia.
      * lia.
    + injection H as _ <- _. destruct Hk as (Hki & _ & _).
      rewrite Hkm in Hki. exact Hki.
Qed.

(** X6.  On a ring that satisfies its invariant, so that the assertions of
    the scanner hold on entry, xbee_decode_frame returns a value between 0
    and 65535, never an error code; it writes neither the transport nor
    the capacity nor a byte of the ring storage; and the head index it
    leaves is inside the storage, 0 <= recv_idx < recv_max_size, also on
    the rings with a stray delimiter where the fill count it leaves has
    wrapped around. *)
Theorem decode_frame_only_moves_head {U} (x : xbee_interface_t U)
    (frame_out_size : Z) (out : Z -> Z) :
  ring_ok x ->
  let r := xbee_decode_frame x frame_out_size out in
  0 <= fst (fst r) <= 65535
  /\ uart (snd (fst r)) = uart x
  /\ recv_max_size (snd (fst r)) = recv_max_size x
  /\ recv (snd (fst r)) = recv x
  /\ 0 <= recv_idx (snd (fst r)) < recv_max_size x.
Proof.
  intros Hok. cbv zeta. unfold xbee_decode_frame.
  destruct (decode_while (Z.to_nat (recv_size x)) x frame_out_size out)
    as [[[ret x'] out'] |] eqn:H; cbn [fst snd].
  - destruct (decode_while_frame _ _ _ _ _ _ _ H) as (H1 & H2 & H3 & H4).
    pose proof (decode_while_head _ _ _ _ _ _ _ Hok H) as H5. auto.
  - split; [lia |]. split; [reflexivity |]. split; [reflexivity |].
    split; [reflexivity | apply Hok].
Qed.

Lemma decode_frame_only_moves_head_witness :
  let x := xbee_ring [0x7E; 0x00; 0x04; 0xFF; 0x7E; 0x7E; 0x7E; 0] 0 7 in
  let r := xbee_decode_frame x 16 zeros in
  fst (fst r) = 4
  /\ recv_size (snd (fst r)) = SIZE_MOD - 1
  /\ recv (snd (fst r)) = recv x
  /\ 0 <= recv_idx (snd (fst r)) < 8.
Proof.
  cbv zeta.
  destruct (decode_frame_only_moves_head
              (xbee_ring [0x7E; 0x00; 0x04; 0xFF; 0x7E; 0x7E; 0x7E; 0] 0 7)
              16 zeros) as (_ & _ & _ & H4 & H5).
  - unfold ring_ok. vm_compute. repeat split; discriminate.
  - split; [vm_compute; reflexivity |]. split; [vm_compute; reflexivity |].
    split; [exact H4 | exact H5].
Defined.

(** The inner loop on a ring that satisfies its invariant drops fewer
    bytes than the ring holds. *)
Lemma decode_for_drops {U} (n : nat) :
  forall (i : Z) (x : xbee_interface_t U) (idx : Z) (out : Z -> Z) (accum : Z),
    ring_ok x -> 2 <= recv_max_size x -> 1 <= recv_size x -> 1 <= idx ->
    exists early k idx' out' accum',
      decode_for n i x idx out accum = (early, dropped k x, idx', out', accum')
      /\ Z.of_nat k <= recv_size x - 1
      /\ (early = None \/ early = Some 0).
Proof.
  induction n as [| n IH]; intros i x idx out accum Hok Hmax Hrs Hidx.
  - exists None, O, idx, out, accum. change (dropped 0 x) with x.
    split; [reflexivity | split; [lia | auto]].
  - cbn [decode_for].
    assert (HsM : recv_size x < SIZE_MOD).
    { destruct Hok as (_ & ? & ?). pose proof int_max_lt_size_mod. lia. }
    pose proof (xbee_get_next_byte_cases x idx (out i) ltac:(lia) HsM) as Hc.
    destruct (xbee_get_next_byte x idx (out i)) as [[ret idx1] b].
    cbn [fst snd] in Hc.
    assert (Hdrop : 2 <= recv_size x ->
      forall acc',
      exists early k idx' out' accum',
        decode_for n (to_size_t (i + 1)) (xbee_drop_byte x) idx1
                   (mem_write out i b) acc'
        = (early, dropped k x, idx', out', accum')
        /\ Z.of_nat k <= recv_size x - 1
        /\ (early = None \/ early = Some 0)).
    { intros H2 acc'.
      destruct (drop_ok x Hok ltac:(lia)) as [Hok' Hrs'].
      destruct (IH (to_size_t (i + 1)) (xbee_drop_byte x) idx1
                   (mem_write out i b) acc' Hok' Hmax ltac:(lia) ltac:(lia))
        as (early & k & idx' & out' & accum' & Heq & Hk & He).
      rewrite dropped_drop in Heq.
      exists early, (S k), idx', out', accum'.
      split; [exact Heq | split; [lia | exact He]]. }
    destruct Hc as [(-> & Hi1) | [(-> & -> & Hlt) | (-> & ->)]].
    + change (0 =? XBEE_NOT_ENOUGH_DATA) with false. cbn [Z.eqb negb].
      apply IH; try assumption; lia.
    + change (XBEE_ERR_FOUND_START =? XBEE_NOT_ENOUGH_DATA) with false.
      change (negb (XBEE_ERR_FOUND_START =? 0)) with true. cbn iota.
      apply Hdrop. lia.
    + rewrite Z.eqb_refl.
      destruct (Z.eqb_spec (recv_size x) (recv_max_size x)) as [Hfull | _];
        [apply Hdrop; lia |].
      destruct (xbee_find_if_have_next_delim x) eqn:Hfind.
      * apply Hdrop. apply (find_delim_loop_true x _ 1 ltac:(lia) Hfind).
      * exists (Some 0), O, idx, (mem_write out i b), accum.
        change (dropped 0 x) with x.
        split; [reflexivity | split; [lia | auto]].
Qed.

Lemma decode_while_zero {U} (fuel : nat) :
  forall (x x' : xbee_interface_t U) (frame_out_size : Z) (out out' : Z -> Z),
    ring_ok x ->
    decode_while fuel x frame_out_size out = Some (0, x', out') ->
    exists k,
      Z.of_nat k <= recv_size x
      /\ ring_bytes x' = skipn k (ring_bytes x)
      /\ ring_ok x'
      /\ recv_size x' = recv_size x - Z.of_nat k.
Proof.
  induction fuel as [| fuel IH]; intros x x' fos out out' Hok H;
    cbn [decode_while] in H.
  - destruct (recv_size x >=? 6); [discriminate |].
    injection H as <- _. exists O.
    split; [apply Hok | split; [reflexivity | split; [exact Hok | cbn; lia]]].
  - pose proof Hok as (Hi0 & Hs0 & Hm0).
    destruct (Z.geb_spec (recv_size x) 6) as [Hge | Hlt];
      [| injection H as <- _; exists O;
         split; [lia | split; [reflexivity | split; [exact Hok | cbn; lia]]]].
    assert (Hrec : forall k o,
      Z.of_nat k <= recv_size x - 1 ->
      decode_while fuel (xbee_drop_byte (dropped k x)) fos o
      = Some (0, x', out') ->
      exists k,
        Z.of_nat k <= recv_size x
        /\ ring_bytes x' = skipn k (ring_bytes x)
        /\ ring_ok x'
        /\ recv_size x' = recv_size x - Z.of_nat k).
    { intros k o Hk Heq. rewrite <- dropped_S in Heq.
      destruct (dropped_ring (S k) x Hok ltac:(lia)) as (Hok' & Hsz & Hb).
      destruct (IH _ _ _ _ _ Hok' Heq) as (k' & Hk' & Hb' & Hok2 & Hsz').
      exists (k' + S k)%nat. rewrite Hb', Hb, skipn_skipn.
      split; [lia | split; [reflexivity | split; [exact Hok2 | lia]]]. }
    assert (HsM : recv_size x < SIZE_MOD).
    { pose proof int_max_lt_size_mod. lia. }
    destruct (negb (xbee_get_byte x 0 =? XBEE_FRAME_DELIM));
      [exact (Hrec O _ ltac:(lia) H) |].
    pose proof (xbee_get_next_byte_cases x 1 0 ltac:(lia) HsM) as Hc1.
    destruct (xbee_get_next_byte x 1 0) as [[ret1 idx1] len1].
    cbn [fst snd] in Hc1.
    destruct (negb (ret1 =? 0)) eqn:Hr1; [exact (Hrec O _ ltac:(lia) H) |].
    pose proof (xbee_get_next_byte_cases x idx1 0) as Hc2.
    destruct (xbee_get_next_byte x idx1 0) as [[ret2 idx2] len2].
    cbn [fst snd] in Hc2.
    destruct (negb (ret2 =? 0)) eqn:Hr2; [exact (Hrec O _ ltac:(lia) H) |].
    apply negb_false_iff, Z.eqb_eq in Hr1, Hr2. subst ret1 ret2.
    assert (Hidx1 : 1 < idx1).
    { destruct Hc1 as [[_ ?] | [[? _] | [? _]]]; [lia | discriminate ..]. }
    assert (Hidx2 : idx1 < idx2).
    { destruct (Hc2 ltac:(lia) HsM) as [[_ ?] | [[? _] | [? _]]];
        [lia | discriminate ..]. }
    set (len := to_uint16 (Z.lor (Z.shiftl len1 8) len2)) in *.
    destruct ((to_size_t (len + 4) >? recv_max_size x)
              || (to_size_t (len + 1) >? fos));
      [exact (Hrec O _ ltac:(lia) H) |].
    destruct (decode_for_drops (Z.to_nat (len + 1)) 0 x idx2 out 0 Hok
                ltac:(lia) ltac:(lia) ltac:(lia))
      as (early & k & idx' & out1 & accum' & Heq & Hk & He).
    rewrite Heq in H.
    destruct He as [-> | ->].
    + destruct (Z.eqb_spec accum' 255) as [Hacc | _]; [| exact (Hrec k _ Hk H)].
      injection H as Hlen0 <- _. rewrite Hlen0, Hacc in Heq.
      change (Z.to_nat (0 + 1)) with 1%nat in Heq.
      destruct (decode_for_one x (dropped k x) 0 idx2 idx' out out1
                  ltac:(lia) HsM Heq) as [Hx Hi'].
      rewrite Hx.
      change (mk_xbee (uart x) (recv_max_size x) (recv x) _ _)
        with (consumed x idx').
      destruct (consumed_ring_bytes x idx' Hok ltac:(lia)) as [Hb Hok'].
      exists (Z.to_nat idx'). rewrite Hb.
      split; [lia | split; [reflexivity | split; [exact Hok' |]]].
      unfold consumed. cbn [recv_size]. rewrite to_size_t_small by lia. lia.
    + injection H as <- _.
      destruct (dropped_ring k x Hok ltac:(lia)) as (Hok' & Hsz & Hb).
      exists k. split; [lia | auto].
Qed.

(** X7.  A call that returns 0 has at most discarded bytes from the front of
    the ring: what the ring holds afterwards is a tail of what it held, in
    the same order, and the ring invariant still holds. *)
Theorem decode_frame_zero_keeps_tail {U} (x : xbee_interface_t U)
    (frame_out_size : Z) (out : Z -> Z) :
  ring_ok x ->
  let r := xbee_decode_frame x frame_out_size out in
  fst (fst r) = 0 ->
  exists k,
    Z.of_nat k <= recv_size x
    /\ ring_bytes (snd (fst r)) = skipn k (ring_bytes x)
    /\ ring_ok (snd (fst r))
    /\ recv_size (snd (fst r)) = recv_size x - Z.of_nat k.
Proof.
  intros Hok. cbv zeta. unfold xbee_decode_frame.
  destruct (decode_while (Z.to_nat (recv_size x)) x frame_out_size out)
    as [[[ret x'] out'] |] eqn:H; cbn [fst snd].
  - intros ->. exact (decode_while_zero _ _ _ _ _ _ Hok H).
  - intros _. exists O.
    split; [apply Hok | split; [reflexivity | split; [exact Hok | cbn; lia]]].
Qed.

Lemma decode_frame_zero_keeps_tail_witness :
  let x := xbee_ring [0x41; 0x7E; 0x00; 0x7E; 0x00; 0x03; 0x08; 0x01; 0; 0] 0 8 in
  exists k,
    Z.of_nat k <= 8
    /\ ring_bytes (snd (fst (xbee_decode_frame x 16 zeros)))
       = skipn k [0x41; 0x7E; 0x00; 0x7E; 0x00; 0x03; 0x08; 0x01].
Proof.
  cbv zeta.
  destruct (decode_frame_zero_keeps_tail
              (xbee_ring [0x41; 0x7E; 0x00; 0x7E; 0x00; 0x03; 0x08; 0x01; 0; 0] 0 8)
              16 zeros) as (k & Hk & Hb & _).
  - unfold ring_ok. vm_compute. repeat split; discriminate.
  - vm_compute. reflexivity.
  - exists k. split; [exact Hk | exact Hb].
Defined.

(** ** Receiving: the contract of xbee_recv_frame *)





(** The assertions on the first span of xbee_fill_buffer, on a ring that
    satisfies its invariant, say that the ring is not full. *)
Lemma fill_first_asserts_room {U} (x : xbee_interface_t U) :
  ring_ok x ->
  fill_first_asserts x = (recv_size x <? recv_max_size x).
Proof.
  intros (Hi & Hs & Hm). pose proof int_max_lt_size_mod as [HM0 HM].
  unfold fill_first_asserts, fill_first_span.
  rewrite (to_size_t_small (recv_idx x + recv_size x)) by lia.
  destruct (Z.ltb_spec (recv_idx x + recv_size x) (recv_max_size x))
    as [Hlt | Hge].
  - rewrite (to_size_t_small (recv_max_size x - _)) by lia.
    rewrite to_size_t_small by lia.
    rewrite geb_true by lia.
    rewrite (proj2 (Z.ltb_lt _ _) Hlt).
    rewrite (proj2 (Z.gtb_lt _ _)) by lia.
    rewrite !(proj2 (Z.leb_le _ _)) by lia.
    symmetry. apply Z.ltb_lt. lia.
  - rewrite (to_size_t_small (_ - recv_max_size x)) by lia.
    rewrite (to_size_t_small (recv_idx x - _)) by lia.
    rewrite to_size_t_small by lia.
    rewrite geb_true by lia.
    rewrite (proj2 (Z.ltb_lt _ (recv_max_size x))) by lia.
    rewrite !(proj2 (Z.leb_le _ _)) by lia.
    cbn [andb]. rewrite !andb_true_r.
    destruct (Z.ltb_spec (recv_size x) (recv_max_size x)).
    + apply Z.gtb_lt. lia.
    + apply gtb_false. lia.
Qed.




(** ** Emitter: what goes to the transport *)

(** X8.  Behind its delimiter a frame holds no delimiter, XON or XOFF byte:
    0x7E on the wire is always the start of a frame and the flow-control
    bytes never appear. *)
Theorem send_frame_body_has_no_control_byte (x : xbee_interface_t wire)
    (payload : list Z) :
  Z.of_nat (length payload) <= 65535 ->
  exists body,
    emitted (xbee_send_frame wire_write x payload)
    = tx (uart x) ++ XBEE_FRAME_DELIM :: body
    /\ Forall (fun c => c <> XBEE_FRAME_DELIM /\ c <> XBEE_XON /\ c <> XBEE_XOFF)
              body.
Proof.
  intros H. rewrite xbee_send_frame_wire by exact H.
  unfold wire_frame.
  exists (stuff ([Z.of_nat (length payload) / 256;
                  Z.of_nat (length payload) mod 256]
                 ++ payload ++ [checksum payload])).
  split; [reflexivity | apply stuff_clean].
Qed.

Lemma send_frame_body_has_no_control_byte_witness :
  exists body,
    emitted (xbee_send_frame wire_write (xbee_fresh idle_wire 0)
                             [0x7E; 0x11; 0x13; 0x7D])
    = XBEE_FRAME_DELIM :: body
    /\ Forall (fun c => c <> XBEE_FRAME_DELIM /\ c <> XBEE_XON /\ c <> XBEE_XOFF)
              body.
Proof.
  apply (send_frame_body_has_no_control_byte (xbee_fresh idle_wire 0)
           [0x7E; 0x11; 0x13; 0x7D]).
  vm_compute. discriminate.
Defined.

Section LoggedEmitter.
Context {U : Type}.
Variable wr : U -> list Z -> Z * U.
Local Abbreviation xl := (xbee_interface_t (U * list Z)).

Lemma write_logged (x : xl) (buf : list Z) :
  exists n x',
    write (logged_write wr) x buf = (n, x') /\ handed x' = handed x ++ buf.
Proof.
  unfold write, logged_write, handed.
  destruct (wr (fst (uart x)) buf) as [n u]. eauto.
Qed.

(** Loop invariant of xbee_write_bytes on any transport.  Whatever the
    transport answers, the buffers handed to it so far, followed by the
    pending run and the stuffing of the rest, are the stuffed buffer. *)
Lemma xbee_write_bytes_loop_logged (bytes : list Z) :
  Z.of_nat (length bytes) < SIZE_MOD ->
  forall (n i off : nat) (x : xl) (accum : Z),
    0 <= accum < 256 ->
    (off <= i)%nat -> (i + n = length bytes)%nat ->
    Forall (fun b => needs_escape b = false)
           (firstn (i - off) (skipn off bytes)) ->
    exists early x' accum' offz pre,
      xbee_write_bytes_loop (logged_write wr) n (Z.of_nat i) (Z.of_nat off)
                            bytes x accum
      = (early, x', accum', offz)
      /\ handed x' = handed x ++ pre
      /\ ((early = None
           /\ accum' = to_uint8 (accum + sum_bytes (skipn i bytes))
           /\ exists off' : nat,
                offz = Z.of_nat off' /\ (off' <= length bytes)%nat
                /\ pre ++ skipn off' bytes = stuff (skipn off bytes))
          \/ ((early = Some (-11) \/ early = Some (-12))
              /\ exists suf, pre ++ suf = stuff (skipn off bytes))).
Proof.
  intros Hlen n. induction n as [| n IH]; intros i off x accum Hacc Hoi Hin Hrun.
  - exists None, x, accum, (Z.of_nat off), [].
    assert (i = length bytes) by lia. subst i.
    split; [reflexivity | split; [symmetry; apply app_nil_r |]].
    left. split; [reflexivity |]. rewrite skipn_all. split.
    + simpl. rewrite Z.add_0_r. unfold to_uint8. rewrite Z.mod_small by lia.
      reflexivity.
    + exists off. split; [reflexivity | split; [lia |]].
      rewrite firstn_all2 in Hrun by (rewrite length_skipn; lia).
      symmetry. apply stuff_plain_run, Hrun.
  - assert (Hi : (i < length bytes)%nat) by lia.
    pose proof (skipn_byte_at bytes i Hi) as Hsk.
    pose proof (skipn_run bytes off i ltac:(lia)) as Hsplit.
    cbn [xbee_write_bytes_loop].
    set (b := byte_at bytes (Z.of_nat i)) in *.
    replace (Z.of_nat i + 1) with (Z.of_nat (S i)) by lia.
    assert (Hsum : to_uint8 (to_uint8 (accum + b) + sum_bytes (skipn (S i) bytes))
                   = to_uint8 (accum + sum_bytes (skipn i bytes))).
    { rewrite to_uint8_add_l, Hsk. f_equal. unfold sum_bytes. simpl. lia. }
    destruct (needs_escape b) eqn:Hb.
    + rewrite to_size_t_small by lia.
      unfold sub_buf. rewrite !Nat2Z.id.
      replace (Z.to_nat (Z.of_nat i - Z.of_nat off)) with (i - off)%nat by lia.
      set (run := firstn (i - off) (skipn off bytes)) in *.
      assert (Hstuff : stuff (skipn off bytes)
                       = run ++ [XBEE_FRAME_ESCAPE; Z.lxor b 32]
                             ++ stuff (skipn (S i) bytes)).
      { rewrite Hsplit, stuff_app, (stuff_plain_run run Hrun), Hsk.
        change (stuff (b :: skipn (S i) bytes))
          with (stuff_byte b ++ stuff (skipn (S i) bytes)).
        rewrite (stuff_byte_escape b Hb). reflexivity. }
      destruct (write_logged x run) as (n1 & x1 & Hw1 & Hh1). rewrite Hw1.
      destruct (negb (to_size_t n1 =? Z.of_nat i - Z.of_nat off)).
      { exists (Some (-11)), x1, (to_uint8 (accum + b)), (Z.of_nat off), run.
        split; [reflexivity | split; [exact Hh1 |]].
        right. split; [auto |]. rewrite Hstuff. eauto. }
      destruct (write_logged x1 [XBEE_FRAME_ESCAPE; Z.lxor b 32])
        as (n2 & x2 & Hw2 & Hh2).
      rewrite Hw2.
      destruct (negb (to_size_t n2 =? 2)).
      { exists (Some (-12)), x2, (to_uint8 (accum + b)), (Z.of_nat off),
               (run ++ [XBEE_FRAME_ESCAPE; Z.lxor b 32]).
        split; [reflexivity |].
        split; [rewrite Hh2, Hh1, <- app_assoc; reflexivity |].
        right. split; [auto |]. exists (stuff (skipn (S i) bytes)).
        rewrite Hstuff, <- app_assoc. reflexivity. }
      destruct (IH (S i) (S i) x2 (to_uint8 (accum + b)) (to_uint8_range _)
                   ltac:(lia) ltac:(lia))
        as (early & x' & accum' & offz & pre & Heq & Hh & Hcase).
      { rewrite Nat.sub_diag. constructor. }
      exists early, x', accum', offz,
             (run ++ [XBEE_FRAME_ESCAPE; Z.lxor b 32] ++ pre).
      split; [exact Heq |].
      split; [rewrite Hh, Hh2, Hh1, <- !app_assoc; reflexivity |].
      destruct Hcase as [(He & Ha & off' & Ho & Hle & Hp)
                        | (He & suf & Hp)].
      * left. split; [exact He |]. split; [rewrite Ha; exact Hsum |].
        exists off'. split; [exact Ho | split; [exact Hle |]].
        rewrite Hstuff, <- Hp, <- !app_assoc. reflexivity.
      * right. split; [exact He |]. exists suf.
        rewrite Hstuff, <- Hp, <- !app_assoc. reflexivity.
    + destruct (IH (S i) off x (to_uint8 (accum + b)) (to_uint8_range _)
                   ltac:(lia) ltac:(lia))
        as (early & x' & accum' & offz & pre & Heq & Hh & Hcase).
      { assert (Hrl : length (firstn (i - off) (skipn off bytes)) = (i - off)%nat).
        { rewrite length_firstn, length_skipn. lia. }
        rewrite Hsplit at 1. rewrite Hsk, firstn_app, Hrl.
        rewrite firstn_firstn.
        replace (Nat.min (S i - off) (i - off)) with (i - off)%nat by lia.
        replace (S i - off - (i - off))%nat with 1%nat by lia.
        apply Forall_app. split; [exact Hrun |].
        constructor; [exact Hb | constructor]. }
      exists early, x', accum', offz, pre.
      split; [exact Heq | split; [exact Hh |]].
      destruct Hcase as [(He & Ha & Hex) | Hr]; [left | right; exact Hr].
      split; [exact He | split; [rewrite Ha; exact Hsum | exact Hex]].
Qed.

(** xbee_write_bytes on any transport: the return code, what was handed
    over and the accumulator. *)
Lemma xbee_write_bytes_logged (x : xl) (buf : list Z) (accum : Z) :
  Z.of_nat (length buf) < SIZE_MOD -> 0 <= accum < 256 ->
  exists ret x' accum' pre suf,
    xbee_write_bytes (logged_write wr) x buf accum = (ret, x', accum')
    /\ handed x' = handed x ++ pre
    /\ pre ++ suf = stuff buf
    /\ (ret = 0 \/ ret = -11 \/ ret = -12 \/ ret = -13)
    /\ (ret = 0 -> suf = [] /\ accum' = to_uint8 (accum + sum_bytes buf)).
Proof.
  intros Hlen Hacc. unfold xbee_write_bytes.
  destruct (xbee_write_bytes_loop_logged buf Hlen (length buf) 0 0 x accum Hacc)
    as (early & x1 & accum1 & offz & pre & Heq & Hh & Hcase);
    try reflexivity; [constructor |].
  change (Z.of_nat 0) with 0 in Heq. rewrite Heq. simpl skipn in *.
  destruct Hcase as [(-> & Ha & off' & -> & Hle & Hp) | (He & suf & Hp)].
  - rewrite to_size_t_small by lia.
    unfold sub_buf. rewrite Nat2Z.id.
    replace (Z.to_nat (Z.of_nat (length buf) - Z.of_nat off'))
      with (length buf - off')%nat by lia.
    rewrite firstn_all2 by (rewrite length_skipn; lia).
    destruct (write_logged x1 (skipn off' buf)) as (n2 & x2 & Hw2 & Hh2).
    rewrite Hw2.
    assert (Hall : handed x2 = handed x ++ stuff buf).
    { rewrite Hh2, Hh, <- app_assoc, Hp. reflexivity. }
    destruct (negb (to_size_t n2 =? Z.of_nat (length buf) - Z.of_nat off')).
    + exists (-13), x2, accum1, (stuff buf), [].
      split; [reflexivity | split; [exact Hall |]].
      split; [apply app_nil_r | split; [auto |]]. intros H0. discriminate H0.
    + exists 0, x2, accum1, (stuff buf), [].
      split; [reflexivity | split; [exact Hall |]].
      split; [apply app_nil_r | split; [auto |]]. auto.
  - assert (Hret : exists r, early = Some r /\ (r = -11 \/ r = -12)).
    { destruct He as [-> | ->]; eauto. }
    destruct Hret as (r & -> & Hr).
    exists r, x1, accum1, pre, suf.
    split; [reflexivity | split; [exact Hh | split; [exact Hp |]]].
    split; [tauto |]. intros ->. destruct Hr; discriminate.
Qed.

(** X9.  xbee_write_bytes on a transport that may write short or fail.  The
    call returns 0, -11, -12 or -13; the bytes it handed to the transport,
    in order, are a prefix of the stuffed buffer whatever the transport
    answered, and all of it with every byte summed into the accumulator
    when the call returns 0. *)
Theorem write_bytes_hands_stuffed_prefix (x : xl) (buf : list Z) (accum : Z) :
  Z.of_nat (length buf) < SIZE_MOD -> 0 <= accum < 256 ->
  let r := xbee_write_bytes (logged_write wr) x buf accum in
  let ret := fst (fst r) in
  (ret = 0 \/ ret = -11 \/ ret = -12 \/ ret = -13)
  /\ (exists pre suf,
        handed (snd (fst r)) = handed x ++ pre /\ pre ++ suf = stuff buf)
  /\ (ret = 0 ->
        handed (snd (fst r)) = handed x ++ stuff buf
        /\ snd r = to_uint8 (accum + sum_bytes buf)).
Proof.
  intros Hlen Hacc. cbv zeta.
  destruct (xbee_write_bytes_logged x buf accum Hlen Hacc)
    as (ret & x' & accum' & pre & suf & Heq & Hh & Hp & Hret & H0).
  rewrite Heq. cbn [fst snd].
  split; [exact Hret | split; [eauto |]].
  intros Hz. destruct (H0 Hz) as [-> ->].
  rewrite app_nil_r in Hp. rewrite Hh, Hp. auto.
Qed.

(** X10.  xbee_send_frame on a transport that may write short or fail.  The
    call returns 0 or one of -11 .. -14; what it handed to the transport
    is a prefix of the frame of the payload, and the whole frame when the
    call returns 0: after an error nothing more is written, and nothing is
    written twice. *)
Theorem send_frame_hands_frame_prefix (x : xl) (payload : list Z) :
  Z.of_nat (length payload) <= 65535 ->
  let r := xbee_send_frame (logged_write wr) x payload in
  let ret := fst r in
  (ret = 0 \/ ret = -11 \/ ret = -12 \/ ret = -13 \/ ret = -14)
  /\ (exists pre suf,
        handed (snd r) = handed x ++ pre /\ pre ++ suf = wire_frame payload)
  /\ (ret = 0 -> handed (snd r) = handed x ++ wire_frame payload).
Proof.
  intros H. cbv zeta.
  pose proof (wire_frame_split payload []) as Hwf. cbv zeta in Hwf.
  rewrite !app_nil_r in Hwf.
  set (len := Z.of_nat (length payload)) in *.
  unfold xbee_send_frame, xbee_start_frame. fold len.
  destruct (length_bytes_split len ltac:(lia)) as [-> ->].
  destruct (write_logged x [XBEE_FRAME_DELIM]) as (n0 & x0 & Hw0 & Hh0).
  rewrite Hw0.
  destruct (negb (n0 =? 1)).
  { cbn [fst snd Z.eqb negb]. split; [tauto |]. split.
    - exists [XBEE_FRAME_DELIM], (tl (wire_frame payload)).
      split; [exact Hh0 | reflexivity].
    - intros H0. discriminate H0. }
  destruct (xbee_write_bytes_logged x0 [len / 256; len mod 256] 0)
    as (r1 & x1 & a1 & pre1 & suf1 & Heq1 & Hh1 & Hp1 & Hr1 & Hz1);
    [cbn; unfold SIZE_MOD; lia | lia |].
  rewrite Heq1.
  change (stuff [len / 256; len mod 256])
    with (stuff_byte (len / 256) ++ stuff_byte (len mod 256) ++ []) in Hp1.
  rewrite app_nil_r in Hp1.
  destruct (Z.eqb_spec r1 0) as [-> | Hne1]; cbn [negb].
  2:{ cbn [fst snd]. split; [tauto |]. split.
      - exists ([XBEE_FRAME_DELIM] ++ pre1),
               (suf1 ++ stuff (payload ++ [checksum payload])).
        split; [rewrite Hh1, Hh0, <- app_assoc; reflexivity |].
        rewrite Hwf, <- !app_assoc. f_equal.
        rewrite !app_assoc. f_equal. exact Hp1.
      - intros H0. contradiction. }
  destruct (Hz1 eq_refl) as [-> _]. rewrite app_nil_r in Hp1. subst pre1.
  destruct (xbee_write_bytes_logged x1 payload 0)
    as (r2 & x2 & a2 & pre2 & suf2 & Heq2 & Hh2 & Hp2 & Hr2 & Hz2);
    [unfold SIZE_MOD; lia | lia |].
  rewrite Heq2.
  rewrite stuff_app in Hwf.
  destruct (Z.eqb_spec r2 0) as [-> | Hne2]; cbn [negb].
  2:{ cbn [fst snd]. split; [tauto |]. split.
      - exists ([XBEE_FRAME_DELIM] ++ stuff_byte (len / 256)
                  ++ stuff_byte (len mod 256) ++ pre2),
               (suf2 ++ stuff [checksum payload]).
        split; [rewrite Hh2, Hh1, Hh0, <- !app_assoc; reflexivity |].
        rewrite Hwf, <- Hp2, <- !app_assoc. reflexivity.
      - intros H0. contradiction. }
  destruct (Hz2 eq_refl) as [-> ->]. rewrite app_nil_r in Hp2. subst pre2.
  unfold xbee_finish_frame. rewrite checksum_code.
  destruct (xbee_write_bytes_logged x2 [checksum payload] 0)
    as (r3 & x3 & a3 & pre3 & suf3 & Heq3 & Hh3 & Hp3 & Hr3 & Hz3);
    [cbn; unfold SIZE_MOD; lia | lia |].
  rewrite Heq3. cbn [fst snd].
  split; [tauto |]. split.
  - exists ([XBEE_FRAME_DELIM] ++ stuff_byte (len / 256)
              ++ stuff_byte (len mod 256) ++ stuff payload ++ pre3), suf3.
    split; [rewrite Hh3, Hh2, Hh1, Hh0, <- !app_assoc; reflexivity |].
    rewrite Hwf, <- Hp3, <- !app_assoc. reflexivity.
  - intros ->. destruct (Hz3 eq_refl) as [-> _]. rewrite app_nil_r in Hp3.
    rewrite Hh3, Hh2, Hh1, Hh0, Hwf, Hp3, <- !app_assoc. reflexivity.
Qed.

End LoggedEmitter.

(** A transport that takes one byte of every buffer. *)
Lemma write_bytes_hands_stuffed_prefix_witness :
  let short := fun (u : unit) (buf : list Z) => (1, u) in
  let x := xbee_fresh (tt, [0x7E]) 0 in
  let r := xbee_write_bytes (logged_write short) x [0x41; 0x7E; 0x42] 0 in
  fst (fst r) = -11 \/ fst (fst r) = -12 \/ fst (fst r) = -13 \/ fst (fst r) = 0.
Proof.
  cbv zeta.
  destruct (write_bytes_hands_stuffed_prefix (fun (u : unit) (buf : list Z) => (1, u))
              (xbee_fresh (tt, [0x7E]) 0) [0x41; 0x7E; 0x42] 0) as (Hret & _).
  - vm_compute. reflexivity.
  - lia.
  - tauto.
Defined.

Lemma send_frame_hands_frame_prefix_witness :
  let short := fun (u : unit) (buf : list Z) => (1, u) in
  let r := xbee_send_frame (logged_write short) (xbee_fresh (tt, []) 0)
                           [0x08; 0x01; 0x4E; 0x4A] in
  exists pre suf,
    handed (snd r) = pre
    /\ pre ++ suf = [0x7E; 0x00; 0x04; 0x08; 0x01; 0x4E; 0x4A; 0x5E].
Proof.
  cbv zeta.
  destruct (send_frame_hands_frame_prefix (fun (u : unit) (buf : list Z) => (1, u))
              (xbee_fresh (tt, []) 0) [0x08; 0x01; 0x4E; 0x4A])
    as (_ & (pre & suf & Hh & Hp) & _).
  - vm_compute. discriminate.
  - exists pre, suf. split; [exact Hh | exact Hp].
Defined.

(** ** Request builders *)

Lemma div_step a k : 0 <= k ->
  a / 2 ^ k = (a / 2 ^ (k + 8)) * 256 + (a / 2 ^ k) mod 256.
Proof.
  intros Hk. rewrite Z.pow_add_r by lia. change (2 ^ 8) with 256.
  rewrite <- Z.div_div by lia.
  rewrite Z.mul_comm. apply Z.div_mod. lia.
Qed.

(** The address loop stores the address most significant byte first. *)
Lemma be_value_addr64 a : 0 <= a < 2 ^ 64 ->
  length (addr64_bytes a) = 8%nat
  /\ Forall (fun b => 0 <= b < 256) (addr64_bytes a)
  /\ be_value (addr64_bytes a) = a.
Proof.
  intros Ha. unfold addr64_bytes. split; [reflexivity |].
  assert (Hb : forall k, 0 <= k ->
            Z.land (Z.shiftr a k) 255 = (a / 2 ^ k) mod 256).
  { intros k Hk. change 255 with (Z.ones 8).
    rewrite Z.land_ones, Z.shiftr_div_pow2 by lia. reflexivity. }
  cbn [map].
  change (64 - 8 * (0 + 1)) with 56. change (64 - 8 * (1 + 1)) with 48.
  change (64 - 8 * (2 + 1)) with 40. change (64 - 8 * (3 + 1)) with 32.
  change (64 - 8 * (4 + 1)) with 24. change (64 - 8 * (5 + 1)) with 16.
  change (64 - 8 * (6 + 1)) with 8. change (64 - 8 * (7 + 1)) with 0.
  rewrite !Hb by lia.
  split.
  - repeat constructor; try (apply Z.mod_pos_bound; lia);
      apply Z.mod_pos_bound; lia.
  - unfold be_value. cbn [fold_left].
    pose proof (div_step a 0 ltac:(lia)) as H0.
    pose proof (div_step a 8 ltac:(lia)) as H8.
    pose proof (div_step a 16 ltac:(lia)) as H16.
    pose proof (div_step a 24 ltac:(lia)) as H24.
    pose proof (div_step a 32 ltac:(lia)) as H32.
    pose proof (div_step a 40 ltac:(lia)) as H40.
    pose proof (div_step a 48 ltac:(lia)) as H48.
    pose proof (div_step a 56 ltac:(lia)) as H56.
    cbn [Z.add Pos.add Pos.succ] in *.
    assert (H64 : a / 2 ^ 64 = 0) by (apply Z.div_small; lia).
    rewrite H64 in H56. change (2 ^ 0) with 1 in *. rewrite Z.div_1_r in *.
    generalize dependent (a / 2 ^ 56). generalize dependent (a / 2 ^ 48).
    generalize dependent (a / 2 ^ 40). generalize dependent (a / 2 ^ 32).
    generalize dependent (a / 2 ^ 24). generalize dependent (a / 2 ^ 16).
    generalize dependent (a / 2 ^ 8).
    intros. lia.
Qed.

(** After the frame start, a builder writes its header and its data with
    two calls of xbee_write_bytes and closes the frame. *)
Ltac header_then_data :=
  rewrite xbee_write_bytes_wire by (cbn [length]; unfold SIZE_MOD; lia);
  cbn [Z.eqb negb];
  rewrite xbee_write_bytes_wire
    by (unfold SIZE_MOD; try apply to_uint8_range; lia);
  cbn [Z.eqb negb];
  rewrite to_uint8_add_l, <- Z.add_assoc, <- sum_bytes_app;
  rewrite xbee_finish_frame_wire, checksum_code, !sent_sent;
  rewrite <- ?app_assoc;
  rewrite wire_frame_parts by (rewrite length_app; cbn [length]; lia).

(** X11.  xbee_at_queue_parameter puts on the wire the frame that xbee_send_frame
    builds for the payload 0x09, frame id, the two command characters and
    the parameter: writing header and parameter separately changes
    neither the escaping nor the checksum. *)
Theorem at_queue_parameter_is_send_frame (x : xbee_interface_t wire)
    (frame_id : Z) (cmd : string) (param : list Z) :
  4 + Z.of_nat (length param) <= 65535 ->
  xbee_at_queue_parameter wire_write x frame_id cmd param
  = xbee_send_frame wire_write x
      ([XBEE_AT_QUEUE_PARAMETER; frame_id; char_at cmd 0; char_at cmd 1]
       ++ param).
Proof.
  intros H. unfold xbee_at_queue_parameter.
  rewrite (to_size_t_small (4 + _)) by (unfold SIZE_MOD; lia).
  rewrite xbee_start_frame_wire by lia. cbn [Z.eqb negb].
  header_then_data.
  rewrite xbee_send_frame_wire by (rewrite length_app; cbn [length]; lia).
  reflexivity.
Qed.

Lemma at_queue_parameter_is_send_frame_witness :
  emitted (xbee_at_queue_parameter wire_write (xbee_fresh idle_wire 0)
                                   0x01 "BD" [0x07])
  = [0x7E; 0x00; 0x05; 0x09; 0x01; 0x42; 0x44; 0x07; 0x68].
Proof.
  rewrite (at_queue_parameter_is_send_frame (xbee_fresh idle_wire 0) 0x01 "BD"
             [0x07]).
  - reflexivity.
  - vm_compute. discriminate.
Defined.

(** X12.  xbee_transmit sets every byte of its header, so the frame does not
    depend on what the automatic arrays held: for each of the four kinds
    of address it is the frame of API id, frame id, address bytes, option
    and data, with the 16-bit address high byte first and the broadcast
    addresses 0xFFFF and 0x000000000000FFFF. *)
Theorem transmit_is_send_frame (x : xbee_interface_t wire)
    (buf5 buf11 : list Z) (frame_id : Z) (address : xbee_address_t)
    (option : Z) (data : list Z) :
  length buf5 = 5%nat -> length buf11 = 11%nat ->
  11 + Z.of_nat (length data) <= 65535 ->
  xbee_transmit wire_write x buf5 buf11 frame_id address option data
  = xbee_send_frame wire_write x
      (match address with
       | XBEE_16_BIT network_address =>
         [XBEE_TRANSMIT_16_BIT; frame_id;
          to_uint8 (Z.shiftr network_address 8);
          Z.land network_address 0xFF; option]
       | XBEE_16_BIT_BROADCAST =>
         [XBEE_TRANSMIT_16_BIT; frame_id; 0xFF; 0xFF; option]
       | XBEE_64_BIT a =>
         [XBEE_TRANSMIT; frame_id] ++ addr64_bytes a ++ [option]
       | XBEE_64_BIT_BROADCAST =>
         [XBEE_TRANSMIT; frame_id; 0; 0; 0; 0; 0; 0; 0xFF; 0xFF; option]
       end ++ data).
Proof.
  intros H5 H11 Hlen.
  do 5 (destruct buf5 as [| ? buf5]; [discriminate H5 |]).
  destruct buf5; [| discriminate H5]. clear H5.
  do 11 (destruct buf11 as [| ? buf11]; [discriminate H11 |]).
  destruct buf11; [| discriminate H11]. clear H11.
  unfold xbee_transmit, transmit_header, transmit_data.
  destruct address as [a | na | |];
    cbn [set_at fill_loop Nat.add length];
    rewrite (to_size_t_small (Z.of_nat _ + _)) by (unfold SIZE_MOD; lia);
    rewrite xbee_start_frame_wire by lia; cbn [Z.eqb negb];
    header_then_data;
    rewrite xbee_send_frame_wire
      by (rewrite !length_app; cbn [length addr64_bytes map]; lia);
    reflexivity.
Qed.

Lemma transmit_is_send_frame_witness :
  emitted (xbee_transmit wire_write (xbee_fresh idle_wire 0)
             [1; 2; 3; 4; 5] [0; 0; 0; 0; 0; 0; 0; 0; 0; 0; 0]
             0x01 (XBEE_16_BIT 0x1234) 0x00 [0x48; 0x69])
  = [0x7E; 0x00; 0x07; 0x01; 0x01; 0x12; 0x34; 0x00; 0x48; 0x69; 0x06].
Proof.
  rewrite (transmit_is_send_frame (xbee_fresh idle_wire 0)
             [1; 2; 3; 4; 5] [0; 0; 0; 0; 0; 0; 0; 0; 0; 0; 0]
             0x01 (XBEE_16_BIT 0x1234) 0x00 [0x48; 0x69]).
  - reflexivity.
  - reflexivity.
  - reflexivity.
  - vm_compute. discriminate.
Defined.

(** X13.  The 64-bit branch of xbee_remote_at_command sets all fifteen header
    bytes: API id, frame id, the eight address bytes most significant
    first, so that they read back as the address, then 0xFF 0xFE, the
    options and the two command characters. *)
Theorem remote_at_64_bit_is_send_frame (x : xbee_interface_t wire)
    (buf0 : list Z) (address options frame_id : Z) (cmd : string)
    (param : list Z) :
  length buf0 = 15%nat ->
  0 <= address < 2 ^ 64 ->
  15 + Z.of_nat (length param) <= 65535 ->
  xbee_remote_at_command wire_write x buf0 (XBEE_64_BIT address)
                         options frame_id cmd param
  = xbee_send_frame wire_write x
      ([XBEE_REMOTE_AT_COMMAND; frame_id] ++ addr64_bytes address
       ++ [0xFF; 0xFE; options; char_at cmd 0; char_at cmd 1] ++ param)
  /\ length (addr64_bytes address) = 8%nat
  /\ be_value (addr64_bytes address) = address.
Proof.
  intros Hb Ha Hlen.
  destruct (be_value_addr64 address Ha) as (Hl & _ & Hv).
  split; [| split; assumption].
  do 15 (destruct buf0 as [| ? buf0]; [discriminate Hb |]).
  destruct buf0; [| discriminate Hb]. clear Hb.
  unfold xbee_remote_at_command.
  rewrite (to_size_t_small (15 + _)) by (unfold SIZE_MOD; lia).
  rewrite xbee_start_frame_wire by lia. cbn [Z.eqb negb].
  set (len := 15 + Z.of_nat (length param)) in *.
  cbn [set_at fill_loop Nat.sub Nat.add].
  subst len. header_then_data.
  rewrite xbee_send_frame_wire
    by (rewrite !length_app, Hl; cbn [length]; lia).
  reflexivity.
Qed.

Lemma remote_at_64_bit_is_send_frame_witness :
  emitted (xbee_remote_at_command wire_write (xbee_fresh idle_wire 0)
             [9; 9; 9; 9; 9; 9; 9; 9; 9; 9; 9; 9; 9; 9; 9]
             (XBEE_64_BIT 0x0013A20040A1B2C3) 0x02 0x01 "D0" [0x05])
  = [0x7E; 0x00; 0x10; 0x17; 0x01;
     0x00; 0x7D; 0x33; 0xA2; 0x00; 0x40; 0xA1; 0xB2; 0xC3;
     0xFF; 0xFE; 0x02; 0x44; 0x30; 0x05; 0x64].
Proof.
  destruct (remote_at_64_bit_is_send_frame (xbee_fresh idle_wire 0)
              [9; 9; 9; 9; 9; 9; 9; 9; 9; 9; 9; 9; 9; 9; 9]
              0x0013A20040A1B2C3 0x02 0x01 "D0" [0x05]) as (H & _).
  - reflexivity.
  - vm_compute. split; [discriminate | reflexivity].
  - vm_compute. discriminate.
  - rewrite H. vm_compute. reflexivity.
Defined.

(** ** Parser: what a parsed frame keeps of the payload *)

Section ParserFields.
Variables MODEM_STATUS TRANSMIT_STATUS AT_RESPONSE REMOTE_AT_RESPONSE
          RECEIVE RECEIVE_16_BIT : Z.
Variable shl_int : Z -> Z -> Z.

Local Abbreviation ids :=
  [MODEM_STATUS; TRANSMIT_STATUS; AT_RESPONSE; REMOTE_AT_RESPONSE;
   RECEIVE; RECEIVE_16_BIT].
Local Abbreviation parse :=
  (xbee_parse_frame MODEM_STATUS TRANSMIT_STATUS AT_RESPONSE
                    REMOTE_AT_RESPONSE RECEIVE RECEIVE_16_BIT shl_int).

(** The tests of the switch that come before the case of [X] fail. *)
Ltac earlier_cases_fail X :=
  repeat match goal with
         | |- context [X =? ?v] =>
           lazymatch v with
           | X => fail
           | _ => rewrite (proj2 (Z.eqb_neq X v))
               by (intros E; symmetry in E; revert E; tauto)
           end
         end.

Lemma parse_modem_status (pf : xbee_parsed_frame_t) (b : list Z) :
  NoDup ids -> byte_at b 0 = MODEM_STATUS ->
  parse pf b
  = if Z.of_nat (length b) <? 2 then (XBEE_WRONG_LENGTH_FOR_API, pf)
    else if negb (Z.of_nat (length b) =? 2)
    then (XBEE_WRONG_LENGTH_FOR_API,
          mk_parsed MODEM_STATUS 0 0 (frame_at_command_response zero_frame)
                    (frame_receive zero_frame))
    else (PARSE_OK,
          mk_parsed MODEM_STATUS 0 (byte_at b 1)
                    (frame_at_command_response zero_frame)
                    (frame_receive zero_frame)).
Proof.
  intros Hnd Hid. unfold xbee_parse_frame. cbn [api_id frame_id].
  rewrite Hid, Z.eqb_refl. reflexivity.
Qed.

Lemma parse_transmit_status (pf : xbee_parsed_frame_t) (b : list Z) :
  NoDup ids -> byte_at b 0 = TRANSMIT_STATUS ->
  parse pf b
  = if Z.of_nat (length b) <? 2 then (XBEE_WRONG_LENGTH_FOR_API, pf)
    else if negb (Z.of_nat (length b) =? 3)
    then (XBEE_WRONG_LENGTH_FOR_API,
          mk_parsed TRANSMIT_STATUS 0 0 (frame_at_command_response zero_frame)
                    (frame_receive zero_frame))
    else (PARSE_OK,
          mk_parsed TRANSMIT_STATUS (byte_at b 1) (byte_at b 2)
                    (frame_at_command_response zero_frame)
                    (frame_receive zero_frame)).
Proof.
  intros Hnd Hid. pose proof (ids_distinct _ _ _ _ _ _ shl_int Hnd) as Hd. clear Hnd.
  unfold xbee_parse_frame. cbn [api_id frame_id]. rewrite Hid.
  earlier_cases_fail TRANSMIT_STATUS. rewrite Z.eqb_refl. reflexivity.
Qed.

Lemma parse_at_response (pf : xbee_parsed_frame_t) (b : list Z) :
  NoDup ids -> byte_at b 0 = AT_RESPONSE ->
  parse pf b
  = if Z.of_nat (length b) <? 2 then (XBEE_WRONG_LENGTH_FOR_API, pf)
    else if Z.of_nat (length b) <? 5
    then (XBEE_WRONG_LENGTH_FOR_API,
          mk_parsed AT_RESPONSE 0 0 (frame_at_command_response zero_frame)
                    (frame_receive zero_frame))
    else (PARSE_OK,
          mk_parsed AT_RESPONSE (byte_at b 1) 0
            (mk_atr [byte_at b 2; byte_at b 3; 0] (byte_at b 4)
                    (to_size_t (Z.of_nat (length b) - 5)) (slice_from b 5) 0 0)
            (frame_receive zero_frame)).
Proof.
  intros Hnd Hid. pose proof (ids_distinct _ _ _ _ _ _ shl_int Hnd) as Hd. clear Hnd.
  unfold xbee_parse_frame. cbn [api_id frame_id]. rewrite Hid.
  earlier_cases_fail AT_RESPONSE. rewrite Z.eqb_refl. reflexivity.
Qed.

Lemma parse_remote_at_response (pf : xbee_parsed_frame_t) (b : list Z) :
  NoDup ids -> byte_at b 0 = REMOTE_AT_RESPONSE ->
  15 <= Z.of_nat (length b) ->
  parse pf b
  = (PARSE_OK,
     mk_parsed REMOTE_AT_RESPONSE (byte_at b 1) 0
       (mk_atr [byte_at b 12; byte_at b 13; 0] (byte_at b 14)
               (to_size_t (Z.of_nat (length b) - 15)) (slice_from b 15)
               (addr_loop shl_int 8 0 2 b 0)
               (to_uint16
                  (Z.lor (to_uint16 (Z.lor 0 (Z.shiftl (byte_at b 10) 8)))
                         (byte_at b 11))))
       (frame_receive zero_frame)).
Proof.
  intros Hnd Hid Hlen. pose proof (ids_distinct _ _ _ _ _ _ shl_int Hnd) as Hd. clear Hnd.
  unfold xbee_parse_frame. cbn [api_id frame_id]. rewrite Hid.
  rewrite (proj2 (Z.ltb_ge _ 2)) by lia.
  earlier_cases_fail REMOTE_AT_RESPONSE.
  rewrite Z.eqb_refl, (proj2 (Z.ltb_ge _ 15)) by lia.
  reflexivity.
Qed.

(** X14.  Nothing is lost of a modem status, transmit status or AT response
    frame: a payload that xbee_parse_frame accepts is rebuilt from the
    fields it filled in, and the data size it reports for an AT response
    is the number of data bytes. *)
Theorem parse_frame_fields_rebuild_payload (pf : xbee_parsed_frame_t)
    (b : list Z) :
  NoDup ids ->
  Z.of_nat (length b) < SIZE_MOD ->
  fst (parse pf b) = PARSE_OK ->
  let r := snd (parse pf b) in
  let at_r := frame_at_command_response r in
  (byte_at b 0 = MODEM_STATUS -> b = [api_id r; frame_status r])
  /\ (byte_at b 0 = TRANSMIT_STATUS ->
      b = [api_id r; frame_id r; frame_status r])
  /\ (byte_at b 0 = AT_RESPONSE ->
      b = [api_id r; frame_id r] ++ firstn 2 (atr_at_command at_r)
          ++ [atr_status at_r] ++ atr_data at_r
      /\ atr_data_size at_r = Z.of_nat (length (atr_data at_r))).
Proof.
  intros Hnd Hsz Hok. cbv zeta. split; [| split]; intros Hid.
  - rewrite parse_modem_status in Hok |- * by assumption.
    destruct (Z.ltb_spec (Z.of_nat (length b)) 2); [discriminate Hok |].
    destruct (Z.eqb_spec (Z.of_nat (length b)) 2) as [H2 | _];
      [| discriminate Hok].
    cbn [negb snd api_id frame_status]. rewrite <- Hid.
    destruct b as [| b0 [| b1 [| ? ?]]]; cbn [length] in H2; try lia.
    reflexivity.
  - rewrite parse_transmit_status in Hok |- * by assumption.
    destruct (Z.ltb_spec (Z.of_nat (length b)) 2); [discriminate Hok |].
    destruct (Z.eqb_spec (Z.of_nat (length b)) 3) as [H3 | _];
      [| discriminate Hok].
    cbn [negb snd api_id frame_id frame_status]. rewrite <- Hid.
    destruct b as [| b0 [| b1 [| b2 [| ? ?]]]]; cbn [length] in H3; try lia.
    reflexivity.
  - rewrite parse_at_response in Hok |- * by assumption.
    destruct (Z.ltb_spec (Z.of_nat (length b)) 2); [discriminate Hok |].
    destruct (Z.ltb_spec (Z.of_nat (length b)) 5) as [| H5];
      [discriminate Hok |].
    cbn [snd api_id frame_id frame_at_command_response atr_at_command
         atr_status atr_data atr_data_size firstn].
    rewrite <- Hid. unfold slice_from.
    rewrite to_size_t_small by lia. rewrite length_skipn.
    split; [| lia].
    destruct b as [| b0 [| b1 [| b2 [| b3 [| b4 b]]]]];
      cbn [length] in H5; try lia.
    reflexivity.
Qed.

(** X15.  A remote AT response keeps its 16-bit responder address: the two ORs
    into the zeroed field give b[10] * 256 + b[11].  Frame id, command,
    status and data are the bytes at their offsets, and the data size is
    what is left of the payload behind its 15 header bytes. *)
Theorem parse_remote_at_response_fields (pf : xbee_parsed_frame_t)
    (b : list Z) :
  NoDup ids ->
  byte_at b 0 = REMOTE_AT_RESPONSE ->
  15 <= Z.of_nat (length b) < SIZE_MOD ->
  0 <= byte_at b 10 < 256 -> 0 <= byte_at b 11 < 256 ->
  let r := parse pf b in
  let at_r := frame_at_command_response (snd r) in
  fst r = PARSE_OK
  /\ frame_id (snd r) = byte_at b 1
  /\ atr_responder_network_address at_r = byte_at b 10 * 256 + byte_at b 11
  /\ atr_at_command at_r = [byte_at b 12; byte_at b 13; 0]
  /\ atr_status at_r = byte_at b 14
  /\ b = firstn 15 b ++ atr_data at_r
  /\ atr_data_size at_r = Z.of_nat (length (atr_data at_r)).
Proof.
  intros Hnd Hid Hlen H10 H11. cbv zeta.
  rewrite parse_remote_at_response by (try assumption; lia).
  cbn [fst snd frame_id frame_at_command_response atr_at_command atr_status
       atr_data atr_data_size atr_responder_network_address].
  split; [reflexivity | split; [reflexivity | split]].
  - rewrite Z.lor_0_l.
    assert (Hs : Z.shiftl (byte_at b 10) 8 = byte_at b 10 * 256).
    { rewrite Z.shiftl_mul_pow2 by lia. reflexivity. }
    unfold to_uint16.
    rewrite (Z.mod_small (Z.shiftl _ 8)) by (rewrite Hs; lia).
    rewrite lor_shiftl_8 by lia.
    apply Z.mod_small. lia.
  - split; [reflexivity | split; [reflexivity |]].
    unfold slice_from. rewrite to_size_t_small by lia.
    rewrite length_skipn, firstn_skipn. split; [reflexivity | lia].
Qed.

End ParserFields.

Lemma parse_frame_fields_rebuild_payload_witness :
  let r := snd (parse_xbee zero_frame [0x88; 0x52; 0x4E; 0x4A; 0x00; 0x01]) in
  [0x88; 0x52; 0x4E; 0x4A; 0x00; 0x01]
  = [api_id r; frame_id r]
    ++ firstn 2 (atr_at_command (frame_at_command_response r))
    ++ [atr_status (frame_at_command_response r)]
    ++ atr_data (frame_at_command_response r).
Proof.
  cbv zeta.
  destruct (parse_frame_fields_rebuild_payload 0x8A 0x89 0x88 0x97 0x80 0x81
              (fun v n => to_int (Z.shiftl v (Z.land n 31)))
              zero_frame [0x88; 0x52; 0x4E; 0x4A; 0x00; 0x01])
    as (_ & _ & H).
  - exact xbee_ids_distinct.
  - reflexivity.
  - reflexivity.
  - destruct (H eq_refl) as [Hb _]. exact Hb.
Defined.

Lemma parse_remote_at_response_fields_witness :
  let b := [0x97; 0x01; 0; 0x13; 0xA2; 0; 0x40; 0xA1; 0xB2; 0xC3;
            0x12; 0x34; 0x44; 0x30; 0x00; 0x05] in
  atr_responder_network_address
    (frame_at_command_response (snd (parse_xbee zero_frame b)))
  = 0x1234.
Proof.
  cbv zeta.
  destruct (parse_remote_at_response_fields 0x8A 0x89 0x88 0x97 0x80 0x81
              (fun v n => to_int (Z.shiftl v (Z.land n 31)))
              zero_frame
              [0x97; 0x01; 0; 0x13; 0xA2; 0; 0x40; 0xA1; 0xB2; 0xC3;
               0x12; 0x34; 0x44; 0x30; 0x00; 0x05])
    as (_ & _ & H & _).
  - exact xbee_ids_distinct.
  - reflexivity.
  - vm_compute. split; [discriminate | reflexivity].
  - vm_compute. split; [discriminate | reflexivity].
  - vm_compute. split; [discriminate | reflexivity].
  - exact H.
Defined.

(** ** Filling the ring from the transport *)

Lemma firstn_add {A} (a b : nat) (l : list A) :
  firstn (a + b) l = firstn a l ++ firstn b (skipn a l).
Proof.
  revert l. induction a as [| a IH]; intros l; [reflexivity |].
  destruct l as [| h t]; [cbn; rewrite firstn_nil; reflexivity |].
  cbn. rewrite IH. reflexivity.
Qed.

Lemma length_store_at (recv : list Z) (start : Z) (data : list Z) :
  0 <= start -> (Z.to_nat start + length data <= length recv)%nat ->
  length (store_at recv start data) = length recv.
Proof.
  intros H0 H. unfold store_at.
  rewrite !length_app, length_firstn, length_skipn. lia.
Qed.

(** A store of [data] at [start] changes the cells it covers and no
    other. *)
Lemma byte_at_store_at (recv : list Z) (start : Z) (data : list Z) (j : Z) :
  0 <= start -> (Z.to_nat start + length data <= length recv)%nat -> 0 <= j ->
  byte_at (store_at recv start data) j
  = if (start <=? j) && (j <? start + Z.of_nat (length data))
    then nth (Z.to_nat (j - start)) data 0 else byte_at recv j.
Proof.
  intros H0 Hfit Hj. unfold byte_at, store_at.
  assert (Hlf : length (firstn (Z.to_nat start) recv) = Z.to_nat start)
    by (rewrite length_firstn; lia).
  destruct (Z.leb_spec start j) as [Hle | Hlt]; cbn [andb].
  - rewrite app_nth2 by lia. rewrite Hlf.
    destruct (Z.ltb_spec j (start + Z.of_nat (length data))) as [Hin | Hout].
    + rewrite app_nth1 by lia. f_equal. lia.
    + rewrite app_nth2 by lia. rewrite nth_skipn. f_equal. lia.
  - rewrite app_nth1 by lia. rewrite nth_firstn.
    destruct (Nat.ltb_spec (Z.to_nat j) (Z.to_nat start)); [reflexivity | lia].
Qed.

(** One read into the free part of the ring, counted into recv_size. *)
Lemma store_appends {U} (x : xbee_interface_t U) (u : U) (start : Z)
    (data : list Z) :
  ring_ok x -> length (recv x) = Z.to_nat (recv_max_size x) ->
  start = (if recv_idx x + recv_size x <? recv_max_size x
           then recv_idx x + recv_size x
           else recv_idx x + recv_size x - recv_max_size x) ->
  start + Z.of_nat (length data) <= recv_max_size x ->
  recv_size x + Z.of_nat (length data) <= recv_max_size x ->
  let x' := mk_xbee u (recv_max_size x) (store_at (recv x) start data)
                    (recv_idx x) (recv_size x + Z.of_nat (length data)) in
  ring_bytes x' = ring_bytes x ++ data
  /\ ring_ok x'
  /\ length (recv x') = Z.to_nat (recv_max_size x').
Proof.
  intros Hok Hlen Hstart Hfit Hroom x'.
  pose proof Hok as (Hi & Hs & Hm).
  assert (Hs0 : 0 <= start)
    by (destruct (recv_idx x + recv_size x <? recv_max_size x) eqn:E;
        [| apply Z.ltb_ge in E]; lia).
  assert (Hok' : ring_ok x')
    by (unfold ring_ok, x'; cbn [recv_idx recv_size recv_max_size]; lia).
  split; [| split; [exact Hok' |]].
  2:{ unfold x'. cbn [recv recv_max_size]. rewrite length_store_at; lia. }
  apply nth_ext with (d := 0) (d' := 0).
  - rewrite length_app, !ring_bytes_length. unfold x'. cbn [recv_size]. lia.
  - intros n Hn. rewrite ring_bytes_length in Hn.
    assert (Hn' : Z.of_nat n < recv_size x + Z.of_nat (length data))
      by (unfold x' in Hn; cbn [recv_size] in Hn; lia).
    rewrite <- ring_bytes_nth by exact Hn.
    rewrite get_byte_mod
      by (try exact Hok'; unfold x'; cbn [recv_max_size]; lia).
    unfold x'. cbn [recv recv_idx recv_max_size].
    rewrite <- (wrap_once (recv_idx x + Z.of_nat n) (recv_max_size x)) by lia.
    assert (Hp : 0 <= (if recv_idx x + Z.of_nat n >=? recv_max_size x
                       then recv_idx x + Z.of_nat n - recv_max_size x
                       else recv_idx x + Z.of_nat n))
      by (destruct (Z.geb_spec (recv_idx x + Z.of_nat n) (recv_max_size x));
          lia).
    rewrite byte_at_store_at by (try exact Hp; lia).
    clear Hp.
    destruct (Z.ltb_spec (Z.of_nat n) (recv_size x)) as [Hold | Hnew].
    + rewrite app_nth1 by (rewrite ring_bytes_length; lia).
      rewrite <- ring_bytes_nth by lia.
      rewrite get_byte_mod by (try exact Hok; lia).
      rewrite <- (wrap_once (recv_idx x + Z.of_nat n) (recv_max_size x)) by lia.
      replace ((start <=? _) && (_ <? start + Z.of_nat (length data)))
        with false; [reflexivity |].
      symmetry. apply andb_false_iff.
      rewrite Z.leb_gt, Z.ltb_ge.
      destruct (Z.geb_spec (recv_idx x + Z.of_nat n) (recv_max_size x));
        destruct (Z.ltb_spec (recv_idx x + recv_size x) (recv_max_size x));
        lia.
    + rewrite app_nth2 by (rewrite ring_bytes_length; lia).
      rewrite ring_bytes_length.
      replace ((start <=? _) && (_ <? start + Z.of_nat (length data)))
        with true.
      * f_equal.
        destruct (Z.geb_spec (recv_idx x + Z.of_nat n) (recv_max_size x));
          destruct (Z.ltb_spec (recv_idx x + recv_size x) (recv_max_size x));
          lia.
      * symmetry. apply andb_true_iff.
        rewrite Z.leb_le, Z.ltb_lt.
        destruct (Z.geb_spec (recv_idx x + Z.of_nat n) (recv_max_size x));
          destruct (Z.ltb_spec (recv_idx x + recv_size x) (recv_max_size x));
          lia.
Qed.

Lemma read_wire (x : xbee_interface_t wire) (start len : Z) :
  read wire_read x start len
  = (Z.of_nat (length (firstn (Z.to_nat len) (rx (uart x)))),
     mk_xbee (mk_wire (tx (uart x)) (skipn (Z.to_nat len) (rx (uart x))))
             (recv_max_size x)
             (store_at (recv x) start (firstn (Z.to_nat len) (rx (uart x))))
             (recv_idx x) (recv_size x)).
Proof.
  unfold read, wire_read. rewrite firstn_firstn, Nat.min_id. reflexivity.
Qed.

(** recv_size += ret after a read that may have brought nothing. *)
Lemma grow_if_positive {U} (u : U) (m : Z) (rv : list Z) (i s n : Z) :
  0 <= s -> 0 <= n -> s + n < SIZE_MOD ->
  (if n >? 0 then grow (mk_xbee u m rv i s) n else mk_xbee u m rv i s)
  = mk_xbee u m rv i (s + n).
Proof.
  intros Hs Hn Hb. destruct (Z.gtb_spec n 0).
  - unfold grow. cbn [uart recv_max_size recv recv_idx recv_size].
    rewrite (to_size_t_small n), to_size_t_small by lia. reflexivity.
  - f_equal. lia.
Qed.

Lemma grow_pair_if_positive {U} (u : U) (m : Z) (rv : list Z) (i s n rd : Z) :
  0 <= s -> 0 <= n -> s + n < SIZE_MOD -> 0 <= rd -> rd + n < SIZE_MOD ->
  (if n >? 0
   then (grow (mk_xbee u m rv i s) n, to_size_t (rd + to_size_t n))
   else (mk_xbee u m rv i s, rd))
  = (mk_xbee u m rv i (s + n), rd + n).
Proof.
  intros Hs Hn Hb Hr Hrb. destruct (Z.gtb_spec n 0).
  - unfold grow. cbn [uart recv_max_size recv recv_idx recv_size].
    rewrite (to_size_t_small n), !to_size_t_small by lia. reflexivity.
  - f_equal; [f_equal |]; lia.
Qed.

Lemma to_int_small z : 0 <= z <= INT_MAX -> to_int z = z.
Proof.
  intros H. unfold to_int. rewrite Z.mod_small by (unfold INT_MAX in *; lia).
  destruct (Z.leb_spec z INT_MAX); lia.
Qed.

(** xbee_fill_buffer on the recording transport: the ring takes, in order,
    as many of the waiting bytes as it has room for. *)
Lemma xbee_fill_buffer_wire (x : xbee_interface_t wire) :
  ring_ok x -> length (recv x) = Z.to_nat (recv_max_size x) ->
  let free := Z.to_nat (recv_max_size x - recv_size x) in
  let f := xbee_fill_buffer wire_read x in
  ring_bytes (snd f) = ring_bytes x ++ firstn free (rx (uart x))
  /\ fst f = Z.of_nat (length (firstn free (rx (uart x))))
  /\ rx (uart (snd f)) = skipn free (rx (uart x))
  /\ tx (uart (snd f)) = tx (uart x)
  /\ ring_ok (snd f)
  /\ length (recv (snd f)) = Z.to_nat (recv_max_size (snd f))
  /\ recv_max_size (snd f) = recv_max_size x.
Proof.
  intros Hok Hlen. pose proof Hok as (Hi & Hs & Hm).
  pose proof int_max_lt_size_mod as [HM0 HM]. cbv zeta.
  unfold xbee_fill_buffer.
  rewrite (to_size_t_small (recv_idx x + recv_size x)) by lia.
  destruct (Z.ltb_spec (recv_idx x + recv_size x) (recv_max_size x))
    as [Hlt | Hge].
  - set (len := recv_max_size x - (recv_idx x + recv_size x)).
    assert (Hlen0 : 0 < len) by (unfold len; lia).
    rewrite (to_size_t_small len) by (unfold len; lia).
    rewrite read_wire.
    set (d1 := firstn (Z.to_nat len) (rx (uart x))).
    assert (Hd1 : Z.of_nat (length d1) <= len)
      by (unfold d1; rewrite length_firstn; lia).
    rewrite grow_if_positive by (unfold len in *; lia).
    cbn [recv_idx recv_size recv_max_size].
    rewrite (to_size_t_small (Z.of_nat (length d1))) by (unfold len in *; lia).
    rewrite (proj2 (Z.eqb_neq (recv_max_size x) (recv_idx x))) by lia.
    cbn [negb]. rewrite andb_true_r.
    destruct (store_appends x
                (mk_wire (tx (uart x)) (skipn (Z.to_nat len) (rx (uart x))))
                (recv_idx x + recv_size x) d1 Hok Hlen)
      as (Hb1 & Hok1 & Hl1); try (unfold len in *; lia).
    { rewrite (proj2 (Z.ltb_lt _ _) Hlt). reflexivity. }
    destruct ((Z.of_nat (length d1) =? len)
              && (recv_size x + Z.of_nat (length d1) <? recv_max_size x))
      eqn:Hcond.
    + apply andb_prop in Hcond. destruct Hcond as [Hfull Hroom].
      apply Z.eqb_eq in Hfull. apply Z.ltb_lt in Hroom.
      rewrite Z.sub_0_r, (to_size_t_small (recv_idx x)) by lia.
      rewrite read_wire.
      cbn [uart recv_max_size recv recv_idx recv_size tx rx].
      set (d2 := firstn (Z.to_nat (recv_idx x))
                        (skipn (Z.to_nat len) (rx (uart x)))).
      assert (Hd2 : Z.of_nat (length d2) <= recv_idx x)
        by (unfold d2; rewrite length_firstn; lia).
      rewrite grow_pair_if_positive by (unfold len in *; lia).
      destruct (store_appends _
                  (mk_wire (tx (uart x))
                     (skipn (Z.to_nat (recv_idx x))
                        (skipn (Z.to_nat len) (rx (uart x)))))
                  0 d2 Hok1 Hl1)
        as (Hb2 & Hok2 & Hl2);
        try (cbn [recv_idx recv_size recv_max_size]; unfold len in *; lia).
      { cbn [recv_idx recv_size recv_max_size].
        rewrite (proj2 (Z.ltb_ge _ _)) by (unfold len in *; lia).
        unfold len in *. lia. }
      cbn [uart recv_max_size recv recv_idx recv_size] in Hb2, Hok2, Hl2.
      assert (Hgot : firstn (Z.to_nat (recv_max_size x - recv_size x))
                            (rx (uart x)) = d1 ++ d2).
      { replace (Z.to_nat (recv_max_size x - recv_size x))
          with (Z.to_nat len + Z.to_nat (recv_idx x))%nat
          by (unfold len; lia).
        rewrite firstn_add. reflexivity. }
      cbn [fst snd uart recv_max_size recv tx rx].
      rewrite Hgot, Hb2, Hb1, <- app_assoc, skipn_skipn, length_app.
      replace (Z.to_nat (recv_idx x) + Z.to_nat len)%nat
        with (Z.to_nat (recv_max_size x - recv_size x))
        by (unfold len; lia).
      split; [reflexivity |].
      split; [rewrite to_int_small by (unfold len in *; lia); lia |].
      split; [reflexivity | split; [reflexivity |]].
      split; [exact Hok2 | split; [exact Hl2 | reflexivity]].
    + cbn [fst snd uart recv_max_size recv tx rx].
      assert (Hgot : firstn (Z.to_nat (recv_max_size x - recv_size x))
                            (rx (uart x)) = d1
                     /\ skipn (Z.to_nat (recv_max_size x - recv_size x))
                              (rx (uart x))
                        = skipn (Z.to_nat len) (rx (uart x))).
      { apply andb_false_iff in Hcond.
        destruct Hcond as [Hshort | Hnoroom].
        - apply Z.eqb_neq in Hshort.
          assert (Hall : (length (rx (uart x)) < Z.to_nat len)%nat).
          { unfold d1 in Hshort, Hd1. rewrite length_firstn in Hshort, Hd1. lia. }
          unfold d1. rewrite !firstn_all2, !skipn_all2 by (unfold len in *; lia).
          auto.
        - apply Z.ltb_ge in Hnoroom.
          replace (Z.to_nat (recv_max_size x - recv_size x))
            with (Z.to_nat len) by (unfold len in *; lia).
          auto. }
      destruct Hgot as [Hg1 Hg2]. rewrite Hg1, Hg2, Hb1.
      split; [reflexivity | split; [reflexivity |]].
      split; [reflexivity | split; [reflexivity |]].
      split; [exact Hok1 | split; [exact Hl1 | reflexivity]].
  - rewrite (to_size_t_small (_ - recv_max_size x)) by lia.
    replace (recv_idx x - (recv_idx x + recv_size x - recv_max_size x))
      with (recv_max_size x - recv_size x) by lia.
    set (len := recv_max_size x - recv_size x).
    rewrite (to_size_t_small len) by (unfold len; lia).
    rewrite read_wire.
    set (d1 := firstn (Z.to_nat len) (rx (uart x))).
    assert (Hd1 : Z.of_nat (length d1) <= len)
      by (unfold d1; rewrite length_firstn; lia).
    rewrite grow_if_positive by (unfold len in *; lia).
    cbn [recv_idx recv_size recv_max_size].
    rewrite Z.eqb_refl. cbn [negb]. rewrite andb_false_r. cbn [andb].
    destruct (store_appends x
                (mk_wire (tx (uart x)) (skipn (Z.to_nat len) (rx (uart x))))
                (recv_idx x + recv_size x - recv_max_size x) d1 Hok Hlen)
      as (Hb1 & Hok1 & Hl1); try (unfold len in *; lia).
    { rewrite (proj2 (Z.ltb_ge _ _) Hge). reflexivity. }
    cbn [fst snd uart recv_max_size recv tx rx].
    rewrite Hb1.
    split; [reflexivity | split; [reflexivity |]].
    split; [reflexivity | split; [reflexivity |]].
    split; [exact Hok1 | split; [exact Hl1 | reflexivity]].
Qed.

(** X16.  On a ring that is not full (on a full one the assertion
    read_end > read_start of the first span stops the call),
    xbee_fill_buffer never overwrites a byte that waits in the ring and
    never reorders what arrives: afterwards the ring holds what it held,
    followed by as many of the waiting bytes as there was room for, also
    when that takes two reads around the end of the storage.  The result
    is the number of bytes taken, and exactly these are taken from the
    transport. *)
Theorem fill_buffer_appends_in_order (x : xbee_interface_t wire) :
  ring_ok x -> length (recv x) = Z.to_nat (recv_max_size x) ->
  recv_size x < recv_max_size x ->
  let free := Z.to_nat (recv_max_size x - recv_size x) in
  let f := xbee_fill_buffer wire_read x in
  ring_bytes (snd f) = ring_bytes x ++ firstn free (rx (uart x))
  /\ fst f = Z.of_nat (length (firstn free (rx (uart x))))
  /\ rx (uart (snd f)) = skipn free (rx (uart x))
  /\ tx (uart (snd f)) = tx (uart x)
  /\ ring_ok (snd f).
Proof.
  intros Hok Hlen _. cbv zeta.
  destruct (xbee_fill_buffer_wire x Hok Hlen) as (H1 & H2 & H3 & H4 & H5 & _).
  auto.
Qed.

Lemma fill_buffer_appends_in_order_witness :
  let x := mk_xbee (mk_wire [] [0x21; 0x22; 0x23; 0x24; 0x25; 0x26])
                   8 [0; 0; 0; 0x11; 0x12; 0x13; 0; 0] 3 3 in
  let f := xbee_fill_buffer wire_read x in
  ring_bytes (snd f) = [0x11; 0x12; 0x13; 0x21; 0x22; 0x23; 0x24; 0x25]
  /\ fst f = 5
  /\ rx (uart (snd f)) = [0x26].
Proof.
  cbv zeta.
  destruct (fill_buffer_appends_in_order
              (mk_xbee (mk_wire [] [0x21; 0x22; 0x23; 0x24; 0x25; 0x26])
                       8 [0; 0; 0; 0x11; 0x12; 0x13; 0; 0] 3 3))
    as (H1 & H2 & H3 & _).
  - unfold ring_ok. vm_compute. repeat split; discriminate.
  - reflexivity.
  - reflexivity.
  - rewrite H1, H2, H3. vm_compute. auto.
Defined.

(** xbee_recv_frame when the ring holds the start of a frame and the
    transport the rest: the first scan waits, the fill appends, the second
    scan decodes. *)
Lemma recv_frame_wire_partial (y : xbee_interface_t wire)
    (P more : list Z) (k : nat) (frame_out_size : Z) (out : Z -> Z) :
  ring_ok y -> length (recv y) = Z.to_nat (recv_max_size y) ->
  2 <= Z.of_nat (length P) <= 65535 ->
  (k < length (wire_frame P))%nat ->
  ring_bytes y = firstn k (wire_frame P) ->
  rx (uart y) = skipn k (wire_frame P) ++ more ->
  Z.of_nat (length (wire_frame P)) <= recv_max_size y ->
  Z.of_nat (length P) + 1 <= frame_out_size ->
  let r := xbee_recv_frame wire_read y frame_out_size out in
  let room := (Z.to_nat (recv_max_size y) - length (wire_frame P))%nat in
  fst (fst r) = Z.of_nat (length P)
  /\ mem_read (snd r) (length P) = P
  /\ ring_bytes (snd (fst r)) = firstn room more
  /\ ring_ok (snd (fst r))
  /\ recv_max_size (snd (fst r)) = recv_max_size y
  /\ length (recv (snd (fst r))) = Z.to_nat (recv_max_size y)
  /\ tx (uart (snd (fst r))) = tx (uart y)
  /\ rx (uart (snd (fst r))) = skipn room more.
Proof.
  intros Hok Hlen HP Hk Hring Hrx Hcap Hfit. cbv zeta.
  pose proof Hok as (Hi & Hs & Hm). pose proof int_max_lt_size_mod as [HM0 HM].
  pose proof (length_wire_frame P) as Hfl.
  pose proof (ring_bytes_size y _ (proj1 Hs) Hring) as Hrs.
  rewrite length_firstn, Nat.min_l in Hrs by lia.
  unfold xbee_recv_frame.
  destruct (decode_partial_frame y P k frame_out_size out) as [Hz Hy];
    try assumption; try lia.
  destruct (xbee_decode_frame y frame_out_size out) as [[r0 y0] out0].
  cbn [fst snd] in Hz, Hy. subst r0 y0. cbn [Z.gtb Z.compare].
  destruct (xbee_fill_buffer_wire y Hok Hlen)
    as (Hb & Hret & Hrx1 & Htx1 & Hok1 & Hl1 & Hmax).
  destruct (xbee_fill_buffer wire_read y) as [ret y1].
  cbn [fst snd] in Hb, Hret, Hrx1, Htx1, Hok1, Hl1, Hmax.
  rewrite (proj2 (Z.ltb_ge ret 0)) by lia.
  assert (Hb' : ring_bytes y1
                = [] ++ wire_frame P
                  ++ firstn (Z.to_nat (recv_max_size y) - length (wire_frame P))
                            more).
  { rewrite Hb, Hring, Hrx, firstn_app, length_skipn.
    rewrite (firstn_all2 (skipn k (wire_frame P)))
      by (rewrite length_skipn; lia).
    cbn [app]. rewrite app_assoc, firstn_skipn. do 2 f_equal. lia. }
  destruct (decode_after_garbage [] y1 P _ frame_out_size out0 Hok1
              (Forall_nil _) HP Hb' ltac:(lia) Hfit) as (H1 & H2 & H3 & H4).
  destruct (xbee_decode_frame_same y1 frame_out_size out0) as (Hu & Hm2 & Hr2).
  rewrite Hu, Hm2, Hr2, Hmax, Htx1, Hrx1, Hrx, skipn_app, length_skipn.
  rewrite (skipn_all2 (skipn k (wire_frame P)))
    by (rewrite length_skipn; lia).
  cbn [app].
  replace (Z.to_nat (recv_max_size y - recv_size y)
           - (length (wire_frame P) - k))%nat
    with (Z.to_nat (recv_max_size y) - length (wire_frame P))%nat by lia.
  rewrite Hmax in Hl1. auto 10.
Qed.

(** X17.  End to end.  Let the frame that xbee_send_frame emits for a payload
    of 2 to 65535 bytes be no longer than the ring, and the output buffer
    hold the payload and its checksum (|P| + 1 <= frame_out_size).
    Whatever part of the frame is already in the ring, when the rest of it
    waits on the transport one call of xbee_recv_frame returns the
    payload: the first scan waits, the fill appends the rest, the second
    scan decodes.  Bytes that follow the frame stay in the ring. *)
Theorem recv_frame_receives_sent_frame (y : xbee_interface_t wire)
    (P more : list Z) (k : nat) (frame_out_size : Z) (out : Z -> Z) :
  let frame := emitted (xbee_send_frame wire_write (xbee_fresh idle_wire 0) P) in
  ring_ok y -> length (recv y) = Z.to_nat (recv_max_size y) ->
  2 <= Z.of_nat (length P) <= 65535 ->
  (k < length frame)%nat ->
  ring_bytes y = firstn k frame ->
  rx (uart y) = skipn k frame ++ more ->
  Z.of_nat (length frame) <= recv_max_size y ->
  Z.of_nat (length P) + 1 <= frame_out_size ->
  let r := xbee_recv_frame wire_read y frame_out_size out in
  fst (fst r) = Z.of_nat (length P)
  /\ mem_read (snd r) (length P) = P
  /\ ring_bytes (snd (fst r))
     = firstn (Z.to_nat (recv_max_size y) - length frame) more.
Proof.
  intros frame Hok Hlen HP.
  assert (Hfr : frame = wire_frame P).
  { unfold frame. rewrite xbee_send_frame_wire by lia. reflexivity. }
  rewrite Hfr. clear frame Hfr.
  intros Hk Hring Hrx Hcap Hfit. cbv zeta.
  destruct (recv_frame_wire_partial y P more k frame_out_size out)
    as (H1 & H2 & H3 & _); auto.
Qed.

Lemma recv_frame_receives_sent_frame_witness :
  let y := mk_xbee (mk_wire [] [0x01; 0x4E; 0x4A; 0x7D; 0x5E; 0xE0; 0x7E])
                   12 [0; 0; 0; 0; 0; 0; 0; 0; 0x7E; 0x00; 0x05; 0x08] 8 4 in
  let r := xbee_recv_frame wire_read y 6 zeros in
  fst (fst r) = 5 /\ mem_read (snd r) 5 = [0x08; 0x01; 0x4E; 0x4A; 0x7E]
  /\ ring_bytes (snd (fst r)) = [0x7E].
Proof.
  cbv zeta.
  destruct (recv_frame_receives_sent_frame
              (mk_xbee (mk_wire [] [0x01; 0x4E; 0x4A; 0x7D; 0x5E; 0xE0; 0x7E])
                       12 [0; 0; 0; 0; 0; 0; 0; 0; 0x7E; 0x00; 0x05; 0x08] 8 4)
              [0x08; 0x01; 0x4E; 0x4A; 0x7E] [0x7E] 4 6 zeros)
    as (H1 & H2 & H3).
  - unfold ring_ok. vm_compute. repeat split; discriminate.
  - reflexivity.
  - vm_compute. split; discriminate.
  - vm_compute. lia.
  - vm_compute. reflexivity.
  - vm_compute. reflexivity.
  - vm_compute. discriminate.
  - vm_compute. discriminate.
  - split; [exact H1 | split; [exact H2 | exact H3]].
Defined.

(** ** Edge cases *)

(** X18.  The assertions that xbee_fill_buffer makes on the span of its first
    read hold exactly when the ring is not full: on a full ring the span is
    empty and [read_end > read_start] fails. *)
Theorem fill_buffer_asserts_need_room {U} (x : xbee_interface_t U) :
  ring_ok x ->
  fill_first_asserts x = (recv_size x <? recv_max_size x).
Proof. apply fill_first_asserts_room. Qed.

Lemma fill_buffer_asserts_need_room_witness :
  fill_first_asserts (xbee_ring [1; 2; 3; 4] 2 4) = false
  /\ fill_first_asserts (xbee_ring [1; 2; 3; 4] 2 3) = true.
Proof.
  split.
  - rewrite (fill_buffer_asserts_need_room (xbee_ring [1; 2; 3; 4] 2 4)).
    + reflexivity.
    + unfold ring_ok. vm_compute. repeat split; discriminate.
  - reflexivity.
Defined.

(** A well-formed frame whose last byte is not the checksum of its payload
    is given up at its delimiter. *)
Lemma decode_bad_checksum_step {U} (x : xbee_interface_t U) (Q rest : list Z)
    (c frame_out_size : Z) (out : Z -> Z) :
  ring_ok x -> 6 <= recv_size x ->
  0 <= c < 256 -> c <> checksum Q ->
  Z.of_nat (length Q) <= 65535 ->
  ring_bytes x
  = XBEE_FRAME_DELIM
      :: stuff ([Z.of_nat (length Q) / 256; Z.of_nat (length Q) mod 256]
                ++ Q ++ [c]) ++ rest ->
  exists out',
    xbee_decode_frame x frame_out_size out
    = xbee_decode_frame (xbee_drop_byte x) frame_out_size out'.
Proof.
  intros Hok H6 Hc Hbad HQ Hring.
  pose proof Hok as (Hi & Hs & Hm). pose proof int_max_lt_size_mod as [HM0 HM].
  assert (Hsz' : 0 <= recv_size x < SIZE_MOD) by lia.
  destruct (drop_ok x Hok ltac:(lia)) as [Hok' Hsz].
  assert (Hstep : exists out',
            decode_while (Z.to_nat (recv_size x)) x frame_out_size out
            = decode_while (Z.to_nat (recv_size x - 1)) (xbee_drop_byte x)
                           frame_out_size out').
  { set (len := Z.of_nat (length Q)) in *.
    change ([len / 256; len mod 256] ++ Q ++ [c])
      with ([len / 256] ++ [len mod 256] ++ Q ++ [c]) in Hring.
    rewrite !stuff_app in Hring.
    change (stuff [len / 256]) with (stuff_byte (len / 256) ++ []) in Hring.
    change (stuff [len mod 256]) with (stuff_byte (len mod 256) ++ []) in Hring.
    rewrite !app_nil_r, <- stuff_app in Hring.
    change (XBEE_FRAME_DELIM :: ?l) with ([XBEE_FRAME_DELIM] ++ l) in Hring.
    rewrite <- !app_assoc in Hring.
    replace (Z.to_nat (recv_size x)) with (S (Z.to_nat (recv_size x - 1)))
      by lia.
    cbn [decode_while]. rewrite geb_true by lia.
    pose proof (ring_bytes_at x [] _ XBEE_FRAME_DELIM Hring) as Hhead.
    cbn [length Z.of_nat] in Hhead. rewrite Hhead, Z.eqb_refl. cbn [negb].
    pose proof (xbee_get_next_byte_stuffed x [XBEE_FRAME_DELIM] _ (len / 256) 0
                  Hsz' Hring) as Hlen1.
    change (Z.of_nat (length [XBEE_FRAME_DELIM])) with 1 in Hlen1.
    rewrite Hlen1. cbn [Z.eqb negb].
    rewrite app_assoc in Hring.
    rewrite (xbee_get_next_byte_stuffed x
               ([XBEE_FRAME_DELIM] ++ stuff_byte (len / 256))
               _ (len mod 256) 0 Hsz' Hring).
    cbn [Z.eqb negb].
    assert (Hlen : to_uint16 (Z.lor (Z.shiftl (len / 256) 8) (len mod 256))
                   = len).
    { rewrite lor_shiftl_8.
      - rewrite Z.mul_comm, <- Z.div_mod by lia. unfold to_uint16.
        apply Z.mod_small. unfold len. lia.
      - apply Z.div_pos; unfold len; lia.
      - apply Z.mod_pos_bound. lia. }
    rewrite Hlen.
    destruct ((to_size_t (len + 4) >? recv_max_size x)
              || (to_size_t (len + 1) >? frame_out_size));
      [exists out; reflexivity |].
    replace (Z.to_nat (len + 1)) with (length (Q ++ [c]))
      by (rewrite length_app; unfold len; simpl; lia).
    rewrite app_assoc in Hring.
    destruct (decode_for_stuffed x (Q ++ [c]) Hsz'
                (([XBEE_FRAME_DELIM] ++ stuff_byte (len / 256))
                   ++ stuff_byte (len mod 256)) rest 0 out 0)
      as (out' & Heq & _); try lia; try exact Hring.
    { rewrite length_app. simpl. unfold SIZE_MOD. unfold len in HQ. lia. }
    rewrite Heq.
    assert (Hacc : (to_uint8 (0 + sum_bytes (Q ++ [c])) =? 255) = false).
    { apply Z.eqb_neq. rewrite sum_bytes_app.
      change (sum_bytes [c]) with (c + 0).
      unfold checksum in Hbad. unfold to_uint8.
      revert Hbad. generalize (sum_bytes Q). intros s Hbad.
      Z.div_mod_to_equations. lia. }
    rewrite Hacc. exists out'. reflexivity. }
  destruct Hstep as (out' & Hstep). exists out'.
  unfold xbee_decode_frame. rewrite Hstep, Hsz.
  destruct (decode_while (Z.to_nat (recv_size x - 1)) (xbee_drop_byte x)
                         frame_out_size out') as [r |] eqn:Hr; [reflexivity |].
  exfalso.
  destruct (decode_while_inv (Z.to_nat (recv_size x - 1)) (xbee_drop_byte x)
              frame_out_size out' Hok' ltac:(lia)) as (? & ? & ? & Heq & _).
  congruence.
Qed.

(** X19.  The checksum guards delivery.  A frame with the right structure whose
    checksum byte is wrong is never returned: it is discarded byte by byte
    and the call returns the good frame behind it. *)
Theorem decode_frame_discards_bad_checksum {U} (x : xbee_interface_t U)
    (Q P post : list Z) (c frame_out_size : Z) (out : Z -> Z) :
  ring_ok x ->
  0 <= c < 256 -> c <> checksum Q ->
  Z.of_nat (length Q) <= 65535 ->
  2 <= Z.of_nat (length P) <= 65535 ->
  ring_bytes x
  = XBEE_FRAME_DELIM
      :: stuff ([Z.of_nat (length Q) / 256; Z.of_nat (length Q) mod 256]
                ++ Q ++ [c]) ++ wire_frame P ++ post ->
  Z.of_nat (length P) + 4 <= recv_max_size x ->
  Z.of_nat (length P) + 1 <= frame_out_size ->
  let r := xbee_decode_frame x frame_out_size out in
  fst (fst r) = Z.of_nat (length P)
  /\ mem_read (snd r) (length P) = P
  /\ ring_bytes (snd (fst r)) = post.
Proof.
  intros Hok Hc Hbad HQ HP Hring Hcap Hfit. cbv zeta.
  pose proof Hok as (Hi & Hs & Hm).
  pose proof (ring_bytes_size x _ (proj1 Hs) Hring) as Hrs.
  pose proof (length_wire_frame P) as Hlen.
  cbn [length] in Hrs. rewrite !length_app in Hrs.
  destruct (decode_bad_checksum_step x Q (wire_frame P ++ post) c
              frame_out_size out Hok ltac:(lia) Hc Hbad HQ Hring)
    as (out' & Heq).
  rewrite Heq.
  pose proof (drop_ring_bytes x Hok ltac:(lia)) as Htl.
  destruct (drop_ok x Hok ltac:(lia)) as [Hok' _].
  rewrite Hring in Htl. cbn [tl] in Htl.
  destruct (decode_after_garbage _ (xbee_drop_byte x) P post frame_out_size
              out' Hok'
              (Forall_impl _ (fun a (H : a <> 0x7E /\ a <> 0x11 /\ a <> 0x13)
                                => proj1 H) (stuff_clean _))
              HP Htl Hcap Hfit) as (H1 & H2 & H3 & _).
  auto.
Qed.

Lemma decode_frame_discards_bad_checksum_witness :
  let x := xbee_ring [0x7E; 0x00; 0x02; 0x08; 0x01; 0xF7;
                      0x7E; 0x00; 0x02; 0x08; 0x02; 0xF5; 0; 0] 0 12 in
  let r := xbee_decode_frame x 3 zeros in
  fst (fst r) = 2 /\ mem_read (snd r) 2 = [0x08; 0x02]
  /\ ring_bytes (snd (fst r)) = [].
Proof.
  apply (decode_frame_discards_bad_checksum
           (xbee_ring [0x7E; 0x00; 0x02; 0x08; 0x01; 0xF7;
                       0x7E; 0x00; 0x02; 0x08; 0x02; 0xF5; 0; 0] 0 12)
           [0x08; 0x01] [0x08; 0x02] [] 0xF7 3 zeros).
  - unfold ring_ok. vm_compute. repeat split; discriminate.
  - lia.
  - vm_compute. discriminate.
  - vm_compute. discriminate.
  - vm_compute. split; discriminate.
  - vm_compute. reflexivity.
  - vm_compute. discriminate.
  - vm_compute. discriminate.
Defined.

Lemma find_delim_loop_spec {U} (x : xbee_interface_t U) :
  0 <= recv_size x < SIZE_MOD ->
  forall (n : nat) (i : Z),
    1 <= i -> recv_size x <= i + Z.of_nat n ->
    (find_delim_loop n i x = true
     <-> exists j, i <= j < recv_size x /\ xbee_get_byte x j = XBEE_FRAME_DELIM).
Proof.
  intros Hsz. induction n as [| n IH]; intros i Hi Hn; cbn [find_delim_loop].
  - split; [discriminate | intros (j & Hj & _); lia].
  - destruct (Z.ltb_spec i (recv_size x)) as [Hlt | Hge].
    + destruct (Z.eqb_spec (xbee_get_byte x i) XBEE_FRAME_DELIM) as [He | Hne].
      * split; [intros _; exists i; split; [lia | exact He] | reflexivity].
      * rewrite to_size_t_small by lia. rewrite IH by lia.
        split; intros (j & Hj & Hb).
        -- exists j. split; [lia | exact Hb].
        -- exists j. split; [| exact Hb].
           destruct (Z.eq_dec j i) as [-> | ?]; [contradiction | lia].
    + split; [discriminate | intros (j & Hj & _); lia].
Qed.

(** X20.  The look-ahead of the scanner answers whether a start delimiter waits
    anywhere behind the first byte of the ring; recv_size steps are enough
    for the whole ring. *)
Theorem find_next_delim_iff_delim_waits {U} (x : xbee_interface_t U) :
  0 <= recv_size x < SIZE_MOD ->
  (xbee_find_if_have_next_delim x = true
   <-> In XBEE_FRAME_DELIM (tl (ring_bytes x))).
Proof.
  intros Hsz. unfold xbee_find_if_have_next_delim.
  rewrite (find_delim_loop_spec x Hsz) by lia.
  pose proof (ring_bytes_length x) as Hlen.
  destruct (ring_bytes x) as [| h t] eqn:Hring; cbn [tl length] in *.
  - split; [intros (j & Hj & _); lia | intros []].
  - split.
    + intros (j & Hj & Hb).
      rewrite <- (Z2Nat.id j), ring_bytes_nth, Hring in Hb by lia.
      destruct (Z.to_nat j) as [| k] eqn:Hk; [lia |]. cbn [nth] in Hb.
      rewrite <- Hb. apply nth_In. lia.
    + intros Hin. destruct (In_nth _ _ 0 Hin) as (k & Hk & Hb).
      exists (Z.of_nat (S k)). split; [lia |].
      rewrite ring_bytes_nth, Hring by lia. exact Hb.
Qed.

Lemma find_next_delim_iff_delim_waits_witness :
  xbee_find_if_have_next_delim (xbee_ring [0x01; 0x7E; 0x7E; 0x02; 0x03] 4 3)
  = true.
Proof.
  apply (find_next_delim_iff_delim_waits
           (xbee_ring [0x01; 0x7E; 0x7E; 0x02; 0x03] 4 3)).
  - vm_compute. split; [discriminate | reflexivity].
  - vm_compute. auto.
Defined.

(** ** Opening the driver *)

Lemma some_pair_eq {A : Type} (a b : A) : Some a = Some b -> a = b.
Proof. intros H. injection H as H. exact H. Qed.

Section LoggedInit.
Context {U : Type}.
Variable wr : U -> list Z -> Z * U.
Variable rd : U -> Z -> Z * list Z * U.
Variable sl : U -> Z -> U.
Variable GUARD_TIME : Z.
Variables MODEM_STATUS TRANSMIT_STATUS AT_RESPONSE REMOTE_AT_RESPONSE
          RECEIVE RECEIVE_16_BIT : Z.
Variable shl_int : Z -> Z -> Z.

Local Abbreviation xl := (xbee_interface_t (U * list Z)).
Local Abbreviation init :=
  (xbee_init (logged_write wr) (logged_read rd) (logged_sleep sl) GUARD_TIME
             MODEM_STATUS TRANSMIT_STATUS AT_RESPONSE REMOTE_AT_RESPONSE
             RECEIVE RECEIVE_16_BIT shl_int).

Lemma sleep_logged (x : xl) (t : Z) :
  handed (sleep (logged_sleep sl) x t) = handed x.
Proof. reflexivity. Qed.

Lemma read_into_logged (x : xl) (buf : list Z) (n : Z) :
  handed (snd (read_into (logged_read rd) x buf n)) = handed x.
Proof.
  unfold read_into, logged_read, handed.
  destruct (rd (fst (uart x)) n) as [[ret data] u]. reflexivity.
Qed.

Lemma drain_loop_logged (fuel : nat) :
  forall (x x' : xl) (c : list Z),
    drain_loop (logged_read rd) fuel x c = Some x' -> handed x' = handed x.
Proof.
  induction fuel as [| fuel IH]; intros x x' c H; [discriminate H |].
  cbn [drain_loop] in H.
  pose proof (read_into_logged x c 1) as Hr.
  destruct (read_into (logged_read rd) x c 1) as [[ret c1] x1].
  cbn [snd] in Hr. destruct (ret >? 0).
  - rewrite (IH _ _ _ H). exact Hr.
  - injection H as <-. exact Hr.
Qed.

Lemma plus_loop_logged (n : nat) :
  forall (x : xl),
    exists early x' pre suf,
      plus_loop (logged_write wr) n x = (early, x')
      /\ handed x' = handed x ++ pre
      /\ pre ++ suf = repeat 0x2B n
      /\ (early = None /\ suf = [] \/ early = Some (-1)).
Proof.
  induction n as [| n IH]; intros x.
  - exists None, x, [], []. rewrite app_nil_r.
    split; [reflexivity | split; [reflexivity | split; [reflexivity | auto]]].
  - cbn [plus_loop].
    destruct (write_logged wr x (bytes_of "+")) as (r & x1 & Hw & Hh).
    rewrite Hw. destruct (negb (r =? 1)).
    + exists (Some (-1)), x1, [0x2B], (repeat 0x2B n). auto.
    + destruct (IH x1) as (early & x' & pre & suf & Heq & Hh' & Hp & He).
      exists early, x', (0x2B :: pre), suf.
      split; [exact Heq |].
      split; [rewrite Hh', Hh, <- app_assoc; reflexivity |].
      split; [cbn [app repeat]; rewrite Hp; reflexivity | exact He].
Qed.

Lemma ok_loop_logged (n : nat) :
  forall (x : xl) (check : list Z),
    let r := ok_loop (logged_read rd) n x check in
    handed (snd r) = handed x
    /\ (fst r = None \/ fst r = Some (-4) \/ fst r = Some (-5)).
Proof.
  induction n as [| n IH]; intros x check; cbv zeta; [auto |].
  cbn [ok_loop].
  pose proof (read_into_logged x check 3) as Hr.
  destruct (read_into (logged_read rd) x check 3) as [[ret c1] x1].
  cbn [snd] in Hr.
  destruct (negb (to_size_t ret =? 3)); [cbn; auto |].
  destruct (negb (is_ok_cr c1)); [cbn; auto |].
  destruct (IH x1 c1) as [Hh He]. rewrite Hh. auto.
Qed.

Lemma read_logged (x : xl) (start len : Z) :
  handed (snd (read (logged_read rd) x start len)) = handed x.
Proof.
  unfold read, logged_read, handed.
  destruct (rd (fst (uart x)) len) as [[ret data] u]. reflexivity.
Qed.

Lemma xbee_fill_buffer_logged (x : xl) :
  handed (snd (xbee_fill_buffer (logged_read rd) x)) = handed x.
Proof.
  unfold xbee_fill_buffer.
  destruct (if to_size_t (recv_idx x + recv_size x) <? recv_max_size x
            then _ else _) as [read_start read_end].
  pose proof (read_logged x read_start (to_size_t (read_end - read_start)))
    as Hr1.
  destruct (read (logged_read rd) x read_start _) as [ret1 x1].
  cbn [snd] in Hr1.
  set (x1' := if ret1 >? 0 then grow x1 ret1 else x1).
  assert (Hx1 : handed x1' = handed x)
    by (unfold x1'; destruct (ret1 >? 0); exact Hr1).
  destruct (_ && _ && _); [| exact Hx1].
  pose proof (read_logged x1' 0 (to_size_t (recv_idx x1' - 0))) as Hr2.
  destruct (read (logged_read rd) x1' 0 _) as [ret2 x2].
  cbn [snd] in Hr2.
  destruct (ret2 >? 0); cbn [snd]; rewrite <- Hx1; exact Hr2.
Qed.

Lemma xbee_recv_frame_logged (x : xl) (frame_out_size : Z) (out : Z -> Z) :
  handed (snd (fst (xbee_recv_frame (logged_read rd) x frame_out_size out)))
  = handed x.
Proof.
  unfold xbee_recv_frame.
  pose proof (proj1 (xbee_decode_frame_same x frame_out_size out)) as Hd.
  destruct (xbee_decode_frame x frame_out_size out) as [[r0 x0] out0].
  cbn [fst snd] in Hd.
  assert (H0 : handed x0 = handed x) by (unfold handed; rewrite Hd; reflexivity).
  destruct (r0 >? 0); [exact H0 |].
  pose proof (xbee_fill_buffer_logged x0) as Hf.
  destruct (xbee_fill_buffer (logged_read rd) x0) as [r1 x1].
  cbn [snd] in Hf.
  destruct (r1 <? 0); [cbn [fst snd]; congruence |].
  pose proof (proj1 (xbee_decode_frame_same x1 frame_out_size out0)) as Hd1.
  unfold handed. rewrite Hd1. unfold handed in Hf, H0. congruence.
Qed.

Lemma verify_loop_logged (expected : list (list Z)) :
  forall (x : xl) (frame : Z -> Z) (f0 : xbee_parsed_frame_t),
    let r := verify_loop (logged_read rd) MODEM_STATUS TRANSMIT_STATUS
               AT_RESPONSE REMOTE_AT_RESPONSE RECEIVE RECEIVE_16_BIT shl_int
               expected x frame f0 in
    handed (snd r) = handed x /\ -10 <= fst r <= 0 /\ (-5 <= fst r -> fst r = 0).
Proof.
  induction expected as [| e expected IH]; intros x frame f0; cbv zeta.
  - cbn. split; [reflexivity | lia].
  - cbn [verify_loop].
    pose proof (xbee_recv_frame_logged x 9 frame) as Hr.
    destruct (xbee_recv_frame (logged_read rd) x 9 frame) as [[ret x1] frame1].
    cbn [fst snd] in Hr.
    destruct (ret <? 1); [cbn [fst snd]; split; [exact Hr | lia] |].
    destruct (xbee_parse_frame _ _ _ _ _ _ _ f0 _) as [code f].
    destruct code; try (cbn [fst snd]; split; [exact Hr | lia]).
    destruct (negb (api_id f =? AT_RESPONSE));
      [cbn [fst snd]; split; [exact Hr | lia] |].
    destruct (_ || _ || _); [cbn [fst snd]; split; [exact Hr | lia] |].
    destruct (negb (atr_data_size _ =? 1));
      [cbn [fst snd]; split; [exact Hr | lia] |].
    destruct (negb (byte_at _ 0 =? byte_at e 3));
      [cbn [fst snd]; split; [exact Hr | lia] |].
    destruct (IH x1 frame1 f0) as (Hh & Hc). rewrite Hh. auto.
Qed.

(** xbee_at_command on any transport. *)
Lemma xbee_at_command_logged (x : xl) (frame_id : Z) (cmd : string)
    (param : list Z) :
  4 + Z.of_nat (length param) <= 65535 ->
  exists ret x' pre suf,
    xbee_at_command (logged_write wr) x frame_id cmd param = (ret, x')
    /\ handed x' = handed x ++ pre
    /\ pre ++ suf
       = wire_frame ([XBEE_AT_COMMAND; frame_id; char_at cmd 0; char_at cmd 1]
                     ++ param)
    /\ (ret = 0 /\ suf = [] \/ -14 <= ret <= -11).
Proof.
  intros H.
  set (hdr := [XBEE_AT_COMMAND; frame_id; char_at cmd 0; char_at cmd 1]).
  assert (Hl : Z.of_nat (length (hdr ++ param)) = 4 + Z.of_nat (length param))
    by (rewrite length_app; cbn [length hdr]; lia).
  pose proof (wire_frame_split (hdr ++ param) []) as Hwf. cbv zeta in Hwf.
  rewrite !app_nil_r, Hl, !stuff_app in Hwf.
  set (len := 4 + Z.of_nat (length param)) in *.
  unfold xbee_at_command, xbee_start_frame.
  rewrite (to_size_t_small (4 + _)) by (unfold SIZE_MOD; lia). fold len.
  destruct (length_bytes_split len ltac:(unfold len; lia)) as [-> ->].
  destruct (write_logged wr x [XBEE_FRAME_DELIM]) as (n0 & x0 & Hw0 & Hh0).
  rewrite Hw0.
  destruct (negb (n0 =? 1)).
  { cbn [Z.eqb negb]. exists (-14), x0, [XBEE_FRAME_DELIM], (tl (wire_frame (hdr ++ param))).
    split; [reflexivity | split; [exact Hh0 | split; [reflexivity | right; lia]]]. }
  destruct (xbee_write_bytes_logged wr x0 [len / 256; len mod 256] 0)
    as (r1 & x1 & a1 & pre1 & suf1 & Heq1 & Hh1 & Hp1 & Hr1 & Hz1);
    [cbn; unfold SIZE_MOD; lia | lia |].
  rewrite Heq1.
  change (stuff [len / 256; len mod 256])
    with (stuff_byte (len / 256) ++ stuff_byte (len mod 256) ++ []) in Hp1.
  rewrite app_nil_r in Hp1.
  destruct (Z.eqb_spec r1 0) as [-> | Hne1]; cbn [negb].
  2:{ exists r1, x1, ([XBEE_FRAME_DELIM] ++ pre1),
             (suf1 ++ stuff hdr ++ stuff param
                ++ stuff [checksum (hdr ++ param)]).
      split; [reflexivity |].
      split; [rewrite Hh1, Hh0, <- app_assoc; reflexivity |].
      split; [| right; lia].
      rewrite Hwf, <- !app_assoc. f_equal.
      rewrite !app_assoc. do 3 f_equal. exact Hp1. }
  destruct (Hz1 eq_refl) as [-> _]. rewrite app_nil_r in Hp1. subst pre1.
  destruct (xbee_write_bytes_logged wr x1 hdr 0)
    as (r2 & x2 & a2 & pre2 & suf2 & Heq2 & Hh2 & Hp2 & Hr2 & Hz2);
    [cbn; unfold SIZE_MOD; lia | lia |].
  fold hdr. rewrite Heq2.
  destruct (Z.eqb_spec r2 0) as [-> | Hne2]; cbn [negb].
  2:{ exists r2, x2, ([XBEE_FRAME_DELIM] ++ stuff_byte (len / 256)
                        ++ stuff_byte (len mod 256) ++ pre2),
             (suf2 ++ stuff param ++ stuff [checksum (hdr ++ param)]).
      split; [reflexivity |].
      split; [rewrite Hh2, Hh1, Hh0, <- !app_assoc; reflexivity |].
      split; [| right; lia].
      rewrite Hwf, <- Hp2, <- !app_assoc. reflexivity. }
  destruct (Hz2 eq_refl) as [-> ->]. rewrite app_nil_r in Hp2. subst pre2.
  destruct (xbee_write_bytes_logged wr x2 param (to_uint8 (0 + sum_bytes hdr)))
    as (r3 & x3 & a3 & pre3 & suf3 & Heq3 & Hh3 & Hp3 & Hr3 & Hz3);
    [unfold SIZE_MOD; lia | apply to_uint8_range |].
  rewrite Heq3.
  destruct (Z.eqb_spec r3 0) as [-> | Hne3]; cbn [negb].
  2:{ exists r3, x3, ([XBEE_FRAME_DELIM] ++ stuff_byte (len / 256)
                        ++ stuff_byte (len mod 256) ++ stuff hdr ++ pre3),
             (suf3 ++ stuff [checksum (hdr ++ param)]).
      split; [reflexivity |].
      split; [rewrite Hh3, Hh2, Hh1, Hh0, <- !app_assoc; reflexivity |].
      split; [| right; lia].
      rewrite Hwf, <- Hp3, <- !app_assoc. reflexivity. }
  destruct (Hz3 eq_refl) as [-> ->]. rewrite app_nil_r in Hp3. subst pre3.
  rewrite to_uint8_add_l, <- Z.add_assoc, <- sum_bytes_app.
  unfold xbee_finish_frame. rewrite checksum_code.
  destruct (xbee_write_bytes_logged wr x3 [checksum (hdr ++ param)] 0)
    as (r4 & x4 & a4 & pre4 & suf4 & Heq4 & Hh4 & Hp4 & Hr4 & Hz4);
    [cbn; unfold SIZE_MOD; lia | lia |].
  rewrite Heq4.
  exists r4, x4, ([XBEE_FRAME_DELIM] ++ stuff_byte (len / 256)
                    ++ stuff_byte (len mod 256) ++ stuff hdr ++ stuff param
                    ++ pre4), suf4.
  split; [reflexivity |].
  split; [rewrite Hh4, Hh3, Hh2, Hh1, Hh0, <- !app_assoc; reflexivity |].
  split; [rewrite Hwf, <- Hp4, <- !app_assoc; reflexivity |].
  destruct (Z.eq_dec r4 0) as [-> | Hne4]; [left | right; lia].
  split; [reflexivity | apply Hz4; reflexivity].
Qed.

(** X21.  The handshake on any transport.  Whatever the transport answers to
    reads and writes, a call of xbee_init that returns has handed to the
    transport a prefix of one fixed byte string: "+++", the AT set-up
    line, and the frames of the three AT queries AP, D7 and D6.  It
    returns 0 or a code from -1 to -14, and from the code -4 on (the checks
    of the answers) the whole string has been written. *)
Theorem init_writes_script_prefix (fuel : nat) (x x' : xl)
    (c buf check : list Z) (frame : Z -> Z) (f0 : xbee_parsed_frame_t)
    (r : Z) :
  init fuel x c buf check frame f0 = Some (r, x') ->
  -14 <= r <= 0
  /\ (exists pre suf, handed x' = handed x ++ pre /\ pre ++ suf = init_script)
  /\ (r = 0 \/ -10 <= r <= -4 -> handed x' = handed x ++ init_script)
  /\ (r = -2 \/ r = -3 ->
      exists pre, handed x' = handed x ++ bytes_of "+++" ++ pre).
Proof.
  unfold xbee_init.
  destruct (drain_loop (logged_read rd) fuel x c) as [x0 |] eqn:Hd;
    [| discriminate].
  apply drain_loop_logged in Hd.
  intros H. apply some_pair_eq in H.
  set (F1 := wire_frame (XBEE_AT_COMMAND :: 1 :: bytes_of "AP")).
  set (F2 := wire_frame (XBEE_AT_COMMAND :: 2 :: bytes_of "D7")).
  set (F3 := wire_frame (XBEE_AT_COMMAND :: 3 :: bytes_of "D6")).
  assert (Hs : init_script = bytes_of "+++" ++ api_seq ++ F1 ++ F2 ++ F3)
    by reflexivity.
  destruct (plus_loop_logged 3 (sleep (logged_sleep sl) x0 GUARD_TIME))
    as (early & x1 & pre & suf & Hp & Hh1 & Hpre & He).
  rewrite Hp in H. rewrite sleep_logged, Hd in Hh1.
  change (repeat 43 3) with (bytes_of "+++") in Hpre.
  destruct He as [[-> ->] | ->].
  2:{ injection H as <- <-. split; [lia |]. split.
      - exists pre, (suf ++ api_seq ++ F1 ++ F2 ++ F3).
        split; [exact Hh1 |]. rewrite Hs, app_assoc, Hpre. reflexivity.
      - split; intros [? | ?]; lia. }
  rewrite app_nil_r in Hpre. subst pre.
  pose proof (read_into_logged (sleep (logged_sleep sl) x1 GUARD_TIME) buf 3)
    as Hr.
  destruct (read_into (logged_read rd) _ buf 3) as [[ret buf1] x2].
  cbn [snd] in Hr. rewrite sleep_logged, Hh1 in Hr.
  destruct (negb (to_size_t ret =? 3) || negb (is_ok_cr buf1)).
  { injection H as <- <-. split; [lia |]. split.
    - exists (bytes_of "+++"), (api_seq ++ F1 ++ F2 ++ F3). auto.
    - split; [intros [? | ?]; lia |]. intros _. exists [].
      rewrite app_nil_r. exact Hr. }
  destruct (write_logged wr x2 api_seq) as (n3 & x3 & Hw3 & Hh3).
  rewrite Hw3 in H. rewrite Hr in Hh3.
  destruct (negb (to_size_t n3 =? 26)).
  { injection H as <- <-. split; [lia |]. split.
    - exists (bytes_of "+++" ++ api_seq), (F1 ++ F2 ++ F3).
      rewrite <- !app_assoc in *. auto.
    - split; [intros [? | ?]; lia |]. intros _. exists api_seq.
      rewrite <- app_assoc in Hh3. exact Hh3. }
  destruct (xbee_at_command_logged x3 1 "AP" [] ltac:(cbn; lia))
    as (r4 & x4 & p4 & s4 & Ha4 & Hh4 & Hp4 & Hc4).
  rewrite Ha4 in H. change (wire_frame _) with F1 in Hp4.
  destruct Hc4 as [[-> ->] | Hc4].
  2:{ rewrite (proj2 (Z.eqb_neq r4 0)) in H by lia. cbn [negb] in H.
      injection H as <- <-. split; [lia |]. split.
      - exists (bytes_of "+++" ++ api_seq ++ p4), (s4 ++ F2 ++ F3).
        split; [rewrite Hh4, Hh3, <- !app_assoc; reflexivity |].
        rewrite Hs, <- Hp4, <- !app_assoc. reflexivity.
      - split; intros [? | ?]; lia. }
  cbn [Z.eqb negb] in H. rewrite app_nil_r in Hp4. subst p4.
  destruct (xbee_at_command_logged x4 2 "D7" [] ltac:(cbn; lia))
    as (r5 & x5 & p5 & s5 & Ha5 & Hh5 & Hp5 & Hc5).
  rewrite Ha5 in H. change (wire_frame _) with F2 in Hp5.
  destruct Hc5 as [[-> ->] | Hc5].
  2:{ rewrite (proj2 (Z.eqb_neq r5 0)) in H by lia. cbn [negb] in H.
      injection H as <- <-. split; [lia |]. split.
      - exists (bytes_of "+++" ++ api_seq ++ F1 ++ p5), (s5 ++ F3).
        split; [rewrite Hh5, Hh4, Hh3, <- !app_assoc; reflexivity |].
        rewrite Hs, <- Hp5, <- !app_assoc. reflexivity.
      - split; intros [? | ?]; lia. }
  cbn [Z.eqb negb] in H. rewrite app_nil_r in Hp5. subst p5.
  destruct (xbee_at_command_logged x5 3 "D6" [] ltac:(cbn; lia))
    as (r6 & x6 & p6 & s6 & Ha6 & Hh6 & Hp6 & Hc6).
  rewrite Ha6 in H. change (wire_frame _) with F3 in Hp6.
  destruct Hc6 as [[-> ->] | Hc6].
  2:{ rewrite (proj2 (Z.eqb_neq r6 0)) in H by lia. cbn [negb] in H.
      injection H as <- <-. split; [lia |]. split.
      - exists (bytes_of "+++" ++ api_seq ++ F1 ++ F2 ++ p6), s6.
        split; [rewrite Hh6, Hh5, Hh4, Hh3, <- !app_assoc; reflexivity |].
        rewrite Hs, <- Hp6, <- !app_assoc. reflexivity.
      - split; intros [? | ?]; lia. }
  cbn [Z.eqb negb] in H. rewrite app_nil_r in Hp6. subst p6.
  assert (Hall : handed x6 = handed x ++ init_script).
  { rewrite Hh6, Hh5, Hh4, Hh3, Hs, <- !app_assoc. reflexivity. }
  destruct (ok_loop_logged 4 (sleep (logged_sleep sl) x6 1) check)
    as [Hh7 He7].
  destruct (ok_loop (logged_read rd) 4 _ check) as [early7 x7].
  cbn [fst snd] in Hh7, He7. rewrite sleep_logged, Hall in Hh7.
  assert (Hdone : forall r0 x9, handed x9 = handed x ++ init_script ->
            -10 <= r0 <= 0 -> (-3 <= r0 -> r0 = 0) -> (r0, x9) = (r, x') ->
            -14 <= r <= 0
            /\ (exists pre suf,
                  handed x' = handed x ++ pre /\ pre ++ suf = init_script)
            /\ (r = 0 \/ -10 <= r <= -4 -> handed x' = handed x ++ init_script)
            /\ (r = -2 \/ r = -3 ->
                exists pre, handed x' = handed x ++ bytes_of "+++" ++ pre)).
  { intros r0 x9 Hh Hr0 Hr1 E. injection E as <- <-.
    split; [lia |]. split; [exists init_script, []; rewrite app_nil_r; auto |].
    split; [intros _; exact Hh | intros [? | ?]; lia]. }
  destruct He7 as [-> | [-> | ->]];
    [| refine (Hdone _ _ Hh7 _ _ H); lia ..].
  destruct (verify_loop_logged expected_return x7 frame f0) as (Hh8 & Hc8 & Hz8).
  destruct (verify_loop _ _ _ _ _ _ _ _ expected_return x7 frame f0)
    as [r8 x8].
  cbn [fst snd] in Hh8, Hc8, Hz8. rewrite Hh7 in Hh8.
  refine (Hdone _ _ Hh8 Hc8 _ H). lia.
Qed.

End LoggedInit.

Lemma init_writes_script_prefix_witness :
  let silent_write := fun (u : unit) (buf : list Z) => (Z.of_nat (length buf), u) in
  let silent_read := fun (u : unit) (n : Z) => (0, @nil Z, u) in
  let run :=
    xbee_init (logged_write silent_write) (logged_read silent_read)
      (logged_sleep (fun u _ => u)) 0 0x8A 0x89 0x88 0x97 0x80 0x81
      (fun v n => to_int (Z.shiftl v (Z.land n 31)))
      1 (xbee_fresh (tt, []) 0) [0] [0; 0; 0] [0; 0; 0] zeros zero_frame in
  match run with
  | Some (r, x') =>
    -14 <= r <= 0
    /\ exists pre suf, handed x' = [] ++ pre /\ pre ++ suf = init_script
  | None => False
  end.
Proof.
  cbv zeta.
  destruct (xbee_init _ _ _ _ _ _ _ _ _ _ _ _ _ _ _ _ _ _) as [[r x'] |] eqn:H.
  - destruct (init_writes_script_prefix _ _ _ _ _ _ _ _ _ _ _ _ _ _ _ _ _ _ _ _ H)
      as (Hr & Hp & _).
    split; [exact Hr | exact Hp].
  - vm_compute in H. discriminate H.
Defined.


(** ** Opening the driver against a modem that answers *)

Lemma read_into_wire (x : xbee_interface_t wire) (buf : list Z) (n : Z) :
  read_into wire_read x buf n
  = (Z.of_nat (length (firstn (Z.to_nat n) (rx (uart x)))),
     store_at buf 0 (firstn (Z.to_nat n) (rx (uart x))),
     set_uart x (mk_wire (tx (uart x)) (skipn (Z.to_nat n) (rx (uart x))))).
Proof.
  unfold read_into, wire_read. rewrite firstn_firstn, Nat.min_id. reflexivity.
Qed.

(** The drain loop empties the transport. *)
Lemma drain_loop_wire (junk : list Z) :
  forall (fuel : nat) (x : xbee_interface_t wire) (c : list Z),
    rx (uart x) = junk -> (length junk < fuel)%nat ->
    drain_loop wire_read fuel x c
    = Some (set_uart x (mk_wire (tx (uart x)) [])).
Proof.
  induction junk as [| b junk IH]; intros fuel x c Hrx Hfuel;
    (destruct fuel as [| fuel]; [cbn [length] in Hfuel; lia |]);
    cbn [drain_loop]; rewrite read_into_wire, Hrx;
    change (Z.to_nat 1) with 1%nat; cbn [firstn skipn length].
  - reflexivity.
  - change (Z.of_nat 1 >? 0) with true. cbn iota.
    rewrite IH by (try reflexivity; cbn [length] in Hfuel; lia).
    reflexivity.
Qed.

Lemma plus_loop_wire (x : xbee_interface_t wire) :
  plus_loop wire_write 3 x = (None, sent x (bytes_of "+++")).
Proof.
  cbn [plus_loop]. rewrite !write_wire.
  change (negb (Z.of_nat (length (bytes_of "+")) =? 1)) with false.
  cbn iota. rewrite !sent_sent. reflexivity.
Qed.

(** One "OK\r" answer read and accepted. *)
Lemma ok_loop_wire_step (n : nat) (x : xbee_interface_t wire)
    (check rest : list Z) :
  rx (uart x) = ok_cr ++ rest ->
  ok_loop wire_read (S n) x check
  = ok_loop wire_read n (set_uart x (mk_wire (tx (uart x)) rest))
            (store_at check 0 ok_cr).
Proof.
  intros Hrx. cbn [ok_loop]. rewrite read_into_wire, Hrx.
  change (Z.to_nat 3) with 3%nat. change ok_cr with [79; 75; 13].
  cbn [firstn skipn app length].
  change (negb (to_size_t (Z.of_nat 3) =? 3)) with false. cbn iota.
  change (negb (is_ok_cr (store_at check 0 [79; 75; 13]))) with false.
  reflexivity.
Qed.

Section ModemOpen.
Variable respond : list Z -> list Z.
Variable GUARD_TIME : Z.
Variables MODEM_STATUS TRANSMIT_STATUS AT_RESPONSE REMOTE_AT_RESPONSE
          RECEIVE RECEIVE_16_BIT : Z.
Variable shl_int : Z -> Z -> Z.

Local Abbreviation ids :=
  [MODEM_STATUS; TRANSMIT_STATUS; AT_RESPONSE; REMOTE_AT_RESPONSE;
   RECEIVE; RECEIVE_16_BIT].
Local Abbreviation verify :=
  (verify_loop wire_read MODEM_STATUS TRANSMIT_STATUS AT_RESPONSE
               REMOTE_AT_RESPONSE RECEIVE RECEIVE_16_BIT shl_int).

(** One AT response received and accepted by the checks of xbee_init; the
    status byte [s] of the response is not looked at. *)
Lemma verify_loop_step (y y' : xbee_interface_t wire)
    (frame frame' : Z -> Z) (f0 : xbee_parsed_frame_t)
    (e0 e1 e2 e3 s : Z) (rest : list (list Z)) :
  NoDup ids ->
  xbee_recv_frame wire_read y 9 frame = (6, y', frame') ->
  mem_read frame' 6 = [AT_RESPONSE; e0; e1; e2; s; e3] ->
  verify ([e0; e1; e2; e3] :: rest) y frame f0 = verify rest y' frame' f0.
Proof.
  intros Hnd Hrecv Hmem. cbn [verify_loop]. rewrite Hrecv.
  change (6 <? 1) with false. cbn iota.
  change (Z.to_nat 6) with 6%nat. rewrite Hmem.
  rewrite (parse_at_response _ _ _ _ _ _ shl_int f0
             [AT_RESPONSE; e0; e1; e2; s; e3] Hnd eq_refl).
  cbn [length]. change (Z.of_nat 6 <? 2) with false.
  change (Z.of_nat 6 <? 5) with false. cbn iota.
  cbn [api_id frame_id frame_at_command_response atr_at_command atr_data_size
       atr_data].
  unfold slice_from, byte_at. cbn [skipn nth Z.to_nat].
  change (Z.to_nat 1) with 1%nat. change (Z.to_nat 2) with 2%nat.
  change (Z.to_nat 3) with 3%nat. cbn [nth].
  rewrite !Z.eqb_refl.
  change (to_size_t (Z.of_nat 6 - 5) =? 1) with true.
  reflexivity.
Qed.

(** xbee_recv_frame when the ring starts with a frame: it is returned
    without a read. *)
Lemma recv_frame_wire_ready (y : xbee_interface_t wire) (P post : list Z)
    (frame_out_size : Z) (out : Z -> Z) :
  ring_ok y ->
  2 <= Z.of_nat (length P) <= 65535 ->
  ring_bytes y = wire_frame P ++ post ->
  Z.of_nat (length P) + 4 <= recv_max_size y ->
  Z.of_nat (length P) + 1 <= frame_out_size ->
  let r := xbee_recv_frame wire_read y frame_out_size out in
  fst (fst r) = Z.of_nat (length P)
  /\ mem_read (snd r) (length P) = P
  /\ ring_bytes (snd (fst r)) = post
  /\ ring_ok (snd (fst r))
  /\ recv_max_size (snd (fst r)) = recv_max_size y
  /\ uart (snd (fst r)) = uart y.
Proof.
  intros Hok HP Hring Hcap Hfit. cbv zeta. unfold xbee_recv_frame.
  destruct (decode_after_garbage [] y P post frame_out_size out Hok
              (Forall_nil _) HP Hring Hcap Hfit) as (H1 & H2 & H3 & H4).
  destruct (xbee_decode_frame_same y frame_out_size out) as (Hu & Hm & _).
  destruct (xbee_decode_frame y frame_out_size out) as [[r0 y0] out0].
  cbn [fst snd] in *. rewrite H1.
  rewrite (proj2 (Z.gtb_lt _ _)) by lia. cbn [fst snd]. auto 10.
Qed.

(** X22.  A modem that conforms: xbee_open succeeds.  The modem says nothing
    before "+++", answers "OK\r" to it and, once the set-up line and
    the three queries are written, four times "OK\r" and the AT
    responses AP = 2, D7 = 1 and D6 = 1.  Then, whatever waited on the
    transport before (it is drained) and whatever status bytes the
    responses carry, xbee_open returns 0, has written exactly the
    handshake, and leaves the ring and the transport empty. *)
Theorem open_succeeds_with_conforming_modem (junk buffer c buf check : list Z)
    (cap s1 s2 s3 : Z) (fuel : nat) (frame : Z -> Z)
    (f0 : xbee_parsed_frame_t) :
  let answer (i : Z) (cmd : string) (s v : Z) :=
    wire_frame (AT_RESPONSE :: i :: bytes_of cmd ++ [s; v]) in
  NoDup ids ->
  respond [] = [] ->
  respond (bytes_of "+++") = ok_cr ->
  respond init_script
  = ok_cr ++ ok_cr ++ ok_cr ++ ok_cr
      ++ answer 1 "AP"%string s1 2 ++ answer 2 "D7"%string s2 1
      ++ answer 3 "D6"%string s3 1 ->
  (length junk < fuel)%nat ->
  57 <= cap <= INT_MAX -> length buffer = Z.to_nat cap ->
  exists x',
    xbee_open wire_write wire_read (modem_sleep respond) GUARD_TIME
      MODEM_STATUS TRANSMIT_STATUS AT_RESPONSE REMOTE_AT_RESPONSE
      RECEIVE RECEIVE_16_BIT shl_int
      fuel (mk_wire [] junk) cap buffer c buf check frame f0
    = Some (0, x')
    /\ tx (uart x') = init_script
    /\ rx (uart x') = []
    /\ ring_bytes x' = []
    /\ ring_ok x'.
Proof.
  intros answer Hnd Hr0 Hr1 Hr2 Hfuel Hcap Hbuf.
  pose proof int_max_lt_size_mod as [HM0 HM].
  set (P1 := AT_RESPONSE :: 1 :: bytes_of "AP" ++ [s1; 2]).
  set (P2 := AT_RESPONSE :: 2 :: bytes_of "D7" ++ [s2; 1]).
  set (P3 := AT_RESPONSE :: 3 :: bytes_of "D6" ++ [s3; 1]).
  change (answer 1 "AP"%string s1 2) with (wire_frame P1) in Hr2.
  change (answer 2 "D7"%string s2 1) with (wire_frame P2) in Hr2.
  change (answer 3 "D6"%string s3 1) with (wire_frame P3) in Hr2.
  clear answer.
  pose proof (length_wire_frame P1) as HL1.
  pose proof (length_wire_frame P2) as HL2.
  pose proof (length_wire_frame P3) as HL3.
  change (length P1) with 6%nat in HL1. change (length P2) with 6%nat in HL2.
  change (length P3) with 6%nat in HL3.
  unfold xbee_open, xbee_init.
  rewrite (drain_loop_wire junk) by (try reflexivity; exact Hfuel).
  change (sleep (modem_sleep respond) (set_uart _ _) GUARD_TIME)
    with (mk_xbee (mk_wire [] ([] ++ respond [])) cap buffer 0 0).
  rewrite Hr0. cbn [app].
  rewrite plus_loop_wire.
  change (sleep (modem_sleep respond) (sent _ (bytes_of "+++")) GUARD_TIME)
    with (mk_xbee (mk_wire (bytes_of "+++") ([] ++ respond (bytes_of "+++")))
                  cap buffer 0 0).
  rewrite Hr1. cbn [app].
  rewrite read_into_wire.
  cbn [set_uart uart tx rx recv_max_size recv recv_idx recv_size].
  change (Z.to_nat 3) with 3%nat. change ok_cr with [79; 75; 13] in *.
  cbn [firstn skipn app length].
  change (negb (to_size_t (Z.of_nat 3) =? 3)) with false.
  change (negb (is_ok_cr (store_at buf 0 [79; 75; 13]))) with false.
  cbn [orb]. cbn iota.
  rewrite write_wire.
  change (negb (to_size_t (Z.of_nat (length api_seq)) =? 26)) with false.
  cbn iota.
  rewrite xbee_at_command_wire by (cbn [length]; lia). cbn [Z.eqb negb].
  rewrite xbee_at_command_wire by (cbn [length]; lia). cbn [Z.eqb negb].
  rewrite xbee_at_command_wire by (cbn [length]; lia). cbn [Z.eqb negb].
  rewrite !sent_sent.
  set (A := wire_frame P1 ++ wire_frame P2 ++ wire_frame P3) in *.
  change (sleep (modem_sleep respond) (sent _ _) 1)
    with (mk_xbee (mk_wire init_script ([] ++ respond init_script))
                  cap buffer 0 0).
  rewrite Hr2. cbn [app].
  rewrite (ok_loop_wire_step 3 _ check
             ([79; 75; 13] ++ [79; 75; 13] ++ [79; 75; 13] ++ A))
    by reflexivity.
  cbn [set_uart uart tx rx recv_max_size recv recv_idx recv_size].
  rewrite (ok_loop_wire_step 2 _ _ ([79; 75; 13] ++ [79; 75; 13] ++ A))
    by reflexivity.
  cbn [set_uart uart tx rx recv_max_size recv recv_idx recv_size].
  rewrite (ok_loop_wire_step 1 _ _ ([79; 75; 13] ++ A)) by reflexivity.
  cbn [set_uart uart tx rx recv_max_size recv recv_idx recv_size].
  rewrite (ok_loop_wire_step 0 _ _ A) by reflexivity.
  cbn [set_uart uart tx rx recv_max_size recv recv_idx recv_size ok_loop].
  set (x7 := mk_xbee (mk_wire init_script A) cap buffer 0 0).
  change (verify expected_return (set_uart _ _) frame f0)
    with (verify expected_return x7 frame f0).
  assert (Hok7 : ring_ok x7)
    by (unfold ring_ok, x7; cbn [recv_idx recv_size recv_max_size]; lia).
  destruct (recv_frame_wire_partial x7 P1 (wire_frame P2 ++ wire_frame P3)
              0 9 frame Hok7 Hbuf)
    as (Ha1 & Ha2 & Ha3 & Ha4 & Ha5 & _ & Ha7 & Ha8);
    try reflexivity;
    try (change (length P1) with 6%nat; cbn [x7 recv_max_size]; lia).
  destruct (xbee_recv_frame wire_read x7 9 frame) as [[r1 y1] fr1] eqn:E1.
  cbn [fst snd x7 recv_max_size uart tx] in Ha1, Ha2, Ha3, Ha4, Ha5, Ha7, Ha8.
  change (Z.of_nat (length P1)) with 6 in Ha1. subst r1.
  change (length P1) with 6%nat in Ha2.
  rewrite firstn_all2 in Ha3 by (rewrite length_app; lia).
  rewrite skipn_all2 in Ha8 by (rewrite length_app; lia).
  change expected_return with [[1; 65; 80; 2]; [2; 68; 55; 1]; [3; 68; 54; 1]].
  rewrite (verify_loop_step x7 y1 frame fr1 f0 1 65 80 2 s1 _ Hnd E1 Ha2).
  destruct (recv_frame_wire_ready y1 P2 (wire_frame P3) 9 fr1 Ha4)
    as (Hb1 & Hb2 & Hb3 & Hb4 & Hb5 & Hb6);
    try assumption; try (change (length P2) with 6%nat; lia).
  destruct (xbee_recv_frame wire_read y1 9 fr1) as [[r2 y2] fr2] eqn:E2.
  cbn [fst snd] in Hb1, Hb2, Hb3, Hb4, Hb5, Hb6.
  change (Z.of_nat (length P2)) with 6 in Hb1. subst r2.
  change (length P2) with 6%nat in Hb2.
  rewrite (verify_loop_step y1 y2 fr1 fr2 f0 2 68 55 1 s2 _ Hnd E2 Hb2).
  rewrite <- (app_nil_r (wire_frame P3)) in Hb3.
  destruct (recv_frame_wire_ready y2 P3 [] 9 fr2 Hb4)
    as (Hc1 & Hc2 & Hc3 & Hc4 & Hc5 & Hc6);
    try assumption; try (change (length P3) with 6%nat; lia).
  destruct (xbee_recv_frame wire_read y2 9 fr2) as [[r3 y3] fr3] eqn:E3.
  cbn [fst snd] in Hc1, Hc2, Hc3, Hc4, Hc5, Hc6.
  change (Z.of_nat (length P3)) with 6 in Hc1. subst r3.
  change (length P3) with 6%nat in Hc2.
  rewrite (verify_loop_step y2 y3 fr2 fr3 f0 3 68 54 1 s3 _ Hnd E3 Hc2).
  cbn [verify_loop].
  exists y3. split; [reflexivity |].
  rewrite Hc6, Hb6. auto.
Qed.

End ModemOpen.

Lemma open_succeeds_with_conforming_modem_witness :
  exists x',
    xbee_open wire_write wire_read (modem_sleep (conforming_modem 0x88)) 0
      0x8A 0x89 0x88 0x97 0x80 0x81
      (fun v n => to_int (Z.shiftl v (Z.land n 31)))
      4 (mk_wire [] [0x55; 0x7E; 0x00]) 64 (repeat 0 64)
      [0] [0; 0; 0] [0; 0; 0] zeros zero_frame
    = Some (0, x')
    /\ tx (uart x') = init_script.
Proof.
  destruct (open_succeeds_with_conforming_modem (conforming_modem 0x88) 0
              0x8A 0x89 0x88 0x97 0x80 0x81
              (fun v n => to_int (Z.shiftl v (Z.land n 31)))
              [0x55; 0x7E; 0x00] (repeat 0 64) [0] [0; 0; 0] [0; 0; 0]
              64 0 0 0 4%nat zeros zero_frame)
    as (x' & Heq & Htx & _).
  - exact xbee_ids_distinct.
  - vm_compute. reflexivity.
  - vm_compute. reflexivity.
  - vm_compute. reflexivity.
  - cbn [length]. lia.
  - vm_compute. split; discriminate.
  - reflexivity.
  - exists x'. split; [exact Heq | exact Htx].
Defined.
